(** * folder_sync: one-way recursive synchronisation of a replica directory

    A shallow embedding of [src/folder_sync.py].  The program works on a
    live file system through [os], [shutil], [filecmp.dircmp] and
    [hashlib.md5]; those library calls are modelled here on a tree-shaped
    file system, and the program's own functions ([calculate_md5],
    [files_are_different], [sync_folders]) are transcribed on top of them
    in a small state-and-exception monad. *)

From Stdlib Require Import List String Ascii Bool Arith ZArith Lia.
From Stdlib.Strings Require Import Byte.
Import ListNotations.
Local Open Scope string_scope.
Local Open Scope list_scope.

Set Warnings "-register-all".

(* ===================================================================== *)
(** ** MD5 (RFC 1321), the digest behind [hashlib.md5] *)
(* ===================================================================== *)

Module MD5.
Local Open Scope Z_scope.

Definition wrap32 (x : Z) : Z := x mod 2 ^ 32.

Definition add32 (x y : Z) : Z := wrap32 (x + y).

Definition not32 (x : Z) : Z := Z.lxor x (2 ^ 32 - 1).

Definition rotl32 (x : Z) (n : Z) : Z :=
  Z.lor (wrap32 (Z.shiftl x n)) (Z.shiftr x (32 - n)).

Definition shifts : list Z :=
  [ 7; 12; 17; 22;  7; 12; 17; 22;  7; 12; 17; 22;  7; 12; 17; 22;
    5;  9; 14; 20;  5;  9; 14; 20;  5;  9; 14; 20;  5;  9; 14; 20;
    4; 11; 16; 23;  4; 11; 16; 23;  4; 11; 16; 23;  4; 11; 16; 23;
    6; 10; 15; 21;  6; 10; 15; 21;  6; 10; 15; 21;  6; 10; 15; 21 ].

Definition sines : list Z :=
  [ 0xd76aa478; 0xe8c7b756; 0x242070db; 0xc1bdceee;
    0xf57c0faf; 0x4787c62a; 0xa8304613; 0xfd469501;
    0x698098d8; 0x8b44f7af; 0xffff5bb1; 0x895cd7be;
    0x6b901122; 0xfd987193; 0xa679438e; 0x49b40821;
    0xf61e2562; 0xc040b340; 0x265e5a51; 0xe9b6c7aa;
    0xd62f105d; 0x02441453; 0xd8a1e681; 0xe7d3fbc8;
    0x21e1cde6; 0xc33707d6; 0xf4d50d87; 0x455a14ed;
    0xa9e3e905; 0xfcefa3f8; 0x676f02d9; 0x8d2a4c8a;
    0xfffa3942; 0x8771f681; 0x6d9d6122; 0xfde5380c;
    0xa4beea44; 0x4bdecfa9; 0xf6bb4b60; 0xbebfbc70;
    0x289b7ec6; 0xeaa127fa; 0xd4ef3085; 0x04881d05;
    0xd9d4d039; 0xe6db99e5; 0x1fa27cf8; 0xc4ac5665;
    0xf4292244; 0x432aff97; 0xab9423a7; 0xfc93a039;
    0x655b59c3; 0x8f0ccc92; 0xffeff47d; 0x85845dd1;
    0x6fa87e4f; 0xfe2ce6e0; 0xa3014314; 0x4e0811a1;
    0xf7537e82; 0xbd3af235; 0x2ad7d2bb; 0xeb86d391 ].

(** The four chaining words A, B, C, D. *)
Record regs : Type := Regs { rA : Z; rB : Z; rC : Z; rD : Z }.

Definition init_regs : regs :=
  Regs 0x67452301 0xefcdab89 0x98badcfe 0x10325476.

Definition byteZ (b : byte) : Z := Z.of_N (Byte.to_N b).

(** Little-endian 32-bit word [i] of a 64-byte block. *)
Definition word_at (block : list Z) (i : nat) : Z :=
  let b k := nth (4 * i + k) block 0 in
  b 0%nat + 2 ^ 8 * b 1%nat + 2 ^ 16 * b 2%nat + 2 ^ 24 * b 3%nat.

Definition round (block : list Z) (r : regs) (i : nat) : regs :=
  let '(Regs a b c d) := r in
  let '(f, g) :=
    if (i <? 16)%nat then (Z.lor (Z.land b c) (Z.land (not32 b) d), i)
    else if (i <? 32)%nat then
      (Z.lor (Z.land d b) (Z.land (not32 d) c), (5 * i + 1) mod 16)%nat
    else if (i <? 48)%nat then (Z.lxor b (Z.lxor c d), (3 * i + 5) mod 16)%nat
    else (Z.lxor c (Z.lor b (not32 d)), (7 * i) mod 16)%nat in
  let f' := add32 (add32 (add32 f a) (nth i sines 0)) (word_at block g) in
  Regs d (add32 b (rotl32 f' (nth i shifts 0))) b c.

Definition compress (r : regs) (block : list Z) : regs :=
  let r' := fold_left (round block) (seq 0 64) r in
  Regs (add32 (rA r) (rA r')) (add32 (rB r) (rB r'))
       (add32 (rC r) (rC r')) (add32 (rD r) (rD r')).

Definition le_bytes (n : nat) (x : Z) : list Z :=
  map (fun k => Z.shiftr x (8 * Z.of_nat k) mod 256) (seq 0 n).

(** Message padding: a 1 bit, zeros up to 56 mod 64, the bit length. *)
Definition pad (msg : list Z) : list Z :=
  let len := List.length msg in
  let zeros := ((64 + 55 - len mod 64) mod 64)%nat in
  msg ++ [0x80] ++ repeat 0 zeros ++ le_bytes 8 (8 * Z.of_nat len).

Fixpoint blocks (n : nat) (l : list Z) : list (list Z) :=
  match n with
  | O => []
  | S n' => firstn 64 l :: blocks n' (skipn 64 l)
  end.

Definition digest_bytes (msg : list byte) : list Z :=
  let p := pad (map byteZ msg) in
  let r := fold_left compress (blocks (List.length p / 64) p) init_regs in
  le_bytes 4 (rA r) ++ le_bytes 4 (rB r) ++ le_bytes 4 (rC r) ++ le_bytes 4 (rD r).

Definition hex_digit (x : Z) : ascii :=
  nth (Z.to_nat x)
      (list_ascii_of_string "0123456789abcdef") "0"%char.

Fixpoint hex (l : list Z) : string :=
  match l with
  | [] => EmptyString
  | x :: l' => String (hex_digit (x / 16)) (String (hex_digit (x mod 16)) (hex l'))
  end.

(** [hashlib.md5(msg).hexdigest()] *)
Definition hexdigest (msg : list byte) : string := hex (digest_bytes msg).

End MD5.

Arguments MD5.hexdigest msg : simpl never.

Definition bytes := list byte.

Definition b (s : string) : bytes := list_byte_of_string s.

(* ===================================================================== *)
(** ** The file system *)
(* ===================================================================== *)

(** A path is the list of its components below the file-system root;
    [os.path.join(p, x)] appends one component. *)
Definition name := string.
Definition path := list name.

Definition join (p : path) (x : name) : path := p ++ [x].

(** A regular file with its contents, or a directory with its entries in
    the order in which the operating system lists them.  [readable] is the
    owner's read permission: a file that cannot be opened for reading, a
    directory that cannot be listed. *)
Inductive node : Type :=
| File (readable : bool) (data : bytes)
| Dir (readable : bool) (entries : list (name * node)).

Definition entries_t := list (name * node).

Fixpoint entry (es : entries_t) (x : name) : option node :=
  match es with
  | [] => None
  | (y, n) :: es' => if String.eqb x y then Some n else entry es' x
  end.

Fixpoint set_entry (x : name) (v : node) (es : entries_t) : entries_t :=
  match es with
  | [] => [(x, v)]
  | (y, n) :: es' =>
      if String.eqb x y then (x, v) :: es' else (y, n) :: set_entry x v es'
  end.

Fixpoint del_entry (x : name) (es : entries_t) : entries_t :=
  match es with
  | [] => []
  | (y, n) :: es' =>
      if String.eqb x y then del_entry x es' else (y, n) :: del_entry x es'
  end.

(** Path resolution from a directory node. *)
Fixpoint lookup (n : node) (p : path) : option node :=
  match p with
  | [] => Some n
  | x :: p' =>
      match n with
      | Dir _ es =>
          match entry es x with
          | Some c => lookup c p'
          | None => None
          end
      | File _ _ => None
      end
  end.

(** [modify f n p] rewrites the node found at [p] by [f]; a path that does
    not resolve leaves the tree as it is. *)
Fixpoint modify (f : node -> node) (n : node) (p : path) : node :=
  match p with
  | [] => f n
  | x :: p' =>
      match n with
      | Dir r es =>
          match entry es x with
          | Some c => Dir r (set_entry x (modify f c p') es)
          | None => n
          end
      | File _ _ => n
      end
  end.

Definition on_entries (g : entries_t -> entries_t) (n : node) : node :=
  match n with
  | Dir r es => Dir r (g es)
  | File _ _ => n
  end.

(** Create or replace the entry [x] of the directory at [parent]. *)
Definition put (fs : node) (parent : path) (x : name) (v : node) : node :=
  modify (on_entries (set_entry x v)) fs parent.

(** Unlink the entry [x] of the directory at [parent]. *)
Definition unlink (fs : node) (parent : path) (x : name) : node :=
  modify (on_entries (del_entry x)) fs parent.

Definition dirname (p : path) : path := removelast p.
Definition basename (p : path) : name := last p "".

Definition is_dir (n : node) : bool :=
  match n with Dir _ _ => true | File _ _ => false end.

Definition path_eqb (p q : path) : bool :=
  if list_eq_dec string_dec p q then true else false.

(** [os.makedirs]: the missing tail of the path is created as fresh empty
    directories; [None] when a file stands in the way. *)
Fixpoint new_dirs (p : path) : node :=
  match p with
  | [] => Dir true []
  | x :: p' => Dir true [(x, new_dirs p')]
  end.

Fixpoint mkdirs (n : node) (p : path) : option node :=
  match p with
  | [] => Some n
  | x :: p' =>
      match n with
      | Dir r es =>
          match entry es x with
          | Some c =>
              match mkdirs c p' with
              | Some c' => Some (Dir r (set_entry x c' es))
              | None => None
              end
          | None => Some (Dir r (set_entry x (new_dirs p') es))
          end
      | File _ _ => None
      end
  end.

(** What [shutil.copytree] writes for the listed entries of a directory:
    unreadable files and directories are skipped, each one recorded as an
    error, and the rest is still copied. *)
Fixpoint copy_node (n : node) : option node * bool :=
  match n with
  | File true d => (Some (File true d), true)
  | File false _ => (None, false)
  | Dir false _ => (None, false)
  | Dir true es =>
      let fix copy_entries (es : entries_t) : entries_t * bool :=
        match es with
        | [] => ([], true)
        | (x, c) :: es' =>
            let '(rest, ok') := copy_entries es' in
            match copy_node c with
            | (Some c', ok) => ((x, c') :: rest, ok && ok')
            | (None, _) => (rest, false)
            end
        end in
      let '(es', ok) := copy_entries es in (Some (Dir true es'), ok)
  end.

Fixpoint copy_entries (es : entries_t) : entries_t * bool :=
  match es with
  | [] => ([], true)
  | (x, c) :: es' =>
      let '(rest, ok') := copy_entries es' in
      match copy_node c with
      | (Some c', ok) => ((x, c') :: rest, ok && ok')
      | (None, _) => (rest, false)
      end
  end.

(** Exceptions of the modelled library calls, each with the path it was
    raised for; [RecursionError] is the interpreter's recursion limit. *)
Inductive exn : Type :=
| FileNotFoundError (p : path)
| NotADirectoryError (p : path)
| IsADirectoryError (p : path)
| PermissionError (p : path)
| FileExistsError (p : path)
| SameFileError (p : path)
| ShutilError (p : path)
| RecursionError.

(** What [shutil.rmtree] leaves of a directory.  Entries go in listing
    order; files are unlinked, subdirectories removed recursively, and the
    first directory that cannot be listed stops the whole removal. *)
Fixpoint rmtree_node (p : path) (n : node) : option node * option exn :=
  match n with
  | File _ _ => (None, None)
  | Dir false _ => (Some n, Some (PermissionError p))
  | Dir true es =>
      let fix rm_entries (es : entries_t) : entries_t * option exn :=
        match es with
        | [] => ([], None)
        | (x, c) :: es' =>
            match rmtree_node (join p x) c with
            | (None, _) => rm_entries es'
            | (Some c', e) => ((x, c') :: es', e)
            end
        end in
      match rm_entries es with
      | (_, None) => (None, None)
      | (rest, Some e) => (Some (Dir true rest), Some e)
      end
  end.

Fixpoint all_readable (n : node) : bool :=
  match n with
  | File r _ => r
  | Dir r es =>
      r && (fix all_entries (es : entries_t) : bool :=
              match es with
              | [] => true
              | (_, c) :: es' => all_readable c && all_entries es'
              end) es
  end.

(** Number of directory levels below (and including) a node. *)
Fixpoint height (n : node) : nat :=
  match n with
  | File _ _ => 0
  | Dir _ es =>
      S ((fix max_entries (es : entries_t) : nat :=
            match es with
            | [] => 0
            | (_, c) :: es' => Nat.max (height c) (max_entries es')
            end) es)
  end.

(* ===================================================================== *)
(** ** State and exceptions *)
(* ===================================================================== *)

(** One line of the log written by [log_and_print]; the constructors stand
    for the message formats of the program
    ("Created directory: ..", "Copied directory: .. to ..",
     "Copied file: .. to ..", "Removed directory: ..", "Removed file: ..",
     "Updated file: .. to .."). *)
Inductive event : Type :=
| CreatedDirectory (replica : path)
| CopiedDirectory (src dst : path)
| CopiedFile (src dst : path)
| RemovedDirectory (p : path)
| RemovedFile (p : path)
| UpdatedFile (src dst : path).

Record world : Type := World { fs : node; log : list event }.

Inductive outcome (A : Type) : Type :=
| Return (a : A)
| Raise (e : exn).
Arguments Return {A} a.
Arguments Raise {A} e.

(** A computation runs in a world and leaves a world behind, whether it
    returns or raises: what was written before an exception stays written. *)
Definition M (A : Type) : Type := world -> outcome A * world.

Definition ret {A} (a : A) : M A := fun w => (Return a, w).

Definition raise {A} (e : exn) : M A := fun w => (Raise e, w).

Definition bind {A B} (c : M A) (k : A -> M B) : M B :=
  fun w =>
    match c w with
    | (Return a, w') => k a w'
    | (Raise e, w') => (Raise e, w')
    end.

Declare Scope monad_scope.
Delimit Scope monad_scope with monad.
Notation "x <- c ;; k" := (bind c (fun x => k))
  (at level 61, c at next level, right associativity) : monad_scope.
Notation "c ;; k" := (bind c (fun _ => k))
  (at level 61, right associativity) : monad_scope.
Local Open Scope monad_scope.

Definition get_fs : M node := fun w => (Return (fs w), w).

Definition set_fs (t : node) : M unit :=
  fun w => (Return tt, World t (log w)).

(** [for x in l: body(x)] *)
Fixpoint for_each {A} (l : list A) (body : A -> M unit) : M unit :=
  match l with
  | [] => ret tt
  | x :: l' => body x ;; for_each l' body
  end.

Definition log_and_print (message : event) : M unit :=
  fun w => (Return tt, World (fs w) (log w ++ [message])).

(* ===================================================================== *)
(** ** The library calls of the program *)
(* ===================================================================== *)

Definition os_path_exists (p : path) : M bool :=
  t <- get_fs ;;
  ret (match lookup t p with Some _ => true | None => false end).

Definition os_path_isdir (p : path) : M bool :=
  t <- get_fs ;;
  ret (match lookup t p with Some n => is_dir n | None => false end).

Definition os_listdir (p : path) : M (list name) :=
  t <- get_fs ;;
  match lookup t p with
  | None => raise (FileNotFoundError p)
  | Some (File _ _) => raise (NotADirectoryError p)
  | Some (Dir false _) => raise (PermissionError p)
  | Some (Dir true es) => ret (map fst es)
  end.

Definition os_makedirs (p : path) : M unit :=
  t <- get_fs ;;
  match lookup t p with
  | Some _ => raise (FileExistsError p)
  | None =>
      match mkdirs t p with
      | Some t' => set_fs t'
      | None => raise (NotADirectoryError p)
      end
  end.

Definition os_remove (p : path) : M unit :=
  t <- get_fs ;;
  match lookup t p with
  | None => raise (FileNotFoundError p)
  | Some (Dir _ _) => raise (IsADirectoryError p)
  | Some (File _ _) => set_fs (unlink t (dirname p) (basename p))
  end.

(** [open(p, 'rb').read()]: the whole contents of a readable file. *)
Definition open_rb (p : path) : M bytes :=
  t <- get_fs ;;
  match lookup t p with
  | None => raise (FileNotFoundError p)
  | Some (Dir _ _) => raise (IsADirectoryError p)
  | Some (File false _) => raise (PermissionError p)
  | Some (File true data) => ret data
  end.

(** [open(p, 'wb').write(data)], followed by [copystat] from a readable
    source: the directory of [p] must exist and [p] must not name a
    directory. *)
Definition write_file (p : path) (data : bytes) : M unit :=
  t <- get_fs ;;
  match lookup t (dirname p) with
  | Some (Dir _ _) =>
      match lookup t p with
      | Some (Dir _ _) => raise (IsADirectoryError p)
      | _ => set_fs (put t (dirname p) (basename p) (File true data))
      end
  | Some (File _ _) => raise (NotADirectoryError p)
  | None => raise (FileNotFoundError p)
  end.

(** [shutil.copy2(src, dst)]: contents and metadata; a destination that is
    a directory receives the file under the source's base name. *)
Definition shutil_copy2 (src dst : path) : M unit :=
  d <- os_path_isdir dst ;;
  let dst := if d then join dst (basename src) else dst in
  e <- os_path_exists src ;;
  if e && path_eqb src dst then raise (SameFileError src)
  else
    data <- open_rb src ;;
    write_file dst data.

(** [shutil.copytree(src, dst)]: the source is listed, the destination is
    created (it must not exist), every readable entry is copied, and the
    collected errors are raised at the end.  The copy is taken from the
    tree as it is when the call starts, which is what the library does
    whenever [dst] does not lie inside [src]. *)
Definition shutil_copytree (src dst : path) : M unit :=
  t <- get_fs ;;
  match lookup t src with
  | None => raise (FileNotFoundError src)
  | Some (File _ _) => raise (NotADirectoryError src)
  | Some (Dir false _) => raise (PermissionError src)
  | Some (Dir true es) =>
      os_makedirs dst ;;
      t' <- get_fs ;;
      let '(es', ok) := copy_entries es in
      set_fs (put t' (dirname dst) (basename dst) (Dir true es')) ;;
      if ok then ret tt else raise (ShutilError src)
  end.

(** [shutil.rmtree(p)] with the default error handler, which re-raises. *)
Definition shutil_rmtree (p : path) : M unit :=
  t <- get_fs ;;
  match lookup t p, p with
  | None, _ => raise (FileNotFoundError p)
  | Some (File _ _), _ => raise (NotADirectoryError p)
  | Some (Dir _ _), [] => raise (PermissionError p)
  | Some (Dir r es), _ :: _ =>
      match rmtree_node p (Dir r es) with
      | (None, _) => set_fs (unlink t (dirname p) (basename p))
      | (Some n', Some e) =>
          set_fs (put t (dirname p) (basename p) n') ;; raise e
      | (Some n', None) => set_fs (put t (dirname p) (basename p) n')
      end
  end.

(** *** [hashlib.md5]

    The hash object takes the bytes it is fed; its digest is the MD5 of
    everything fed so far. *)
Record hasher : Type := Hasher { fed : bytes }.

Definition hashlib_md5 : hasher := Hasher [].

Definition update (h : hasher) (chunk : bytes) : hasher :=
  Hasher (fed h ++ chunk).

Definition hexdigest (h : hasher) : string := MD5.hexdigest (fed h).

(** *** [filecmp.dircmp]

    The attributes of a [dircmp] object are computed when first read:
    [left_only], [right_only] and [common] by listing both directories
    (phases 0 and 1 of the library), [common_dirs], [common_files] and
    [common_funny] by a [stat] of every common name (phase 2). *)

(** [hide + ignore] with the defaults of [dircmp(a, b)]:
    [[os.curdir, os.pardir]] and [filecmp.DEFAULT_IGNORES]. *)
Definition skip : list name :=
  ["."; ".."; "RCS"; "CVS"; "tags"; ".git"; ".hg"; ".bzr"; "_darcs";
   "__pycache__"].

Definition mem (x : name) (l : list name) : bool := existsb (String.eqb x) l.

Definition _filter (flist skip : list name) : list name :=
  filter (fun x => negb (mem x skip)) flist.

Fixpoint insert_sorted (x : name) (l : list name) : list name :=
  match l with
  | [] => [x]
  | y :: l' => if String.leb x y then x :: l else y :: insert_sorted x l'
  end.

(** [list.sort()] on names. *)
Definition sort (l : list name) : list name := fold_right insert_sorted [] l.

(** The keys of [dict(zip(l, l))]: every name once. *)
Definition dict_keys (l : list name) : list name := nodup string_dec l.

Record phase1_t : Type :=
  Phase1 { common : list name; left_only : list name; right_only : list name }.

Definition compare_lists (ll rl : list name) : phase1_t :=
  let left_list := sort (_filter ll skip) in
  let right_list := sort (_filter rl skip) in
  let a := dict_keys left_list in
  let b := dict_keys right_list in
  Phase1 (filter (fun x => mem x b) a)
         (filter (fun x => negb (mem x b)) a)
         (filter (fun x => negb (mem x a)) b).

Definition dircmp_phase1 (left right : path) : M phase1_t :=
  ll <- os_listdir left ;;
  rl <- os_listdir right ;;
  ret (compare_lists ll rl).

Inductive common_kind : Type := CommonDir | CommonFile | CommonFunny.

(** The [stat] comparison of phase 2 for one common name. *)
Definition classify (t : node) (left right : path) (x : name) : common_kind :=
  match lookup t (join left x), lookup t (join right x) with
  | Some a, Some b =>
      if negb (Bool.eqb (is_dir a) (is_dir b)) then CommonFunny
      else if is_dir a then CommonDir
      else CommonFile
  | _, _ => CommonFunny
  end.

Definition is_common_dir (k : common_kind) : bool :=
  match k with CommonDir => true | _ => false end.
Definition is_common_file (k : common_kind) : bool :=
  match k with CommonFile => true | _ => false end.
Definition is_common_funny (k : common_kind) : bool :=
  match k with CommonFunny => true | _ => false end.

Record phase2_t : Type :=
  Phase2 { common_dirs : list name; common_files : list name;
           common_funny : list name }.

Definition dircmp_phase2 (left right : path) (common : list name) : M phase2_t :=
  t <- get_fs ;;
  ret (Phase2 (filter (fun x => is_common_dir (classify t left right x)) common)
              (filter (fun x => is_common_file (classify t left right x)) common)
              (filter (fun x => is_common_funny (classify t left right x)) common)).

(* ===================================================================== *)
(** ** The program *)
(* ===================================================================== *)

(** The loop [for chunk in iter(lambda: f.read(size), b""): hasher.update(chunk)]
    over the unread rest of the file: each [read] takes up to [size] bytes
    and the loop ends at the first empty read.  [fuel] bounds the number
    of reads. *)
Fixpoint read_loop (fuel size : nat) (h : hasher) (rest : bytes) : hasher :=
  match fuel with
  | O => h
  | S fuel' =>
      match firstn size rest with
      | [] => h
      | chunk => read_loop fuel' size (update h chunk) (skipn size rest)
      end
  end.

Definition calculate_md5_chunked (size : nat) (file_path : path) : M string :=
  data <- open_rb file_path ;;
  ret (hexdigest (read_loop (S (List.length data)) size hashlib_md5 data)).

Definition calculate_md5 (file_path : path) : M string :=
  calculate_md5_chunked 4096 file_path.

Definition files_are_different (src_path dest_path : path) : M bool :=
  h1 <- calculate_md5 src_path ;;
  h2 <- calculate_md5 dest_path ;;
  ret (negb (String.eqb h1 h2)).

(** Lines 89-92 of [sync_folders]: ensure the replica folder exists. *)
Definition ensure_replica (replica : path) : M unit :=
  e <- os_path_exists replica ;;
  if negb e then
    os_makedirs replica ;;
    log_and_print (CreatedDirectory replica)
  else ret tt.

(** The copy loop of [sync_folders] (lines 98-106). *)
Definition copy_entry (source replica : path) (file : name) : M unit :=
  let src_path := join source file in
  let dest_path := join replica file in
  d <- os_path_isdir src_path ;;
  if d then
    shutil_copytree src_path dest_path ;;
    log_and_print (CopiedDirectory src_path dest_path)
  else
    shutil_copy2 src_path dest_path ;;
    log_and_print (CopiedFile src_path dest_path).

(** The removal loop (lines 109-116). *)
Definition remove_entry (replica : path) (file : name) : M unit :=
  let replica_path := join replica file in
  d <- os_path_isdir replica_path ;;
  if d then
    shutil_rmtree replica_path ;;
    log_and_print (RemovedDirectory replica_path)
  else
    os_remove replica_path ;;
    log_and_print (RemovedFile replica_path).

(** The update loop (lines 119-124). *)
Definition update_entry (source replica : path) (file : name) : M unit :=
  let src_path := join source file in
  let dest_path := join replica file in
  diff <- files_are_different src_path dest_path ;;
  if diff then
    shutil_copy2 src_path dest_path ;;
    log_and_print (UpdatedFile src_path dest_path)
  else ret tt.

(** Lines 94-128 of [sync_folders]: one directory pair is compared and
    reconciled; [recurse] is the call made for every common
    subdirectory.  [comparison.left_only] is the first attribute read, so
    both directories are listed there; [comparison.common_files] is read
    after the first two loops, and phase 2 of [dircmp] runs at that
    point. *)
Definition sync_pass (recurse : path -> path -> M unit)
    (source replica : path) : M unit :=
  (* Compare the two directories *)
  comparison <- dircmp_phase1 source replica ;;
  (* Copy or update files from source to replica *)
  for_each (left_only comparison) (copy_entry source replica) ;;
  (* Remove files from replica that are not in the source *)
  for_each (right_only comparison) (remove_entry replica) ;;
  (* Update files that differ (based on MD5) *)
  comparison2 <- dircmp_phase2 source replica (common comparison) ;;
  for_each (common_files comparison2) (update_entry source replica) ;;
  (* Recursively synchronize subdirectories *)
  for_each (common_dirs comparison2) (fun common_dir =>
    recurse (join source common_dir) (join replica common_dir)).

(** [sync_folders(source, replica)]; [fuel] is the recursion depth the
    interpreter still allows. *)
Fixpoint sync_folders (fuel : nat) (source replica : path) : M unit :=
  match fuel with
  | O => raise RecursionError
  | S fuel' =>
      ensure_replica replica ;;
      sync_pass (sync_folders fuel') source replica
  end.

(* ===================================================================== *)
(** ** Reasoning about computations *)
(* ===================================================================== *)

(** [wp c Q E w]: run in [w], [c] either returns a value and a world that
    satisfy [Q], or raises an exception and leaves a world that satisfy
    [E].  Computations are total, so this is a total-correctness triple. *)
Definition wp {A} (c : M A) (Q : A -> world -> Prop) (E : exn -> world -> Prop)
    (w : world) : Prop :=
  match c w with
  | (Return a, w') => Q a w'
  | (Raise e, w') => E e w'
  end.

(** [keeps P c]: whatever the outcome of [c], [P] still holds afterwards. *)
Definition keeps {A} (P : world -> Prop) (c : M A) : Prop :=
  forall w, P w -> wp c (fun _ => P) (fun _ => P) w.

(** [prefixb p q]: the path [q] is [p] or lies below [p]. *)
Fixpoint prefixb (p q : path) : bool :=
  match p, q with
  | [], _ => true
  | x :: p', y :: q' => String.eqb x y && prefixb p' q'
  | _ :: _, [] => false
  end.

(** Two paths of which neither lies at or below the other. *)
Definition disjoint (p q : path) : Prop :=
  prefixb p q = false /\ prefixb q p = false.

(* ===================================================================== *)
(** ** The vocabulary of the statements *)
(* ===================================================================== *)

(** A property of the file tree alone. *)
Definition on_fs (F : node -> Prop) : world -> Prop := fun w => F (fs w).

Definition at_path (q : path) (v : option node) : world -> Prop :=
  on_fs (fun t => lookup t q = v).

(** Hashing a file by feeding its whole contents to the hash object in
    one piece. *)
Definition md5_in_one_piece (file_path : path) : M string :=
  data <- open_rb file_path ;;
  ret (hexdigest (update hashlib_md5 data)).

(** The content test of the program with another chunk size. *)
Definition files_are_different_chunked (size : nat)
    (src_path dest_path : path) : M bool :=
  src_md5 <- calculate_md5_chunked size src_path ;;
  dest_md5 <- calculate_md5_chunked size dest_path ;;
  ret (negb (String.eqb src_md5 dest_md5)).

(** The replica-side path an event reports on. *)
Definition target (e : event) : path :=
  match e with
  | CreatedDirectory r => r
  | CopiedDirectory _ d => d
  | CopiedFile _ d => d
  | RemovedDirectory p => p
  | RemovedFile p => p
  | UpdatedFile _ d => d
  end.

(** [logged lg0 P]: the log is [lg0] followed by events that satisfy [P]. *)
Definition logged (lg0 : list event) (P : event -> Prop) : world -> Prop :=
  fun w => exists evs, log w = lg0 ++ evs /\ Forall P evs.

(** A computation that writes no log line. *)
Definition silent {A} (c : M A) : Prop := forall w, log (snd (c w)) = log w.

(** The events of a loop body name the entry the body works on. *)
Definition is_copy (source replica : path) (x : name) (e : event) : Prop :=
  e = CopiedDirectory (join source x) (join replica x) \/
  e = CopiedFile (join source x) (join replica x).

Definition is_removal (replica : path) (x : name) (e : event) : Prop :=
  e = RemovedDirectory (join replica x) \/ e = RemovedFile (join replica x).

Definition is_update (source replica : path) (x : name) (e : event) : Prop :=
  e = UpdatedFile (join source x) (join replica x).

(** An event about an entry of [r] or about something deeper. *)
Definition at_or_below (r : path) (e : event) : Prop :=
  exists x rest, target e = r ++ x :: rest.

(** An event about something strictly below an entry of [r]: the work of
    a recursive call. *)
Definition below (r : path) (e : event) : Prop :=
  exists x y rest, target e = r ++ x :: y :: rest.

(** [staged Ps evs]: [evs] splits into consecutive segments, one for each
    predicate of [Ps], in that order. *)
Fixpoint staged (Ps : list (event -> Prop)) (evs : list event) : Prop :=
  match Ps with
  | [] => evs = []
  | P :: Ps' =>
      exists l1 l2, evs = l1 ++ l2 /\ Forall P l1 /\ staged Ps' l2
  end.

Definition emits {A} (c : M A) (w : world) (P : list event -> Prop) : Prop :=
  exists evs, log (snd (c w)) = log w ++ evs /\ P evs.

Definition copies (source replica : path) (e : event) : Prop :=
  exists x, is_copy source replica x e.

Definition removals (replica : path) (e : event) : Prop :=
  exists x, is_removal replica x e.

Definition updates (source replica : path) (e : event) : Prop :=
  exists x, is_update source replica x e.

Definition all_readable_entries (es : entries_t) : bool :=
  forallb (fun xe => all_readable (snd xe)) es.

(** Two readable files with the same digest. *)
Definition same_digest (a b : option node) : Prop :=
  exists d1 d2, a = Some (File true d1) /\ b = Some (File true d2) /\
                MD5.hexdigest d1 = MD5.hexdigest d2.

(** A name that is a file on one side and a directory on the other. *)
Definition type_mismatch (a b : option node) : Prop :=
  exists s r, a = Some s /\ b = Some r /\ is_dir s <> is_dir r.

(** The entries of a directory pair a call has nothing to do for: names
    that [dircmp] skips, names of mismatched types, and common files
    with equal digests. *)
Definition untouched (S R : entries_t) (n : name) : Prop :=
  mem n skip = true \/
  type_mismatch (entry S n) (entry R n) \/
  same_digest (entry S n) (entry R n).

(** [sync_result s r r']: [r'] is what a call that returns normally makes
    of the replica directory [r] for the source directory [s]. *)
Inductive sync_result : node -> node -> node -> Prop :=
| sync_result_dir (S R R' : entries_t) :
    (forall n, mem n skip = true -> entry R' n = entry R n) ->
    (forall n, mem n skip = false -> entry S n = None -> entry R' n = None) ->
    (forall n s, mem n skip = false -> entry S n = Some s ->
       entry R n = None -> entry R' n = Some s /\ all_readable s = true) ->
    (forall n, mem n skip = false ->
       type_mismatch (entry S n) (entry R n) -> entry R' n = entry R n) ->
    (forall n r1 d1 r2 d2, mem n skip = false ->
       entry S n = Some (File r1 d1) -> entry R n = Some (File r2 d2) ->
       r1 = true /\ r2 = true /\
       entry R' n =
       Some (if String.eqb (MD5.hexdigest d1) (MD5.hexdigest d2)
             then File true d2 else File true d1)) ->
    (forall n r1 S1 r2 R1, mem n skip = false ->
       entry S n = Some (Dir r1 S1) -> entry R n = Some (Dir r2 R1) ->
       exists R1', entry R' n = Some (Dir r2 R1') /\
                   sync_result (Dir r1 S1) (Dir r2 R1) (Dir r2 R1')) ->
    sync_result (Dir true S) (Dir true R) (Dir true R').

(** An event about the entry [x] of the replica directory, for some [x]
    of the list [l], or about something below it. *)
Definition touches (replica : path) (l : list name) (e : event) : Prop :=
  exists x, In x l /\ prefixb (join replica x) (target e) = true.

Definition replica_world (fs0 : node) (replica : path) (rr : bool)
    (Rc : entries_t) (lg : list event) : world :=
  World (modify (fun _ => Dir rr Rc) fs0 replica) lg.


(** The [stat] comparison of phase 2 in terms of the two entries. *)
Definition classify_entries (a b : option node) : common_kind :=
  match a, b with
  | Some a, Some b =>
      if negb (Bool.eqb (is_dir a) (is_dir b)) then CommonFunny
      else if is_dir a then CommonDir
      else CommonFile
  | _, _ => CommonFunny
  end.

(** An update that is reported concerns a file whose digest differed. *)
Definition updated_in (replica : path) (S : entries_t) (l : list name) (Rc : entries_t) (e : event) : Prop :=
  exists x, In x l /\ ~ same_digest (entry S x) (entry Rc x) /\
            prefixb (join replica x) (target e) = true.

(** [kept replica S R Rk evs]: the entries a call has nothing to do for are in [Rk]
    what they are in [R], and no event of [evs] concerns them. *)
Definition kept (replica : path) (S : entries_t) (R Rk : entries_t) (evs : list event) : Prop :=
  forall n, untouched S R n ->
    entry Rk n = entry R n /\
    Forall (fun e => prefixb (join replica n) (target e) = false) evs.

Definition max_height (es : entries_t) : nat :=
  fold_right (fun xe m => Nat.max (height (snd xe)) m) 0 es.

(** A sufficient condition for a call to return normally: everything is
    readable and the recursion limit exceeds the depth of the source. *)
Definition call_total (fuel : nat) (s r : node) : Prop :=
  all_readable s = true /\ all_readable r = true /\ height s <= fuel.

(** The read permission of a node itself. *)
Definition readable_flag (n : node) : bool :=
  match n with File r _ => r | Dir r _ => r end.




Definition file (s : string) : node := File true (b s).

(** A pair of readable trees with something to copy, to remove and to
    update, and a common file that is already the same. *)
Definition demo_fs : node :=
  Dir true
    [("src", Dir true [("docs", Dir true [("a.txt", file "alpha")]);
                       ("f1.txt", file "hello");
                       ("new.txt", file "abc")]);
     ("rep", Dir true [("docs", Dir true [("a.txt", file "stale")]);
                       ("f1.txt", file "hello");
                       ("f2.txt", file "x")])].


(** A file in the source where the replica has a directory. *)
Definition stale_dir_fs : node :=
  Dir true
    [("src", Dir true [("x", file "fresh")]);
     ("rep", Dir true [("x", Dir true [("old.txt", file "old")])])].

(** The source subdirectory [a] cannot be listed; its sibling [b] has a
    file the replica lacks. *)
Definition unreadable_fs : node :=
  Dir true
    [("src", Dir true [("a", Dir false [("x.txt", file "x")]);
                       ("b", Dir true [("y.txt", file "y")])]);
     ("rep", Dir true [("a", Dir true []); ("b", Dir true [])])].

(** A converged pair to whose source the file [tags] has been added. *)
Definition tags_fs : node :=
  Dir true
    [("src", Dir true [("f1.txt", file "hello"); ("tags", file "index")]);
     ("rep", Dir true [("f1.txt", file "hello")])].

(** Only the source exists. *)
Definition fresh_fs : node :=
  Dir true [("src", Dir true [("f1.txt", file "hello")])].

(** The exception [open(p, 'rb')] ends with on the node found at [p], if
    any. *)
Definition open_error (p : path) (n : option node) : option exn :=
  match n with
  | None => Some (FileNotFoundError p)
  | Some (Dir _ _) => Some (IsADirectoryError p)
  | Some (File false _) => Some (PermissionError p)
  | Some (File true _) => None
  end.

(** The exception [os.listdir(p)] ends with on the node found at [p], if
    any. *)
Definition listdir_error (p : path) (n : option node) : option exn :=
  match n with
  | None => Some (FileNotFoundError p)
  | Some (File _ _) => Some (NotADirectoryError p)
  | Some (Dir false _) => Some (PermissionError p)
  | Some (Dir true _) => None
  end.






(* ===================================================================== *)
(** ** The log file names *)
(* ===================================================================== *)

(** [datetime.now()]: the fields that [strftime] reads. *)
Record datetime : Type :=
  Datetime { year : nat; month : nat; day : nat;
             hour : nat; minute : nat; second : nat }.

(** The ranges of the fields of a [datetime] object. *)
Definition valid_datetime (t : datetime) : bool :=
  Nat.leb 1 (year t) &&
  Nat.leb 1 (month t) && Nat.leb (month t) 12 &&
  Nat.leb 1 (day t) && Nat.leb (day t) 31 &&
  Nat.ltb (hour t) 24 && Nat.ltb (minute t) 60 && Nat.ltb (second t) 60.

Definition digit (n : nat) : ascii := ascii_of_nat (48 + n).

(** A number below 100 as two decimal digits, zero padded: the directives
    [%y] (year without century), [%m], [%d], [%H], [%M] and [%S]. *)
Definition two_digits (n : nat) : string :=
  String (digit (n / 10)) (String (digit (n mod 10)) EmptyString).

(** [t.strftime("%y%m%d_%H%M%S")]. *)
Definition strftime (t : datetime) : string :=
  two_digits (year t mod 100) ++ two_digits (month t) ++ two_digits (day t) ++
  "_" ++ two_digits (hour t) ++ two_digits (minute t) ++ two_digits (second t).

(** [generate_logfile_name], given the value of [datetime.now()]. *)
Definition generate_logfile_name (now : datetime) : string :=
  "logs/sync_log-" ++ strftime now ++ ".log".

(** The order of time on [datetime] values. *)
Fixpoint lexicographic (l1 l2 : list nat) : comparison :=
  match l1, l2 with
  | [], [] => Eq
  | [], _ :: _ => Lt
  | _ :: _, [] => Gt
  | x :: l1', y :: l2' =>
      match Nat.compare x y with
      | Eq => lexicographic l1' l2'
      | c => c
      end
  end.

Definition chronological (t1 t2 : datetime) : comparison :=
  lexicographic [year t1; month t1; day t1; hour t1; minute t1; second t1]
                [year t2; month t2; day t2; hour t2; minute t2; second t2].

(** [s.startswith(p)] and [s.endswith(p)]. *)
Definition startswith (s p : string) : bool := String.prefix p s.

Definition endswith (s p : string) : bool :=
  Nat.leb (String.length p) (String.length s) &&
  String.eqb (substring (String.length s - String.length p)
                        (String.length p) s) p.

(** The test of the list comprehension of [get_last_logfile]. *)
Definition is_log_file (f : name) : bool :=
  startswith f "sync_log-" && endswith f ".log".

(** [list.sort(reverse=True)] on names: insertion with every comparison
    reversed. *)
Fixpoint insert_reverse (x : name) (l : list name) : list name :=
  match l with
  | [] => [x]
  | y :: l' => if String.leb y x then x :: l else y :: insert_reverse x l'
  end.

Definition sort_reverse (l : list name) : list name :=
  fold_right insert_reverse [] l.

(** [os.path.join(a, b)] (posixpath). *)
Definition os_path_join (a b : string) : string :=
  if startswith b "/" then b
  else if String.eqb a "" || endswith a "/" then a ++ b
  else a ++ "/" ++ b.

(** [get_last_logfile], given the working directory the relative path
    [logs] is resolved in and the value of [datetime.now()].  The sorted
    list is not empty where its first element is taken. *)
Definition get_last_logfile (cwd : path) (now : datetime) : M string :=
  let log_dir := "logs" in
  e <- os_path_exists (join cwd log_dir) ;;
  if negb e then
    os_makedirs (join cwd log_dir) ;;
    ret (generate_logfile_name now)
  else
    names <- os_listdir (join cwd log_dir) ;;
    let log_files := filter is_log_file names in
    match log_files with
    | [] => ret (generate_logfile_name now)
    | _ :: _ =>
        let log_files := sort_reverse log_files in
        ret (os_path_join log_dir (hd "" log_files))
    end.

(** A [logs] directory with three log files and two other entries. *)
Definition logs_entries : entries_t :=
  [("sync_log-241231_235959.log", file "");
   ("notes.txt", file "");
   ("sync_log-250101_000000.log", file "");
   ("sync_log-250101_000000.log.bak", file "");
   ("sync_log-240615_120000.log", file "")].

Definition logs_fs : node := Dir true [("logs", Dir true logs_entries)].

(* ===================================================================== *)
(** ** The main program *)
(* ===================================================================== *)

(** One line of the log.  [Action e] is a line written inside
    [sync_folders]; the others are the lines of the main program. *)
Inductive line : Type :=
| SourceMissing (source : path)
| PeriodicStart (source replica : path)
| IntervalLine (seconds : Z)
| CycleStart
| CycleEnd
| Terminated
| Action (e : event).

(** How the program ends: [exit(1)] or the end of the script (status 0),
    an exception that leaves [sync_folders] and is not caught, or the
    [ValueError] of [time.sleep] on a negative number. *)
Inductive ending : Type :=
| Exit (status : Z)
| Uncaught (e : exn)
| UncaughtValueError.

(** The file system with the actions logged so far, and all the lines
    logged so far. *)
Record process : Type := Process { disk : world; lines : list line }.

Definition say (l : line) (p : process) : process :=
  Process (disk p) (lines p ++ [l]).

(** The lines a call of [sync_folders] has written: what the log of
    actions has gained. *)
Definition new_actions (w w' : world) : list line :=
  map Action (skipn (List.length (log w)) (log w')).

(** One turn of the loop, up to the sleep (lines 157-159). *)
Definition cycle (fuel : nat) (source replica : path) (p : process)
    : outcome unit * process :=
  let p := say CycleStart p in
  let (o, w') := sync_folders fuel source replica (disk p) in
  let p := Process w' (lines p ++ new_actions (disk p) w') in
  match o with
  | Return _ => (Return tt, say CycleEnd p)
  | Raise e => (Raise e, p)
  end.

(** The loop (lines 155-162).  [KeyboardInterrupt] is taken to arrive
    while the program sleeps, after [sleeps] sleeps have been completed;
    [time.sleep] raises [ValueError] on a negative number. *)
Fixpoint loop (fuel : nat) (source replica : path) (seconds : Z)
    (sleeps : nat) (p : process) : ending * process :=
  match cycle fuel source replica p with
  | (Raise e, p') => (Uncaught e, p')
  | (Return _, p') =>
      if Z.ltb seconds 0 then (UncaughtValueError, p')
      else
        match sleeps with
        | O => (Exit 0, say Terminated p')
        | S n => loop fuel source replica seconds n p'
        end
  end.

(** The main program from the test of the source folder on (lines
    148-162). *)
Definition main (fuel : nat) (source_folder replica_folder : path)
    (seconds : Z) (sleeps : nat) (p : process) : ending * process :=
  if negb (match lookup (fs (disk p)) source_folder with
           | Some _ => true
           | None => false
           end)
  then (Exit 1, say (SourceMissing source_folder) p)
  else
    let p := say (PeriodicStart source_folder replica_folder) p in
    let p := say (IntervalLine seconds) p in
    loop fuel source_folder replica_folder seconds sleeps p.


(* ===================================================================== *)
(** * Properties *)
(* ===================================================================== *)

(** ** MD5 on test vectors *)

Example md5_empty : MD5.hexdigest (b "") = "d41d8cd98f00b204e9800998ecf8427e".
Proof. vm_compute. reflexivity. Qed.

Example md5_a : MD5.hexdigest (b "a") = "0cc175b9c0f1b6a831c399e269772661".
Proof. vm_compute. reflexivity. Qed.

Example md5_abc : MD5.hexdigest (b "abc") = "900150983cd24fb0d6963f7d28e17f72".
Proof. vm_compute. reflexivity. Qed.

Example md5_hello : MD5.hexdigest (b "hello") = "5d41402abc4b2a76b9719d911017c592".
Proof. vm_compute. reflexivity. Qed.

Example md5_two_blocks :
  MD5.hexdigest (repeat "y"%byte 120) = "723628a6315542e744e4bc6e2f9c84d2".
Proof. vm_compute. reflexivity. Qed.

(** ** Directory entries *)

Lemma entry_set_entry x v es y :
  entry (set_entry x v es) y = if String.eqb y x then Some v else entry es y.
Proof.
  induction es as [|[z n] es IH]; simpl.
  - destruct (String.eqb_spec y x); reflexivity.
  - destruct (String.eqb_spec x z) as [->|Hxz]; simpl.
    + destruct (String.eqb_spec y z); reflexivity.
    + destruct (String.eqb_spec y z) as [->|Hyz].
      * destruct (String.eqb_spec z x); congruence.
      * exact IH.
Qed.

Lemma entry_del_entry x es y :
  entry (del_entry x es) y = if String.eqb y x then None else entry es y.
Proof.
  induction es as [|[z n] es IH]; simpl.
  - destruct (String.eqb y x); reflexivity.
  - destruct (String.eqb_spec x z) as [->|Hxz]; simpl.
    + rewrite IH. destruct (String.eqb_spec y z); reflexivity.
    + destruct (String.eqb_spec y z) as [->|Hyz].
      * destruct (String.eqb_spec z x); congruence.
      * exact IH.
Qed.

Lemma entry_set_entry_eq x v es : entry (set_entry x v es) x = Some v.
Proof. rewrite entry_set_entry, String.eqb_refl. reflexivity. Qed.

Lemma entry_set_entry_ne x v es y :
  y <> x -> entry (set_entry x v es) y = entry es y.
Proof.
  intros H. rewrite entry_set_entry.
  destruct (String.eqb_spec y x); congruence.
Qed.

Lemma entry_del_entry_eq x es : entry (del_entry x es) x = None.
Proof. rewrite entry_del_entry, String.eqb_refl. reflexivity. Qed.

Lemma entry_del_entry_ne x es y :
  y <> x -> entry (del_entry x es) y = entry es y.
Proof.
  intros H. rewrite entry_del_entry.
  destruct (String.eqb_spec y x); congruence.
Qed.

Lemma set_entry_set_entry x v v' es :
  set_entry x v' (set_entry x v es) = set_entry x v' es.
Proof.
  induction es as [|[z n] es IH]; simpl.
  - rewrite String.eqb_refl. reflexivity.
  - destruct (String.eqb_spec x z) as [->|Hxz]; simpl.
    + rewrite String.eqb_refl. reflexivity.
    + destruct (String.eqb_spec x z); [congruence|]. rewrite IH. reflexivity.
Qed.

Lemma entry_In_names es x : entry es x <> None <-> In x (map fst es).
Proof.
  induction es as [|[z n] es IH]; simpl.
  - split; [congruence | tauto].
  - destruct (String.eqb_spec x z) as [->|Hxz].
    + split; [auto | congruence].
    + rewrite IH. split; [auto | intros [H|H]; congruence].
Qed.

Lemma entry_None_names es x : entry es x = None <-> ~ In x (map fst es).
Proof.
  rewrite <- entry_In_names. destruct (entry es x); split; intros H.
  - discriminate.
  - exfalso. apply H. discriminate.
  - intros H'. apply H'. reflexivity.
  - reflexivity.
Qed.

(** ** Paths *)

Lemma dirname_join p x : dirname (join p x) = p.
Proof. apply removelast_last. Qed.

Lemma basename_join p x : basename (join p x) = x.
Proof. apply last_last. Qed.

Lemma join_dirname_basename p :
  p <> [] -> join (dirname p) (basename p) = p.
Proof. intros H. symmetry. apply app_removelast_last. exact H. Qed.

Lemma prefixb_app p r : prefixb p (p ++ r) = true.
Proof.
  induction p as [|x p IH]; simpl; [reflexivity|].
  rewrite String.eqb_refl. exact IH.
Qed.

Lemma prefixb_refl p : prefixb p p = true.
Proof. rewrite <- (app_nil_r p) at 2. apply prefixb_app. Qed.

Lemma prefixb_true p q : prefixb p q = true -> exists r, q = p ++ r.
Proof.
  revert q. induction p as [|x p IH]; intros q H; simpl in *.
  - exists q. reflexivity.
  - destruct q as [|y q]; [discriminate|].
    apply andb_true_iff in H as [Hxy H].
    apply String.eqb_eq in Hxy. subst y.
    destruct (IH _ H) as [r ->]. exists r. reflexivity.
Qed.

Lemma disjoint_sym p q : disjoint p q -> disjoint q p.
Proof. intros [H1 H2]. split; assumption. Qed.

Lemma disjoint_app_l p q r : disjoint p q -> disjoint (p ++ r) q.
Proof.
  unfold disjoint. revert q.
  induction p as [|x p IH]; intros q [H1 H2]; simpl in *.
  - discriminate.
  - destruct q as [|y q]; simpl in *; [discriminate|].
    rewrite (String.eqb_sym y x) in *.
    destruct (String.eqb x y); simpl in *; auto.
Qed.

Lemma disjoint_app_r p q r : disjoint p q -> disjoint p (q ++ r).
Proof. intros H. apply disjoint_sym, disjoint_app_l, disjoint_sym, H. Qed.

Lemma disjoint_join p q x : disjoint p q -> disjoint (join p x) q.
Proof. apply disjoint_app_l. Qed.

Lemma disjoint_not_eq p q : disjoint p q -> p <> q.
Proof. intros [H _] ->. rewrite prefixb_refl in H. discriminate. Qed.

Lemma disjoint_siblings p x y : x <> y -> disjoint (join p x) (join p y).
Proof.
  intros Hxy. unfold disjoint, join.
  induction p as [|z p IH]; simpl.
  - destruct (String.eqb_spec x y), (String.eqb_spec y x); try congruence; auto.
  - rewrite String.eqb_refl. exact IH.
Qed.

Lemma lookup_app t p q :
  lookup t (p ++ q) =
  match lookup t p with Some n => lookup n q | None => None end.
Proof.
  revert t. induction p as [|x p IH]; intros t; simpl; [reflexivity|].
  destruct t as [|r es]; [reflexivity|].
  destruct (entry es x); [apply IH | reflexivity].
Qed.

Lemma lookup_join t p x :
  lookup t (join p x) =
  match lookup t p with
  | Some (Dir _ es) => entry es x
  | _ => None
  end.
Proof.
  unfold join. rewrite lookup_app. destruct (lookup t p) as [[|r es]|]; simpl; auto.
  destruct (entry es x); reflexivity.
Qed.

(** Rewriting the node at [p] is invisible from every path that is
    neither below nor above [p]. *)
Lemma lookup_modify_disjoint f t p q :
  disjoint p q -> lookup (modify f t p) q = lookup t q.
Proof.
  unfold disjoint. revert t q.
  induction p as [|x p IH]; intros t q [H1 H2]; simpl in *; [discriminate|].
  destruct q as [|y q]; simpl in *; [discriminate|].
  destruct t as [|r es]; [reflexivity|].
  destruct (entry es x) as [c|] eqn:Ec; [|reflexivity].
  simpl. rewrite entry_set_entry.
  destruct (String.eqb_spec y x) as [->|Hyx].
  - rewrite Ec. rewrite ?String.eqb_refl in *. simpl in *. apply IH. auto.
  - reflexivity.
Qed.

Lemma lookup_modify_same f t p :
  lookup (modify f t p) p =
  match lookup t p with Some n => Some (f n) | None => None end.
Proof.
  revert t. induction p as [|x p IH]; intros t; simpl; [reflexivity|].
  destruct t as [|r es]; [reflexivity|].
  destruct (entry es x) as [c|] eqn:Ec; simpl.
  - rewrite entry_set_entry_eq. apply IH.
  - rewrite Ec. reflexivity.
Qed.

(** Changing the entry [x] of the directory at [parent], by an operation
    that leaves the other entries of a directory alone, is invisible from
    every path disjoint from [parent/x]. *)
Lemma lookup_modify_entries g t parent x q :
  (forall es y, y <> x -> entry (g es) y = entry es y) ->
  disjoint (join parent x) q ->
  lookup (modify (on_entries g) t parent) q = lookup t q.
Proof.
  intros Hg. unfold disjoint, join. revert t q.
  induction parent as [|a p IH]; intros t q [H1 H2]; simpl in *.
  - destruct q as [|y q]; simpl in *; [discriminate|].
    destruct t as [|r es]; simpl; [reflexivity|].
    rewrite Hg; [reflexivity|].
    intros ->. rewrite String.eqb_refl in H1. discriminate.
  - destruct q as [|y q]; simpl in *; [discriminate|].
    destruct t as [|r es]; [reflexivity|].
    destruct (entry es a) as [c|] eqn:Ec; [|reflexivity].
    simpl. rewrite entry_set_entry.
    destruct (String.eqb_spec y a) as [->|Hya].
    + rewrite Ec. rewrite ?String.eqb_refl in *. simpl in *. apply IH. auto.
    + reflexivity.
Qed.

Lemma lookup_put_frame t parent x v q :
  disjoint (join parent x) q -> lookup (put t parent x v) q = lookup t q.
Proof.
  apply lookup_modify_entries. intros es y Hy. apply entry_set_entry_ne, Hy.
Qed.

Lemma lookup_unlink_frame t parent x q :
  disjoint (join parent x) q -> lookup (unlink t parent x) q = lookup t q.
Proof.
  apply lookup_modify_entries. intros es y Hy. apply entry_del_entry_ne, Hy.
Qed.

Lemma lookup_mkdirs_frame t t' p q :
  disjoint p q -> mkdirs t p = Some t' -> lookup t' q = lookup t q.
Proof.
  unfold disjoint. revert t t' q.
  induction p as [|x p IH]; intros t t' q [H1 H2] Hm; simpl in *; [discriminate|].
  destruct q as [|y q]; simpl in *; [discriminate|].
  destruct t as [|r es]; [discriminate|].
  destruct (entry es x) as [c|] eqn:Ec.
  - destruct (mkdirs c p) as [c'|] eqn:Em; [|discriminate].
    injection Hm as <-. simpl. rewrite entry_set_entry.
    destruct (String.eqb_spec y x) as [->|Hyx]; [|reflexivity].
    rewrite Ec. rewrite ?String.eqb_refl in *. simpl in *.
    apply IH with (1 := conj H1 H2) (2 := Em).
  - injection Hm as <-. simpl. rewrite entry_set_entry.
    destruct (String.eqb_spec y x) as [->|Hyx]; [|reflexivity].
    rewrite Ec. rewrite ?String.eqb_refl in *. simpl in *.
    clear - H1 H2. revert q H1 H2.
    induction p as [|z p IH]; intros q H1 H2; simpl in *; [discriminate|].
    destruct q as [|y q]; simpl in *; [discriminate|].
    destruct (String.eqb_spec y z) as [->|Hyz]; [|reflexivity].
    rewrite String.eqb_refl in H1. simpl in *. apply IH; assumption.
Qed.

(** ** Rules of the program logic *)

Lemma wp_ret A (a : A) (Q : A -> world -> Prop) E w :
  Q a w -> wp (ret a) Q E w.
Proof. intros H. exact H. Qed.

Lemma wp_raise A e (Q : A -> world -> Prop) (E : exn -> world -> Prop) w :
  E e w -> wp (raise e) Q E w.
Proof. intros H. exact H. Qed.

Lemma wp_bind A B (c : M A) (k : A -> M B) Q E w :
  wp c (fun a w' => wp (k a) Q E w') E w -> wp (bind c k) Q E w.
Proof.
  unfold wp, bind. destruct (c w) as [[a|e] w']; intros H; exact H.
Qed.

Lemma wp_mono A (c : M A) (Q Q' : A -> world -> Prop)
    (E E' : exn -> world -> Prop) w :
  wp c Q E w ->
  (forall a w', Q a w' -> Q' a w') ->
  (forall e w', E e w' -> E' e w') ->
  wp c Q' E' w.
Proof.
  unfold wp. destruct (c w) as [[a|e] w']; intros H HQ HE; auto.
Qed.

(** A loop with an invariant on the elements still to be visited. *)
Lemma wp_for_each A (I : list A -> world -> Prop) E (body : A -> M unit) l w :
  I l w ->
  (forall x rest w, I (x :: rest) w -> wp (body x) (fun _ => I rest) E w) ->
  wp (for_each l body) (fun _ => I []) E w.
Proof.
  intros HI Hbody. revert w HI.
  induction l as [|x l IH]; intros w HI; simpl.
  - apply wp_ret, HI.
  - apply wp_bind. eapply wp_mono; [apply Hbody, HI | | auto].
    intros ? w' HI'. apply IH, HI'.
Qed.

Lemma keeps_ret A P (a : A) : keeps P (ret a).
Proof. intros w H. exact H. Qed.

Lemma keeps_raise A P e : keeps P (@raise A e).
Proof. intros w H. exact H. Qed.

Lemma keeps_bind A B P (c : M A) (k : A -> M B) :
  keeps P c -> (forall a, keeps P (k a)) -> keeps P (bind c k).
Proof.
  intros Hc Hk w H. apply wp_bind.
  eapply wp_mono; [apply Hc, H | | auto].
  intros a w' H'. apply Hk, H'.
Qed.

Lemma keeps_for_each A P (body : A -> M unit) l :
  (forall x, In x l -> keeps P (body x)) -> keeps P (for_each l body).
Proof.
  induction l as [|x l IH]; intros Hb; simpl.
  - apply keeps_ret.
  - apply keeps_bind; [apply Hb; left; reflexivity|].
    intros _. apply IH. intros y Hy. apply Hb. right. exact Hy.
Qed.

Lemma keeps_if A P (c : bool) (c1 c2 : M A) :
  keeps P c1 -> keeps P c2 -> keeps P (if c then c1 else c2).
Proof. destruct c; auto. Qed.

(** Calls that only read. *)
Lemma keeps_get_fs P : keeps P get_fs.
Proof. intros w H. exact H. Qed.

Lemma keeps_log F ev : keeps (on_fs F) (log_and_print ev).
Proof. intros w H. exact H. Qed.

Lemma keeps_os_path_exists P p : keeps P (os_path_exists p).
Proof. intros w H. exact H. Qed.

Lemma keeps_os_path_isdir P p : keeps P (os_path_isdir p).
Proof. intros w H. exact H. Qed.

Lemma keeps_os_listdir P p : keeps P (os_listdir p).
Proof.
  intros w H. unfold wp, os_listdir, bind, get_fs.
  destruct (lookup (fs w) p) as [[|[] es]|]; exact H.
Qed.

Lemma keeps_open_rb P p : keeps P (open_rb p).
Proof.
  intros w H. unfold wp, open_rb, bind, get_fs.
  destruct (lookup (fs w) p) as [[[] d|]|]; exact H.
Qed.

Lemma keeps_calculate_md5 P p : keeps P (calculate_md5 p).
Proof.
  unfold calculate_md5, calculate_md5_chunked.
  apply keeps_bind; [apply keeps_open_rb | intros; apply keeps_ret].
Qed.

Lemma keeps_files_are_different P p q : keeps P (files_are_different p q).
Proof.
  unfold files_are_different.
  apply keeps_bind; [apply keeps_calculate_md5 | intros h1].
  apply keeps_bind; [apply keeps_calculate_md5 | intros h2].
  apply keeps_ret.
Qed.

Lemma keeps_dircmp_phase1 P l r : keeps P (dircmp_phase1 l r).
Proof.
  unfold dircmp_phase1.
  apply keeps_bind; [apply keeps_os_listdir | intros ll].
  apply keeps_bind; [apply keeps_os_listdir | intros rl].
  apply keeps_ret.
Qed.

Lemma keeps_dircmp_phase2 P l r c : keeps P (dircmp_phase2 l r c).
Proof. intros w H. exact H. Qed.

(** ** Frame: what a write leaves alone

    [at_path q v] says that the path [q] resolves to [v] (or to nothing).
    Every call that writes at a path [p] keeps it when [q] and [p] are
    disjoint. *)

Lemma keeps_set_fs q v t :
  lookup t q = v -> forall w, wp (set_fs t) (fun _ => at_path q v)
                                 (fun _ => at_path q v) w.
Proof. intros H w. exact H. Qed.

Lemma keeps_os_makedirs p q v :
  disjoint p q -> keeps (at_path q v) (os_makedirs p).
Proof.
  intros Hd w H. unfold wp, os_makedirs, bind, get_fs.
  destruct (lookup (fs w) p); [exact H|].
  destruct (mkdirs (fs w) p) as [t'|] eqn:Em; [|exact H].
  unfold at_path, on_fs. simpl.
  rewrite (lookup_mkdirs_frame _ _ _ _ Hd Em). exact H.
Qed.

Lemma put_at_frame t p n q :
  disjoint p q -> lookup (put t (dirname p) (basename p) n) q = lookup t q.
Proof.
  intros Hd. destruct p as [|x p].
  - destruct Hd as [Hd _]. discriminate.
  - apply lookup_put_frame. rewrite join_dirname_basename; [exact Hd|discriminate].
Qed.

Lemma unlink_at_frame t p q :
  disjoint p q -> lookup (unlink t (dirname p) (basename p)) q = lookup t q.
Proof.
  intros Hd. destruct p as [|x p].
  - destruct Hd as [Hd _]. discriminate.
  - apply lookup_unlink_frame. rewrite join_dirname_basename; [exact Hd|discriminate].
Qed.

Lemma keeps_os_remove p q v :
  disjoint p q -> keeps (at_path q v) (os_remove p).
Proof.
  intros Hd w H. unfold wp, os_remove, bind, get_fs.
  destruct (lookup (fs w) p) as [[|]|]; try exact H.
  unfold at_path, on_fs. simpl. rewrite unlink_at_frame by exact Hd. exact H.
Qed.

Lemma keeps_write_file p data q v :
  disjoint p q -> keeps (at_path q v) (write_file p data).
Proof.
  intros Hd w H. unfold wp, write_file, bind, get_fs.
  assert (Hp : forall n, at_path q v
            (World (put (fs w) (dirname p) (basename p) n) (log w))).
  { intros n. unfold at_path, on_fs. cbn [fs].
    rewrite put_at_frame by exact Hd. exact H. }
  destruct (lookup (fs w) (dirname p)) as [[|]|]; try exact H.
  destruct (lookup (fs w) p) as [[|]|]; try exact H; apply Hp.
Qed.

Lemma keeps_shutil_copy2 src dst q v :
  disjoint dst q -> keeps (at_path q v) (shutil_copy2 src dst).
Proof.
  intros Hd. unfold shutil_copy2.
  apply keeps_bind; [apply keeps_os_path_isdir | intros d].
  apply keeps_bind; [apply keeps_os_path_exists | intros e].
  apply keeps_if; [apply keeps_raise|].
  apply keeps_bind; [apply keeps_open_rb | intros data].
  apply keeps_write_file. destruct d; [apply disjoint_join|]; exact Hd.
Qed.

Lemma keeps_shutil_copytree src dst q v :
  disjoint dst q -> keeps (at_path q v) (shutil_copytree src dst).
Proof.
  intros Hd w H. unfold shutil_copytree. apply wp_bind. unfold wp at 1, get_fs.
  destruct (lookup (fs w) src) as [[|[] es]|]; try exact H.
  apply wp_bind.
  eapply wp_mono; [apply keeps_os_makedirs; eassumption | | auto].
  intros ? w1 H1. apply wp_bind. unfold wp at 1, get_fs.
  destruct (copy_entries es) as [es' ok].
  apply wp_bind. unfold wp at 1, set_fs.
  assert (H2 : at_path q v
            (World (put (fs w1) (dirname dst) (basename dst) (Dir true es'))
                   (log w1))).
  { unfold at_path, on_fs. simpl. rewrite put_at_frame by exact Hd. exact H1. }
  destruct ok; exact H2.
Qed.

Lemma keeps_shutil_rmtree p q v :
  disjoint p q -> keeps (at_path q v) (shutil_rmtree p).
Proof.
  intros Hd w H. unfold shutil_rmtree. apply wp_bind. unfold wp at 1, get_fs.
  assert (Hp : forall n, at_path q v
            (World (put (fs w) (dirname p) (basename p) n) (log w))).
  { intros n. unfold at_path, on_fs. cbn [fs].
    rewrite put_at_frame by exact Hd. exact H. }
  assert (Hu : at_path q v
            (World (unlink (fs w) (dirname p) (basename p)) (log w))).
  { unfold at_path, on_fs. cbn [fs].
    rewrite unlink_at_frame by exact Hd. exact H. }
  destruct (lookup (fs w) p) as [[|r es]|]; destruct p as [|x p];
    try exact H.
  destruct (rmtree_node (x :: p) (Dir r es)) as [[n'|] [e|]].
  - apply wp_bind. apply Hp.
  - apply Hp.
  - apply Hu.
  - apply Hu.
Qed.

(** The three loop bodies write at [replica/file] only. *)
Lemma keeps_copy_entry source replica file q v :
  disjoint (join replica file) q ->
  keeps (at_path q v) (copy_entry source replica file).
Proof.
  intros Hd. unfold copy_entry.
  apply keeps_bind; [apply keeps_os_path_isdir | intros d].
  apply keeps_if.
  - apply keeps_bind; [apply keeps_shutil_copytree, Hd | intros _].
    apply keeps_log.
  - apply keeps_bind; [apply keeps_shutil_copy2, Hd | intros _].
    apply keeps_log.
Qed.

Lemma keeps_remove_entry replica file q v :
  disjoint (join replica file) q ->
  keeps (at_path q v) (remove_entry replica file).
Proof.
  intros Hd. unfold remove_entry.
  apply keeps_bind; [apply keeps_os_path_isdir | intros d].
  apply keeps_if.
  - apply keeps_bind; [apply keeps_shutil_rmtree, Hd | intros _].
    apply keeps_log.
  - apply keeps_bind; [apply keeps_os_remove, Hd | intros _].
    apply keeps_log.
Qed.

Lemma keeps_update_entry source replica file q v :
  disjoint (join replica file) q ->
  keeps (at_path q v) (update_entry source replica file).
Proof.
  intros Hd. unfold update_entry.
  apply keeps_bind; [apply keeps_files_are_different | intros d].
  apply keeps_if; [|apply keeps_ret].
  apply keeps_bind; [apply keeps_shutil_copy2, Hd | intros _].
  apply keeps_log.
Qed.

Lemma keeps_ensure_replica replica q v :
  disjoint replica q -> keeps (at_path q v) (ensure_replica replica).
Proof.
  intros Hd. unfold ensure_replica.
  apply keeps_bind; [apply keeps_os_path_exists | intros e].
  apply keeps_if; [|apply keeps_ret].
  apply keeps_bind; [apply keeps_os_makedirs, Hd | intros _].
  apply keeps_log.
Qed.

(** A whole call of [sync_folders] writes below [replica] only: every
    path disjoint from [replica] resolves afterwards as it did before,
    whether the call returns or raises. *)
Lemma keeps_sync_folders fuel : forall source replica q v,
  disjoint replica q ->
  keeps (at_path q v) (sync_folders fuel source replica).
Proof.
  induction fuel as [|fuel IH]; intros source replica q v Hd; simpl.
  - apply keeps_raise.
  - apply keeps_bind; [apply keeps_ensure_replica, Hd | intros _].
    unfold sync_pass.
    apply keeps_bind; [apply keeps_dircmp_phase1 | intros c1].
    apply keeps_bind.
    { apply keeps_for_each. intros x _.
      apply keeps_copy_entry, disjoint_join, Hd. }
    intros _. apply keeps_bind.
    { apply keeps_for_each. intros x _.
      apply keeps_remove_entry, disjoint_join, Hd. }
    intros _.
    apply keeps_bind; [apply keeps_dircmp_phase2 | intros c2].
    apply keeps_bind.
    { apply keeps_for_each. intros x _.
      apply keeps_update_entry, disjoint_join, Hd. }
    intros _. apply keeps_for_each. intros x _.
    apply IH, disjoint_join, Hd.
Qed.


(** ** Hashing in chunks *)

Lemma firstn_nil_inv A (l : list A) n :
  0 < n -> firstn n l = [] -> l = [].
Proof.
  intros Hn H. destruct n; [lia|]. destruct l; [reflexivity | discriminate].
Qed.

Lemma read_loop_fed size : 0 < size -> forall fuel h rest,
  List.length rest < fuel ->
  fed (read_loop fuel size h rest) = fed h ++ rest.
Proof.
  intros Hs. induction fuel as [|fuel IH]; intros h rest Hlen; [lia|].
  simpl. destruct (firstn size rest) as [|c chunk] eqn:Ef.
  - apply firstn_nil_inv in Ef; [|exact Hs]. subst rest.
    rewrite app_nil_r. reflexivity.
  - rewrite IH.
    + simpl. rewrite <- Ef, <- app_assoc, firstn_skipn. reflexivity.
    + rewrite length_skipn. destruct rest; [destruct size; discriminate|].
      cbn [List.length] in *. lia.
Qed.

Lemma calculate_md5_chunked_whole size file_path w :
  0 < size ->
  calculate_md5_chunked size file_path w = md5_in_one_piece file_path w.
Proof.
  intros Hs. unfold calculate_md5_chunked, md5_in_one_piece, bind.
  destruct (open_rb file_path w) as [[data|e] w']; [|reflexivity].
  unfold ret, hexdigest. rewrite read_loop_fed; [reflexivity | exact Hs | lia].
Qed.

Lemma calculate_md5_whole file_path w :
  calculate_md5 file_path w = md5_in_one_piece file_path w.
Proof. apply calculate_md5_chunked_whole. lia. Qed.

(** C10.  [calculate_md5], which feeds the hash object in chunks of 4096
    bytes, computes the digest of the file's whole byte stream fed in one
    piece, and so does the same loop with any other positive chunk size:
    the digest, and with it the result of [files_are_different], does not
    depend on the chunk size. *)
Theorem calculate_md5_chunk_independent size file_path w :
  0 < size ->
  calculate_md5 file_path w = md5_in_one_piece file_path w /\
  calculate_md5_chunked size file_path w = calculate_md5 file_path w /\
  forall src_path dest_path,
    files_are_different_chunked size src_path dest_path w =
    files_are_different src_path dest_path w.
Proof.
  intros Hs. split; [apply calculate_md5_whole|]. split.
  - rewrite calculate_md5_whole. apply calculate_md5_chunked_whole, Hs.
  - intros src_path dest_path.
    unfold files_are_different_chunked, files_are_different, bind.
    rewrite calculate_md5_whole, (calculate_md5_chunked_whole _ _ _ Hs).
    destruct (md5_in_one_piece src_path w) as [[d|e] w']; [|reflexivity].
    rewrite calculate_md5_whole, (calculate_md5_chunked_whole _ _ _ Hs).
    reflexivity.
Qed.

Lemma calculate_md5_readable file_path w r d :
  lookup (fs w) file_path = Some (File r d) ->
  calculate_md5 file_path w =
  if r then (Return (MD5.hexdigest d), w)
  else (Raise (PermissionError file_path), w).
Proof.
  intros H.
  rewrite calculate_md5_whole.
  unfold md5_in_one_piece, open_rb, bind, get_fs. rewrite H.
  destruct r; reflexivity.
Qed.

Lemma files_are_different_readable src_path dest_path w d1 d2 :
  lookup (fs w) src_path = Some (File true d1) ->
  lookup (fs w) dest_path = Some (File true d2) ->
  files_are_different src_path dest_path w =
  (Return (negb (String.eqb (MD5.hexdigest d1) (MD5.hexdigest d2))), w).
Proof.
  intros H1 H2. unfold files_are_different, bind.
  rewrite (calculate_md5_readable _ _ _ _ H1), (calculate_md5_readable _ _ _ _ H2).
  reflexivity.
Qed.

(** ** The log *)

Lemma silent_ret A (a : A) : silent (ret a).
Proof. intros w. reflexivity. Qed.

Lemma silent_raise A e : silent (@raise A e).
Proof. intros w. reflexivity. Qed.

Lemma silent_get_fs : silent get_fs.
Proof. intros w. reflexivity. Qed.

Lemma silent_set_fs t : silent (set_fs t).
Proof. intros w. reflexivity. Qed.

Lemma silent_bind A B (c : M A) (k : A -> M B) :
  silent c -> (forall a, silent (k a)) -> silent (bind c k).
Proof.
  intros Hc Hk w. unfold bind. specialize (Hc w).
  destruct (c w) as [[a|e] w']; simpl in *.
  - rewrite Hk. exact Hc.
  - exact Hc.
Qed.

Lemma silent_if A (c : bool) (c1 c2 : M A) :
  silent c1 -> silent c2 -> silent (if c then c1 else c2).
Proof. destruct c; auto. Qed.

Ltac silent_tac :=
  repeat first
    [ apply silent_ret | apply silent_raise | apply silent_get_fs
    | apply silent_set_fs | apply silent_if
    | apply silent_bind; [|intros ?]
    | match goal with
      | |- silent (match ?x with _ => _ end) => destruct x
      | |- silent (let '(_, _) := ?x in _) => destruct x
      end ].

Lemma silent_os_path_exists p : silent (os_path_exists p).
Proof. unfold os_path_exists. silent_tac. Qed.

Lemma silent_os_path_isdir p : silent (os_path_isdir p).
Proof. unfold os_path_isdir. silent_tac. Qed.

Lemma silent_os_listdir p : silent (os_listdir p).
Proof. unfold os_listdir. silent_tac. Qed.

Lemma silent_os_makedirs p : silent (os_makedirs p).
Proof. unfold os_makedirs. silent_tac. Qed.

Lemma silent_os_remove p : silent (os_remove p).
Proof. unfold os_remove. silent_tac. Qed.

Lemma silent_open_rb p : silent (open_rb p).
Proof. unfold open_rb. silent_tac. Qed.

Lemma silent_write_file p d : silent (write_file p d).
Proof. unfold write_file. silent_tac. Qed.

Lemma silent_shutil_copy2 src dst : silent (shutil_copy2 src dst).
Proof.
  unfold shutil_copy2.
  apply silent_bind; [apply silent_os_path_isdir | intros d].
  apply silent_bind; [apply silent_os_path_exists | intros e].
  apply silent_if; [apply silent_raise|].
  apply silent_bind; [apply silent_open_rb | intros data].
  apply silent_write_file.
Qed.

Lemma silent_shutil_copytree src dst : silent (shutil_copytree src dst).
Proof.
  unfold shutil_copytree.
  apply silent_bind; [apply silent_get_fs | intros t].
  destruct (lookup t src) as [[|[] es]|]; try apply silent_raise.
  apply silent_bind; [apply silent_os_makedirs | intros _].
  silent_tac.
Qed.

Lemma silent_shutil_rmtree p : silent (shutil_rmtree p).
Proof. unfold shutil_rmtree. silent_tac. Qed.

Lemma silent_calculate_md5 p : silent (calculate_md5 p).
Proof.
  unfold calculate_md5, calculate_md5_chunked.
  apply silent_bind; [apply silent_open_rb | intros data; apply silent_ret].
Qed.

Lemma silent_files_are_different p q : silent (files_are_different p q).
Proof.
  unfold files_are_different.
  repeat (apply silent_bind; [apply silent_calculate_md5 | intros ?]).
  apply silent_ret.
Qed.

Lemma silent_dircmp_phase1 l r : silent (dircmp_phase1 l r).
Proof.
  unfold dircmp_phase1.
  repeat (apply silent_bind; [apply silent_os_listdir | intros ?]).
  apply silent_ret.
Qed.

Lemma silent_dircmp_phase2 l r c : silent (dircmp_phase2 l r c).
Proof. intros w. reflexivity. Qed.

(** Silent calls keep every property of the log. *)
Lemma keeps_silent A (c : M A) lg0 P : silent c -> keeps (logged lg0 P) c.
Proof.
  intros Hs w H. specialize (Hs w). unfold wp, logged in *.
  destruct (c w) as [[a|e] w']; simpl in Hs; rewrite Hs; exact H.
Qed.

Lemma keeps_logged_log lg0 (P : event -> Prop) ev :
  P ev -> keeps (logged lg0 P) (log_and_print ev).
Proof.
  intros Hev w (evs & Hlog & Hall). exists (evs ++ [ev]). simpl.
  rewrite Hlog, app_assoc. split; [reflexivity|].
  apply Forall_app. split; [exact Hall | constructor; [exact Hev | constructor]].
Qed.

Lemma logged_start w P : logged (log w) P w.
Proof. exists []. rewrite app_nil_r. split; [reflexivity | constructor]. Qed.

Lemma logged_weaken lg0 (P P' : event -> Prop) w :
  (forall e, P e -> P' e) -> logged lg0 P w -> logged lg0 P' w.
Proof.
  intros HP (evs & Hlog & Hall). exists evs. split; [exact Hlog|].
  eapply Forall_impl; eassumption.
Qed.

Lemma keeps_logged_copy_entry lg0 (P : event -> Prop) source replica x :
  (forall e, is_copy source replica x e -> P e) ->
  keeps (logged lg0 P) (copy_entry source replica x).
Proof.
  intros HP. unfold copy_entry.
  apply keeps_bind; [apply keeps_silent, silent_os_path_isdir | intros d].
  apply keeps_if.
  - apply keeps_bind; [apply keeps_silent, silent_shutil_copytree | intros _].
    apply keeps_logged_log, HP. left. reflexivity.
  - apply keeps_bind; [apply keeps_silent, silent_shutil_copy2 | intros _].
    apply keeps_logged_log, HP. right. reflexivity.
Qed.

Lemma keeps_logged_remove_entry lg0 (P : event -> Prop) replica x :
  (forall e, is_removal replica x e -> P e) ->
  keeps (logged lg0 P) (remove_entry replica x).
Proof.
  intros HP. unfold remove_entry.
  apply keeps_bind; [apply keeps_silent, silent_os_path_isdir | intros d].
  apply keeps_if.
  - apply keeps_bind; [apply keeps_silent, silent_shutil_rmtree | intros _].
    apply keeps_logged_log, HP. left. reflexivity.
  - apply keeps_bind; [apply keeps_silent, silent_os_remove | intros _].
    apply keeps_logged_log, HP. right. reflexivity.
Qed.

Lemma keeps_logged_update_entry lg0 (P : event -> Prop) source replica x :
  (forall e, is_update source replica x e -> P e) ->
  keeps (logged lg0 P) (update_entry source replica x).
Proof.
  intros HP. unfold update_entry.
  apply keeps_bind; [apply keeps_silent, silent_files_are_different | intros d].
  apply keeps_if; [|apply keeps_ret].
  apply keeps_bind; [apply keeps_silent, silent_shutil_copy2 | intros _].
  apply keeps_logged_log, HP. reflexivity.
Qed.

(** *** The order of the actions of one call *)

Lemma staged_nil Ps : staged Ps [].
Proof.
  induction Ps as [|P Ps IH]; simpl; [reflexivity|].
  exists [], []. repeat split; [constructor | exact IH].
Qed.

Lemma emits_keeps A (c : M A) (P : event -> Prop) w :
  keeps (logged (log w) P) c -> emits c w (Forall P).
Proof.
  intros Hk. specialize (Hk w (logged_start w P)). unfold wp in Hk.
  unfold emits. destruct (c w) as [[a|e] w']; exact Hk.
Qed.

Lemma emits_stage A B (c : M A) (k : A -> M B) w P Ps :
  emits c w (Forall P) ->
  (forall a w1, c w = (Return a, w1) -> emits (k a) w1 (staged Ps)) ->
  emits (bind c k) w (staged (P :: Ps)).
Proof.
  intros (evs1 & Hlog1 & Hall1) Hk. unfold emits, bind in *.
  destruct (c w) as [[a|e] w1] eqn:Ec; simpl in Hlog1.
  - destruct (Hk a w1 eq_refl) as (evs2 & Hlog2 & Hst).
    exists (evs1 ++ evs2). rewrite Hlog2, Hlog1, app_assoc.
    split; [reflexivity|]. exists evs1, evs2. auto.
  - exists evs1. simpl. split; [exact Hlog1|].
    exists evs1, []. rewrite app_nil_r. repeat split; [exact Hall1|].
    apply staged_nil.
Qed.

Lemma emits_silent A B (c : M A) (k : A -> M B) w Ps :
  silent c ->
  (forall a w1, c w = (Return a, w1) -> emits (k a) w1 (staged Ps)) ->
  emits (bind c k) w (staged Ps).
Proof.
  intros Hs Hk. unfold emits, bind in *. specialize (Hs w).
  destruct (c w) as [[a|e] w1] eqn:Ec; simpl in Hs.
  - destruct (Hk a w1 eq_refl) as (evs2 & Hlog2 & Hst).
    exists evs2. rewrite Hlog2, Hs. auto.
  - exists []. simpl. rewrite app_nil_r. split; [exact Hs | apply staged_nil].
Qed.

Lemma emits_last A (c : M A) w P :
  emits c w (Forall P) -> emits c w (staged [P]).
Proof.
  intros (evs & Hlog & Hall). exists evs. split; [exact Hlog|].
  exists evs, []. rewrite app_nil_r. repeat split. exact Hall.
Qed.

(** What [dircmp] computes. *)
Lemma dircmp_phase1_run left right w :
  dircmp_phase1 left right w =
  match lookup (fs w) left, lookup (fs w) right with
  | Some (Dir true ls), Some (Dir true rs) =>
      (Return (compare_lists (map fst ls) (map fst rs)), w)
  | None, _ => (Raise (FileNotFoundError left), w)
  | Some (File _ _), _ => (Raise (NotADirectoryError left), w)
  | Some (Dir false _), _ => (Raise (PermissionError left), w)
  | _, None => (Raise (FileNotFoundError right), w)
  | _, Some (File _ _) => (Raise (NotADirectoryError right), w)
  | _, Some (Dir false _) => (Raise (PermissionError right), w)
  end.
Proof.
  unfold dircmp_phase1, os_listdir, bind, get_fs. simpl.
  destruct (lookup (fs w) left) as [[|[] ls]|]; try reflexivity.
  simpl. destruct (lookup (fs w) right) as [[|[] rs]|]; reflexivity.
Qed.

Lemma NoDup_compare_lists ll rl :
  NoDup (common (compare_lists ll rl)) /\
  NoDup (left_only (compare_lists ll rl)) /\
  NoDup (right_only (compare_lists ll rl)).
Proof.
  unfold compare_lists, dict_keys. simpl.
  repeat split; apply NoDup_filter, NoDup_nodup.
Qed.

Lemma dircmp_phase1_NoDup left right w c w' :
  dircmp_phase1 left right w = (Return c, w') ->
  w' = w /\ NoDup (common c) /\ NoDup (left_only c) /\ NoDup (right_only c).
Proof.
  rewrite dircmp_phase1_run.
  destruct (lookup (fs w) left) as [[|[] ls]|];
    destruct (lookup (fs w) right) as [[|[] rs]|]; try discriminate.
  intros H. injection H as <- <-. split; [reflexivity|].
  apply NoDup_compare_lists.
Qed.

Lemma classify_dir t left right x :
  classify t left right x = CommonDir ->
  exists r1 e1 r2 e2,
    lookup t (join left x) = Some (Dir r1 e1) /\
    lookup t (join right x) = Some (Dir r2 e2).
Proof.
  unfold classify.
  destruct (lookup t (join left x)) as [[r1 d1|r1 e1]|];
    destruct (lookup t (join right x)) as [[r2 d2|r2 e2]|];
    simpl; try discriminate.
  intros _. exists r1, e1, r2, e2. auto.
Qed.

Lemma classify_file t left right x :
  classify t left right x = CommonFile ->
  exists r1 d1 r2 d2,
    lookup t (join left x) = Some (File r1 d1) /\
    lookup t (join right x) = Some (File r2 d2).
Proof.
  unfold classify.
  destruct (lookup t (join left x)) as [[r1 d1|r1 e1]|];
    destruct (lookup t (join right x)) as [[r2 d2|r2 e2]|];
    simpl; try discriminate.
  intros _. exists r1, d1, r2, d2. auto.
Qed.

Lemma in_common_dirs t left right l x :
  In x (filter (fun x => is_common_dir (classify t left right x)) l) <->
  In x l /\ classify t left right x = CommonDir.
Proof.
  rewrite filter_In. destruct (classify t left right x); simpl;
    split; intros [H1 H2]; split; auto; discriminate.
Qed.

Lemma in_common_files t left right l x :
  In x (filter (fun x => is_common_file (classify t left right x)) l) <->
  In x l /\ classify t left right x = CommonFile.
Proof.
  rewrite filter_In. destruct (classify t left right x); simpl;
    split; intros [H1 H2]; split; auto; discriminate.
Qed.

(** The functional reading of the frame lemma. *)
Lemma sync_folders_frame fuel source replica q w :
  disjoint replica q ->
  lookup (fs (snd (sync_folders fuel source replica w))) q = lookup (fs w) q.
Proof.
  intros Hq.
  assert (H := keeps_sync_folders fuel source replica q (lookup (fs w) q) Hq w
                 eq_refl).
  unfold wp in H.
  destruct (sync_folders fuel source replica w) as [[[]|e] w1]; exact H.
Qed.

Lemma for_each_frame A (body : A -> M unit) l q w :
  (forall x v, In x l -> keeps (at_path q v) (body x)) ->
  lookup (fs (snd (for_each l body w))) q = lookup (fs w) q.
Proof.
  intros Hb.
  assert (H : keeps (at_path q (lookup (fs w) q)) (for_each l body)).
  { apply keeps_for_each. intros x Hx. apply Hb, Hx. }
  specialize (H w eq_refl). unfold wp in H.
  destruct (for_each l body w) as [[[]|e] w1]; exact H.
Qed.

Lemma at_or_below_join r x e : at_or_below (join r x) e -> below r e.
Proof.
  intros (y & rest & H). exists x, y, rest. rewrite H. unfold join.
  rewrite <- app_assoc. reflexivity.
Qed.

Lemma below_at_or_below r e : below r e -> at_or_below r e.
Proof. intros (x & y & rest & H). exists x, (y :: rest). exact H. Qed.

Lemma copies_at_or_below source replica e :
  copies source replica e -> at_or_below replica e.
Proof. intros (x & [-> | ->]); exists x, []; reflexivity. Qed.

Lemma removals_at_or_below replica e :
  removals replica e -> at_or_below replica e.
Proof. intros (x & [-> | ->]); exists x, []; reflexivity. Qed.

Lemma updates_at_or_below source replica e :
  updates source replica e -> at_or_below replica e.
Proof. intros (x & ->); exists x, []; reflexivity. Qed.

Lemma staged_Forall (Q : event -> Prop) Ps evs :
  Forall (fun P : event -> Prop => forall e, P e -> Q e) Ps ->
  staged Ps evs -> Forall Q evs.
Proof.
  intros HPs. revert evs. induction HPs as [|P Ps HP _ IH]; intros evs; simpl.
  - intros ->. constructor.
  - intros (l1 & l2 & -> & H1 & H2). apply Forall_app. split.
    + eapply Forall_impl; [exact HP | exact H1].
    + apply IH, H2.
Qed.

Lemma ensure_replica_existing replica w :
  lookup (fs w) replica <> None -> ensure_replica replica w = (Return tt, w).
Proof.
  intros H. unfold ensure_replica, os_path_exists, bind, get_fs, ret.
  destruct (lookup (fs w) replica); [reflexivity | congruence].
Qed.

(** The recursion loop: when the common subdirectories exist in the
    replica, the recursive calls report on deeper levels only. *)
Lemma recursion_log (recurse : path -> path -> M unit) source replica :
  (forall x w1, lookup (fs w1) (join replica x) <> None ->
     emits (recurse (join source x) (join replica x)) w1
           (Forall (at_or_below (join replica x)))) ->
  (forall x q w1, disjoint (join replica x) q ->
     lookup (fs (snd (recurse (join source x) (join replica x) w1))) q =
     lookup (fs w1) q) ->
  forall l w, NoDup l ->
    (forall x, In x l -> lookup (fs w) (join replica x) <> None) ->
    emits (for_each l (fun d => recurse (join source d) (join replica d))) w
          (Forall (below replica)).
Proof.
  intros Hrec Hframe. induction l as [|x l IH]; intros w Hnd Hex.
  - exists []. simpl. rewrite app_nil_r. split; [reflexivity | constructor].
  - inversion Hnd as [|? ? Hx Hnd']; subst.
    destruct (Hrec x w (Hex x (or_introl eq_refl))) as (evs1 & Hlog1 & Hall1).
    assert (Hbelow : Forall (below replica) evs1).
    { eapply Forall_impl; [|exact Hall1]. intros e. apply at_or_below_join. }
    unfold emits. simpl for_each. unfold bind.
    assert (Hfr := fun y => Hframe x (join replica y) w).
    destruct (recurse (join source x) (join replica x) w) as [[[]|e] w1];
      simpl in Hlog1, Hfr.
    + destruct (IH w1 Hnd') as (evs2 & Hlog2 & Hall2).
      { intros y Hy. rewrite Hfr.
        - apply Hex. right. exact Hy.
        - apply disjoint_siblings. intros ->. contradiction. }
      exists (evs1 ++ evs2). rewrite Hlog2, Hlog1, app_assoc.
      split; [reflexivity | apply Forall_app; auto].
    + exists evs1. auto.
Qed.

(** The log of one pass: copies, then removals, then updates, then the
    recursive calls. *)
Lemma sync_pass_log (recurse : path -> path -> M unit) source replica w :
  (forall x w1, lookup (fs w1) (join replica x) <> None ->
     emits (recurse (join source x) (join replica x)) w1
           (Forall (at_or_below (join replica x)))) ->
  (forall x q w1, disjoint (join replica x) q ->
     lookup (fs (snd (recurse (join source x) (join replica x) w1))) q =
     lookup (fs w1) q) ->
  emits (sync_pass recurse source replica) w
        (staged [copies source replica; removals replica;
                 updates source replica; below replica]).
Proof.
  intros Hrec Hframe. unfold sync_pass.
  apply emits_silent; [apply silent_dircmp_phase1|]. intros c1 w1 E1.
  apply dircmp_phase1_NoDup in E1 as (-> & Hnd & _ & _).
  apply emits_stage.
  { apply emits_keeps, keeps_for_each. intros x _.
    apply keeps_logged_copy_entry. intros e He. exists x. exact He. }
  intros [] w2 _. apply emits_stage.
  { apply emits_keeps, keeps_for_each. intros x _.
    apply keeps_logged_remove_entry. intros e He. exists x. exact He. }
  intros [] w3 _.
  apply emits_silent; [apply silent_dircmp_phase2|]. intros c2 w4 E4.
  unfold dircmp_phase2, bind, get_fs, ret in E4. injection E4 as <- <-.
  cbn [common_files common_dirs].
  apply emits_stage.
  { apply emits_keeps, keeps_for_each. intros x _.
    apply keeps_logged_update_entry. intros e He. exists x. exact He. }
  intros [] w5 E5. apply emits_last.
  apply recursion_log; [exact Hrec | exact Hframe | apply NoDup_filter, Hnd |].
  intros x Hx. apply in_common_dirs in Hx as [_ Hx].
  assert (Hfr : lookup (fs w5) (join replica x) = lookup (fs w3) (join replica x)).
  { replace w5 with (snd (for_each
        (filter (fun x => is_common_file (classify (fs w3) source replica x))
                (common c1))
        (update_entry source replica) w3)) by (rewrite E5; reflexivity).
    apply for_each_frame. intros y v Hy.
    apply keeps_update_entry, disjoint_siblings.
    apply in_common_files in Hy as [_ Hy]. intros ->. congruence. }
  rewrite Hfr. apply classify_dir in Hx as (r1 & e1 & r2 & e2 & _ & ->).
  discriminate.
Qed.

(** A call on an existing replica directory reports on its entries and on
    what lies below them only. *)
Lemma sync_folders_events fuel : forall source replica w,
  lookup (fs w) replica <> None ->
  emits (sync_folders fuel source replica) w (Forall (at_or_below replica)).
Proof.
  induction fuel as [|fuel IH]; intros source replica w Hex.
  - exists []. simpl. rewrite app_nil_r. split; [reflexivity | constructor].
  - simpl. unfold emits, bind at 1.
    rewrite ensure_replica_existing by exact Hex.
    destruct (sync_pass_log (sync_folders fuel) source replica w)
      as (evs & Hlog & Hst).
    + intros x w1 Hx. apply IH, Hx.
    + intros x q w1 Hq. apply sync_folders_frame, Hq.
    + exists evs. split; [exact Hlog|].
      eapply staged_Forall; [|exact Hst].
      repeat constructor.
      * apply copies_at_or_below.
      * apply removals_at_or_below.
      * apply updates_at_or_below.
      * apply below_at_or_below.
Qed.


(** ** Creating the replica directory *)

Lemma lookup_new_dirs_prefix p q :
  prefixb q p = true -> exists es, lookup (new_dirs p) q = Some (Dir true es).
Proof.
  revert q. induction p as [|x p IH]; intros q Hq; simpl.
  - destruct q; [|discriminate]. exists []. reflexivity.
  - destruct q as [|y q]; simpl.
    + eexists. reflexivity.
    + simpl in Hq. apply andb_true_iff in Hq as [Hyx Hq].
      rewrite Hyx. apply IH, Hq.
Qed.

Lemma lookup_new_dirs p : lookup (new_dirs p) p = Some (Dir true []).
Proof.
  induction p as [|x p IH]; simpl; [reflexivity|].
  rewrite String.eqb_refl. exact IH.
Qed.

Lemma mkdirs_created t t' p :
  lookup t p = None -> mkdirs t p = Some t' ->
  lookup t' p = Some (Dir true []) /\
  forall q, prefixb q p = true ->
    exists r es, lookup t' q = Some (Dir r es).
Proof.
  revert t t'. induction p as [|x p IH]; intros t t' Hl Hm; simpl in *.
  - discriminate.
  - destruct t as [|r es]; [discriminate|].
    destruct (entry es x) as [c|] eqn:Ec.
    + destruct (mkdirs c p) as [c'|] eqn:Em; [|discriminate].
      injection Hm as <-. destruct (IH c c' Hl Em) as [H1 H2].
      simpl. rewrite entry_set_entry_eq. split; [exact H1|].
      intros [|y q] Hq; simpl.
      * eauto.
      * simpl in Hq. apply andb_true_iff in Hq as [Hyx Hq].
        apply String.eqb_eq in Hyx. subst y.
        rewrite entry_set_entry_eq. apply H2, Hq.
    + injection Hm as <-. simpl. rewrite entry_set_entry_eq.
      split; [apply lookup_new_dirs|].
      intros [|y q] Hq; simpl.
      * eauto.
      * simpl in Hq. apply andb_true_iff in Hq as [Hyx Hq].
        apply String.eqb_eq in Hyx. subst y.
        rewrite entry_set_entry_eq.
        destruct (lookup_new_dirs_prefix p q Hq) as [es' ->]. eauto.
Qed.

Lemma mkdirs_None t p :
  mkdirs t p = None ->
  exists q r d, prefixb q p = true /\ lookup t q = Some (File r d).
Proof.
  revert t. induction p as [|x p IH]; intros t H; simpl in H.
  - discriminate.
  - destruct t as [r d|r es].
    + exists [], r, d. auto.
    + destruct (entry es x) as [c|] eqn:Ec; [|discriminate].
      destruct (mkdirs c p) eqn:Em; [discriminate|].
      destruct (IH c Em) as (q & r' & d & Hq & Hl).
      exists (x :: q), r', d. simpl.
      rewrite String.eqb_refl, Ec. auto.
Qed.

(** C8.  When the replica path does not exist, [sync_folders] creates it
    first: the replica directory and every missing parent directory exist
    afterwards, the creation is logged, and the comparison of the two
    directories (the rest of the call) runs in the world where the replica
    directory exists.  The creation succeeds whenever no regular file
    stands on the way to the replica path; otherwise the call raises
    before comparing anything, and nothing changes. *)
Theorem sync_folders_creates_replica_first fuel source replica w :
  lookup (fs w) replica = None ->
  match ensure_replica replica w with
  | (Return _, w1) =>
      lookup (fs w1) replica = Some (Dir true []) /\
      (forall p, prefixb p replica = true ->
         exists r es, lookup (fs w1) p = Some (Dir r es)) /\
      log w1 = log w ++ [CreatedDirectory replica] /\
      sync_folders (S fuel) source replica w =
      sync_pass (sync_folders fuel) source replica w1
  | (Raise e, w1) =>
      w1 = w /\
      sync_folders (S fuel) source replica w = (Raise e, w) /\
      exists q r d, prefixb q replica = true /\
                    lookup (fs w) q = Some (File r d)
  end.
Proof.
  intros Hnone.
  assert (Hrun : sync_folders (S fuel) source replica w =
                 match ensure_replica replica w with
                 | (Return _, w1) =>
                     sync_pass (sync_folders fuel) source replica w1
                 | (Raise e, w1) => (Raise e, w1)
                 end) by reflexivity.
  rewrite Hrun. clear Hrun.
  unfold ensure_replica, os_path_exists, os_makedirs, bind, get_fs, ret,
    set_fs, log_and_print, raise.
  rewrite Hnone. simpl. rewrite Hnone.
  destruct (mkdirs (fs w) replica) as [t'|] eqn:Em; simpl.
  - destruct (mkdirs_created _ _ _ Hnone Em) as [H1 H2]. auto.
  - repeat split.
    apply mkdirs_None, Em.
Qed.

(** ** More on trees *)

Lemma modify_modify f g t p :
  modify g (modify f t p) p = modify (fun n => g (f n)) t p.
Proof.
  revert t. induction p as [|x p IH]; intros t; simpl; [reflexivity|].
  destruct t as [|r es]; [reflexivity|].
  destruct (entry es x) as [c|] eqn:Ec; simpl.
  - rewrite entry_set_entry_eq, IH, set_entry_set_entry. reflexivity.
  - rewrite Ec. reflexivity.
Qed.

Lemma modify_app f t p q :
  modify f t (p ++ q) = modify (fun n => modify f n q) t p.
Proof.
  revert t. induction p as [|x p IH]; intros t; simpl; [reflexivity|].
  destruct t as [|r es]; [reflexivity|].
  destruct (entry es x) as [c|]; [rewrite IH|]; reflexivity.
Qed.

Lemma set_entry_same x v es : entry es x = Some v -> set_entry x v es = es.
Proof.
  induction es as [|[y n] es IH]; simpl; [discriminate|].
  destruct (String.eqb_spec x y) as [->|Hxy].
  - intros H. injection H as ->. reflexivity.
  - intros H. rewrite IH by exact H. reflexivity.
Qed.

Lemma modify_id t p n :
  lookup t p = Some n -> modify (fun _ => n) t p = t.
Proof.
  revert t. induction p as [|x p IH]; intros t; simpl.
  - intros H. injection H as ->. reflexivity.
  - destruct t as [|r es]; [discriminate|].
    destruct (entry es x) as [c|] eqn:Ec; [|discriminate].
    intros H. rewrite IH by exact H. rewrite set_entry_same by exact Ec.
    reflexivity.
Qed.

Lemma mkdirs_join t p r es x :
  lookup t p = Some (Dir r es) -> entry es x = None ->
  mkdirs t (join p x) =
  Some (modify (on_entries (set_entry x (Dir true []))) t p).
Proof.
  unfold join. revert t. induction p as [|y p IH]; intros t Hl Hx; simpl in *.
  - injection Hl as ->. rewrite Hx. reflexivity.
  - destruct t as [|r0 es0]; [discriminate|].
    destruct (entry es0 y) as [c|]; [|discriminate].
    rewrite (IH c Hl Hx). reflexivity.
Qed.

(** An induction principle that reaches the entries of a directory. *)
Lemma node_ind2 (P : node -> Prop) :
  (forall r d, P (File r d)) ->
  (forall r es, Forall (fun xe => P (snd xe)) es -> P (Dir r es)) ->
  forall n, P n.
Proof.
  intros HF HD.
  fix IH 1. intros [r d|r es]; [apply HF|].
  apply HD. induction es as [|[x c] es IHes]; constructor.
  - apply IH.
  - exact IHes.
Qed.

Lemma all_readable_Dir r es :
  all_readable (Dir r es) = r && all_readable_entries es.
Proof.
  simpl. f_equal. induction es as [|[x c] es IH]; simpl; [reflexivity|].
  rewrite IH. reflexivity.
Qed.

Lemma all_readable_entry es x n :
  all_readable_entries es = true -> entry es x = Some n ->
  all_readable n = true.
Proof.
  induction es as [|[y c] es IH]; simpl; [discriminate|].
  intros H. apply andb_true_iff in H as [Hc Hes].
  destruct (String.eqb x y).
  - intros E. injection E as <-. exact Hc.
  - apply IH, Hes.
Qed.

Lemma copy_node_Dir es :
  copy_node (Dir true es) =
  let '(es', ok) := copy_entries es in (Some (Dir true es'), ok).
Proof.
  simpl.
  assert (H : (fix copy_entries (es : entries_t) : entries_t * bool :=
        match es with
        | [] => ([], true)
        | (x, c) :: es' =>
            let '(rest, ok') := copy_entries es' in
            match copy_node c with
            | (Some c', ok) => ((x, c') :: rest, ok && ok')
            | (None, _) => (rest, false)
            end
        end) es = copy_entries es).
  { induction es as [|[x c] es IH]; simpl; [reflexivity|]. rewrite IH.
    reflexivity. }
  rewrite H. reflexivity.
Qed.

(** A tree that is readable throughout is copied as it is. *)
Lemma copy_node_readable n :
  all_readable n = true -> copy_node n = (Some n, true).
Proof.
  induction n as [r d|r es IH] using node_ind2; intros Hr.
  - simpl in Hr. subst r. reflexivity.
  - rewrite all_readable_Dir in Hr. apply andb_true_iff in Hr as [-> Hes].
    rewrite copy_node_Dir.
    assert (H : copy_entries es = (es, true)).
    { revert Hes. induction IH as [|[x c] es Hc _ IHes]; simpl; intros Hes;
        [reflexivity|].
      apply andb_true_iff in Hes as [Hrc Hes]. simpl in Hc.
      rewrite (IHes Hes), (Hc Hrc). reflexivity. }
    rewrite H. reflexivity.
Qed.

Lemma copy_entries_readable es :
  all_readable_entries es = true -> copy_entries es = (es, true).
Proof.
  intros H.
  assert (Hc := copy_node_readable (Dir true es)).
  rewrite all_readable_Dir, copy_node_Dir in Hc. specialize (Hc H).
  destruct (copy_entries es) as [es' ok]. congruence.
Qed.

(** A copy without errors is the whole tree, readable throughout. *)
Lemma copy_node_ok n n' :
  copy_node n = (Some n', true) -> n' = n /\ all_readable n = true.
Proof.
  revert n'. induction n as [r d|r es IH] using node_ind2; intros n' H.
  - destruct r; simpl in H; [|discriminate]. injection H as <-. auto.
  - destruct r; [|simpl in H; discriminate].
    rewrite copy_node_Dir in H. rewrite all_readable_Dir. simpl.
    assert (Hes : forall es' , copy_entries es = (es', true) ->
                   es' = es /\ all_readable_entries es = true).
    { clear H. induction IH as [|[x c] es Hc _ IHes]; simpl; intros es' H.
      - injection H as <-. auto.
      - simpl in Hc. destruct (copy_entries es) as [rest ok'].
        destruct (copy_node c) as [[c'|] ok]; [|discriminate].
        injection H as <- Hok. apply andb_true_iff in Hok as [-> ->].
        destruct (Hc c' eq_refl) as [-> ->].
        destruct (IHes rest eq_refl) as [-> ->]. auto. }
    destruct (copy_entries es) as [es' ok]. injection H as <- ->.
    destruct (Hes es' eq_refl) as [-> ->]. auto.
Qed.

Lemma copy_entries_ok es es' :
  copy_entries es = (es', true) ->
  es' = es /\ all_readable_entries es = true.
Proof.
  intros H. assert (Hc := copy_node_ok (Dir true es) (Dir true es')).
  rewrite copy_node_Dir, H, all_readable_Dir in Hc.
  destruct (Hc eq_refl) as [E Hr]. injection E as ->. auto.
Qed.

(** A tree that is readable throughout is removed entirely. *)
Lemma rmtree_node_readable n : forall p,
  all_readable n = true -> rmtree_node p n = (None, None).
Proof.
  induction n as [r d|r es IH] using node_ind2; intros p Hr.
  - reflexivity.
  - rewrite all_readable_Dir in Hr. apply andb_true_iff in Hr as [-> Hes].
    simpl.
    assert (H : (fix rm_entries (es : entries_t) : entries_t * option exn :=
        match es with
        | [] => ([], None)
        | (x, c) :: es' =>
            match rmtree_node (join p x) c with
            | (None, _) => rm_entries es'
            | (Some c', e) => ((x, c') :: es', e)
            end
        end) es = ([], None)).
    { revert Hes. induction IH as [|[x c] es Hc _ IHes]; intros Hes;
        [reflexivity|].
      simpl in Hes. apply andb_true_iff in Hes as [Hrc Hes].
      simpl in Hc. rewrite (Hc (join p x) Hrc). apply IHes, Hes. }
    rewrite H. reflexivity.
Qed.

(** ** The lists of [dircmp] *)

Lemma mem_In x l : mem x l = true <-> In x l.
Proof.
  unfold mem. rewrite existsb_exists. split.
  - intros (y & Hy & E). apply String.eqb_eq in E. subst y. exact Hy.
  - intros H. exists x. split; [exact H | apply String.eqb_refl].
Qed.

Lemma mem_false x l : mem x l = false <-> ~ In x l.
Proof.
  rewrite <- mem_In. destruct (mem x l); split; intros H.
  - discriminate.
  - exfalso. apply H. reflexivity.
  - discriminate.
  - reflexivity.
Qed.

Lemma In_insert_sorted x y l : In x (insert_sorted y l) <-> x = y \/ In x l.
Proof.
  induction l as [|z l IH]; simpl.
  - intuition.
  - destruct (String.leb y z); simpl; [intuition|].
    rewrite IH. intuition.
Qed.

Lemma In_sort x l : In x (sort l) <-> In x l.
Proof.
  induction l as [|y l IH]; simpl; [reflexivity|].
  rewrite In_insert_sorted, IH. intuition.
Qed.

Lemma In_listed x l :
  In x (dict_keys (sort (_filter l skip))) <-> In x l /\ mem x skip = false.
Proof.
  unfold dict_keys, _filter. rewrite nodup_In, In_sort, filter_In.
  destruct (mem x skip); simpl; intuition.
Qed.

Lemma In_left_only x ll rl :
  In x (left_only (compare_lists ll rl)) <->
  In x ll /\ mem x skip = false /\ ~ In x rl.
Proof.
  unfold compare_lists. cbn [left_only]. rewrite filter_In, negb_true_iff.
  rewrite (mem_false x (dict_keys (sort (_filter rl skip)))), !In_listed.
  intuition.
Qed.

Lemma In_right_only x ll rl :
  In x (right_only (compare_lists ll rl)) <->
  In x rl /\ mem x skip = false /\ ~ In x ll.
Proof.
  unfold compare_lists. cbn [right_only]. rewrite filter_In, negb_true_iff.
  rewrite (mem_false x (dict_keys (sort (_filter ll skip)))), !In_listed.
  intuition.
Qed.

Lemma In_common x ll rl :
  In x (common (compare_lists ll rl)) <->
  In x ll /\ In x rl /\ mem x skip = false.
Proof.
  unfold compare_lists. cbn [common]. rewrite filter_In.
  rewrite (mem_In x (dict_keys (sort (_filter rl skip)))), !In_listed.
  intuition.
Qed.

Lemma join_nonempty p x : join p x <> [].
Proof. unfold join. destruct p; discriminate. Qed.

Lemma shutil_rmtree_nonroot p w :
  p <> [] ->
  shutil_rmtree p w =
  match lookup (fs w) p with
  | None => (Raise (FileNotFoundError p), w)
  | Some (File _ _) => (Raise (NotADirectoryError p), w)
  | Some (Dir r es) =>
      match rmtree_node p (Dir r es) with
      | (None, _) =>
          (Return tt, World (unlink (fs w) (dirname p) (basename p)) (log w))
      | (Some n', Some e) =>
          (Raise e, World (put (fs w) (dirname p) (basename p) n') (log w))
      | (Some n', None) =>
          (Return tt, World (put (fs w) (dirname p) (basename p) n') (log w))
      end
  end.
Proof.
  intros Hp. destruct p as [|y q]; [congruence|].
  unfold shutil_rmtree, bind, get_fs.
  destruct (lookup (fs w) (y :: q)) as [[|r es]|]; try reflexivity.
  destruct (rmtree_node (y :: q) (Dir r es)) as [[n'|] [e|]]; reflexivity.
Qed.

(** ** What one call does to the replica *)

Lemma prefixb_other r x n t :
  prefixb (join r x) t = true -> n <> x -> prefixb (join r n) t = false.
Proof.
  intros H Hn. apply prefixb_true in H as [rest ->]. unfold join.
  induction r as [|y r IH]; simpl.
  - destruct (String.eqb_spec n x); [contradiction | reflexivity].
  - rewrite String.eqb_refl. exact IH.
Qed.

Lemma touches_other replica l n evs :
  ~ In n l -> Forall (touches replica l) evs ->
  Forall (fun e => prefixb (join replica n) (target e) = false) evs.
Proof.
  intros Hn. apply Forall_impl. intros e (x & Hx & Hp).
  eapply prefixb_other; [exact Hp|]. intros ->. contradiction.
Qed.

Lemma touches_incl replica l l' evs :
  (forall x, In x l -> In x l') ->
  Forall (touches replica l) evs -> Forall (touches replica l') evs.
Proof.
  intros Hl. apply Forall_impl. intros e (x & Hx & Hp). exists x. auto.
Qed.

(** ** One pass, seen from the replica directory

    During a call on a pair of disjoint directories, the file system is
    always the initial one with the replica directory replaced by its
    current contents.  The calls made by the loops are computed here on
    worlds of that shape. *)


Lemma no_elements A (l : list A) : (forall x, ~ In x l) -> l = [].
Proof.
  destruct l as [|a l]; [reflexivity|]. intros H.
  destruct (H a). left. reflexivity.
Qed.


Section Pass.

Variables (fs0 : node) (source replica : path).
Variables (rs : bool) (S : entries_t) (rr : bool).
Hypothesis Hdisj : disjoint source replica.
Hypothesis Hsrc : lookup fs0 source = Some (Dir rs S).
Hypothesis Hrep : lookup fs0 replica <> None.

Local Abbreviation W := (replica_world fs0 replica rr).

Lemma W_replica Rc lg : lookup (fs (W Rc lg)) replica = Some (Dir rr Rc).
Proof.
  unfold replica_world. cbn [fs]. rewrite lookup_modify_same.
  destruct (lookup fs0 replica); [reflexivity | contradiction].
Qed.

Lemma W_source Rc lg : lookup (fs (W Rc lg)) source = Some (Dir rs S).
Proof.
  unfold replica_world. cbn [fs].
  rewrite lookup_modify_disjoint; [exact Hsrc | apply disjoint_sym, Hdisj].
Qed.

Lemma W_replica_entry Rc lg x :
  lookup (fs (W Rc lg)) (join replica x) = entry Rc x.
Proof. rewrite lookup_join, W_replica. reflexivity. Qed.

Lemma W_source_entry Rc lg x :
  lookup (fs (W Rc lg)) (join source x) = entry S x.
Proof. rewrite lookup_join, W_source. reflexivity. Qed.

Lemma W_put Rc lg x v :
  put (fs (W Rc lg)) replica x v = fs (W (set_entry x v Rc) lg).
Proof.
  unfold replica_world, put. cbn [fs]. rewrite modify_modify. reflexivity.
Qed.

Lemma W_unlink Rc lg x :
  unlink (fs (W Rc lg)) replica x = fs (W (del_entry x Rc) lg).
Proof.
  unfold replica_world, unlink. cbn [fs]. rewrite modify_modify. reflexivity.
Qed.

Lemma W_mkdirs Rc lg x :
  entry Rc x = None ->
  mkdirs (fs (W Rc lg)) (join replica x) =
  Some (fs (W (set_entry x (Dir true []) Rc) lg)).
Proof.
  intros H. rewrite (mkdirs_join _ _ rr Rc x (W_replica Rc lg) H).
  unfold replica_world. cbn [fs]. rewrite modify_modify. reflexivity.
Qed.

Lemma W_child Rc lg x c n :
  entry Rc x = Some c ->
  modify (fun _ => n) (fs (W Rc lg)) (join replica x) =
  fs (W (set_entry x n Rc) lg).
Proof.
  intros H. unfold join. rewrite modify_app. unfold replica_world. cbn [fs].
  rewrite modify_modify. cbn [modify]. rewrite H. reflexivity.
Qed.

Lemma join_cons p x : exists y q, join p x = y :: q.
Proof. unfold join. destruct p as [|y q]; simpl; eauto. Qed.

Lemma join_source_replica x :
  path_eqb (join source x) (join replica x) = false.
Proof.
  unfold path_eqb.
  destruct (list_eq_dec string_dec (join source x) (join replica x)) as [E|];
    [|reflexivity].
  apply app_inv_tail in E. apply disjoint_not_eq in Hdisj. contradiction.
Qed.

Ltac run :=
  cbv beta iota delta
    [bind ret raise get_fs set_fs log_and_print os_path_exists os_path_isdir
     os_listdir os_makedirs os_remove open_rb write_file shutil_copy2
     shutil_copytree shutil_rmtree].

Lemma isdir_source_W Rc lg x :
  os_path_isdir (join source x) (W Rc lg) =
  (Return (match entry S x with Some n => is_dir n | None => false end),
   W Rc lg).
Proof. run. rewrite W_source_entry. reflexivity. Qed.

Lemma isdir_replica_W Rc lg x :
  os_path_isdir (join replica x) (W Rc lg) =
  (Return (match entry Rc x with Some n => is_dir n | None => false end),
   W Rc lg).
Proof. run. rewrite W_replica_entry. reflexivity. Qed.

Lemma open_source_W Rc lg x :
  open_rb (join source x) (W Rc lg) =
  match entry S x with
  | None => (Raise (FileNotFoundError (join source x)), W Rc lg)
  | Some (Dir _ _) => (Raise (IsADirectoryError (join source x)), W Rc lg)
  | Some (File false _) => (Raise (PermissionError (join source x)), W Rc lg)
  | Some (File true data) => (Return data, W Rc lg)
  end.
Proof.
  run. rewrite W_source_entry. destruct (entry S x) as [[[] d|]|]; reflexivity.
Qed.

Lemma open_replica_W Rc lg x :
  open_rb (join replica x) (W Rc lg) =
  match entry Rc x with
  | None => (Raise (FileNotFoundError (join replica x)), W Rc lg)
  | Some (Dir _ _) => (Raise (IsADirectoryError (join replica x)), W Rc lg)
  | Some (File false _) => (Raise (PermissionError (join replica x)), W Rc lg)
  | Some (File true data) => (Return data, W Rc lg)
  end.
Proof.
  run. rewrite W_replica_entry.
  destruct (entry Rc x) as [[[] d|]|]; reflexivity.
Qed.

Lemma write_replica_W Rc lg x data :
  write_file (join replica x) data (W Rc lg) =
  match entry Rc x with
  | Some (Dir _ _) => (Raise (IsADirectoryError (join replica x)), W Rc lg)
  | _ => (Return tt, W (set_entry x (File true data) Rc) lg)
  end.
Proof.
  run. rewrite dirname_join, basename_join, W_replica, W_replica_entry, W_put.
  destruct (entry Rc x) as [[|]|]; reflexivity.
Qed.

Lemma makedirs_replica_W Rc lg x :
  entry Rc x = None ->
  os_makedirs (join replica x) (W Rc lg) =
  (Return tt, W (set_entry x (Dir true []) Rc) lg).
Proof.
  intros H. run. rewrite W_replica_entry, H, (W_mkdirs _ _ _ H). reflexivity.
Qed.

Lemma remove_replica_W Rc lg x :
  os_remove (join replica x) (W Rc lg) =
  match entry Rc x with
  | None => (Raise (FileNotFoundError (join replica x)), W Rc lg)
  | Some (Dir _ _) => (Raise (IsADirectoryError (join replica x)), W Rc lg)
  | Some (File _ _) => (Return tt, W (del_entry x Rc) lg)
  end.
Proof.
  run. rewrite dirname_join, basename_join, W_replica_entry, W_unlink.
  destruct (entry Rc x) as [[|]|]; reflexivity.
Qed.

Lemma rmtree_replica_W Rc lg x :
  shutil_rmtree (join replica x) (W Rc lg) =
  match entry Rc x with
  | None => (Raise (FileNotFoundError (join replica x)), W Rc lg)
  | Some (File _ _) => (Raise (NotADirectoryError (join replica x)), W Rc lg)
  | Some (Dir r es) =>
      match rmtree_node (join replica x) (Dir r es) with
      | (None, _) => (Return tt, W (del_entry x Rc) lg)
      | (Some n', Some e) => (Raise e, W (set_entry x n' Rc) lg)
      | (Some n', None) => (Return tt, W (set_entry x n' Rc) lg)
      end
  end.
Proof.
  rewrite shutil_rmtree_nonroot by apply join_nonempty.
  rewrite dirname_join, basename_join, W_replica_entry, W_unlink.
  destruct (entry Rc x) as [[|r es]|]; try reflexivity.
  destruct (rmtree_node (join replica x) (Dir r es)) as [[n'|] [e|]];
    rewrite ?W_put; reflexivity.
Qed.

Lemma calculate_md5_run p w :
  calculate_md5 p w =
  match open_rb p w with
  | (Return d, w') => (Return (MD5.hexdigest d), w')
  | (Raise e, w') => (Raise e, w')
  end.
Proof.
  rewrite calculate_md5_whole.
  unfold md5_in_one_piece, bind. destruct (open_rb p w) as [[d|e] w'];
    reflexivity.
Qed.

Lemma rmtree_node_Some p n n' : rmtree_node p n <> (Some n', None).
Proof.
  destruct n as [r d|[] es]; simpl; try discriminate.
  match goal with |- context [match ?X with _ => _ end] => destruct X as [rest [e|]] end;
    discriminate.
Qed.

Lemma copy2_W Rc lg x :
  (forall r es, entry Rc x <> Some (Dir r es)) ->
  shutil_copy2 (join source x) (join replica x) (W Rc lg) =
  match entry S x with
  | None => (Raise (FileNotFoundError (join source x)), W Rc lg)
  | Some (Dir _ _) => (Raise (IsADirectoryError (join source x)), W Rc lg)
  | Some (File false _) => (Raise (PermissionError (join source x)), W Rc lg)
  | Some (File true d) => (Return tt, W (set_entry x (File true d) Rc) lg)
  end.
Proof.
  intros Hnd. unfold shutil_copy2, bind. rewrite isdir_replica_W.
  assert (Hd : match entry Rc x with Some n => is_dir n | None => false end
               = false).
  { destruct (entry Rc x) as [[|r es]|] eqn:E; try reflexivity.
    exfalso. exact (Hnd r es eq_refl). }
  rewrite Hd. unfold os_path_exists, get_fs, bind, ret.
  rewrite join_source_replica, andb_false_r, open_source_W.
  destruct (entry S x) as [[[] d|]|]; try reflexivity.
  rewrite write_replica_W.
  destruct (entry Rc x) as [[|r es]|] eqn:E; try reflexivity.
  exfalso. exact (Hnd r es eq_refl).
Qed.

Lemma copytree_W Rc lg x :
  entry Rc x = None ->
  shutil_copytree (join source x) (join replica x) (W Rc lg) =
  match entry S x with
  | None => (Raise (FileNotFoundError (join source x)), W Rc lg)
  | Some (File _ _) => (Raise (NotADirectoryError (join source x)), W Rc lg)
  | Some (Dir false _) => (Raise (PermissionError (join source x)), W Rc lg)
  | Some (Dir true es) =>
      (if snd (copy_entries es) then Return tt
       else Raise (ShutilError (join source x)),
       W (set_entry x (Dir true (fst (copy_entries es))) Rc) lg)
  end.
Proof.
  intros Hx. unfold shutil_copytree, bind at 1, get_fs at 1.
  rewrite W_source_entry.
  destruct (entry S x) as [[|[] es]|]; try reflexivity.
  unfold bind at 1. rewrite makedirs_replica_W by exact Hx.
  unfold bind, get_fs, set_fs, ret, raise.
  destruct (copy_entries es) as [es' ok].
  rewrite dirname_join, basename_join, W_put, set_entry_set_entry.
  destruct ok; reflexivity.
Qed.

Lemma copy_entry_W Rc lg x :
  entry Rc x = None ->
  copy_entry source replica x (W Rc lg) =
  match entry S x with
  | None => (Raise (FileNotFoundError (join source x)), W Rc lg)
  | Some (File false _) => (Raise (PermissionError (join source x)), W Rc lg)
  | Some (File true d) =>
      (Return tt,
       W (set_entry x (File true d) Rc)
         (lg ++ [CopiedFile (join source x) (join replica x)]))
  | Some (Dir false _) => (Raise (PermissionError (join source x)), W Rc lg)
  | Some (Dir true es) =>
      if snd (copy_entries es) then
        (Return tt,
         W (set_entry x (Dir true (fst (copy_entries es))) Rc)
           (lg ++ [CopiedDirectory (join source x) (join replica x)]))
      else
        (Raise (ShutilError (join source x)),
         W (set_entry x (Dir true (fst (copy_entries es))) Rc) lg)
  end.
Proof.
  intros Hx. unfold copy_entry, bind at 1. rewrite isdir_source_W.
  destruct (entry S x) as [[[] d|[] es]|] eqn:E; cbn [is_dir].
  - unfold bind. rewrite copy2_W, E; [reflexivity|]. intros; congruence.
  - unfold bind. rewrite copy2_W, E; [reflexivity|]. intros; congruence.
  - unfold bind. rewrite copytree_W, E by exact Hx.
    destruct (snd (copy_entries es)); reflexivity.
  - unfold bind. rewrite copytree_W, E by exact Hx. reflexivity.
  - unfold bind. rewrite copy2_W, E; [reflexivity|]. intros; congruence.
Qed.

Lemma remove_entry_W Rc lg x :
  remove_entry replica x (W Rc lg) =
  match entry Rc x with
  | None => (Raise (FileNotFoundError (join replica x)), W Rc lg)
  | Some (File _ _) =>
      (Return tt, W (del_entry x Rc) (lg ++ [RemovedFile (join replica x)]))
  | Some (Dir r es) =>
      match rmtree_node (join replica x) (Dir r es) with
      | (Some n', Some e) => (Raise e, W (set_entry x n' Rc) lg)
      | _ =>
          (Return tt,
           W (del_entry x Rc) (lg ++ [RemovedDirectory (join replica x)]))
      end
  end.
Proof.
  unfold remove_entry, bind at 1. rewrite isdir_replica_W.
  destruct (entry Rc x) as [[r d|r es]|] eqn:E; cbn [is_dir].
  - unfold bind. rewrite remove_replica_W, E. reflexivity.
  - unfold bind. rewrite rmtree_replica_W, E.
    destruct (rmtree_node (join replica x) (Dir r es)) as [[n'|] [e|]] eqn:Er;
      try reflexivity.
    exfalso. exact (rmtree_node_Some _ _ _ Er).
  - unfold bind. rewrite remove_replica_W, E. reflexivity.
Qed.

Lemma update_entry_W Rc lg x r1 d1 r2 d2 :
  entry S x = Some (File r1 d1) ->
  entry Rc x = Some (File r2 d2) ->
  update_entry source replica x (W Rc lg) =
  if negb r1 then (Raise (PermissionError (join source x)), W Rc lg)
  else if negb r2 then (Raise (PermissionError (join replica x)), W Rc lg)
  else if String.eqb (MD5.hexdigest d1) (MD5.hexdigest d2) then
    (Return tt, W Rc lg)
  else
    (Return tt,
     W (set_entry x (File true d1) Rc)
       (lg ++ [UpdatedFile (join source x) (join replica x)])).
Proof.
  intros E1 E2. unfold update_entry, files_are_different, bind.
  rewrite calculate_md5_run, open_source_W, E1.
  destruct r1; [|reflexivity].
  rewrite calculate_md5_run, open_replica_W, E2.
  destruct r2; [|reflexivity].
  unfold ret. cbn [negb].
  destruct (String.eqb (MD5.hexdigest d1) (MD5.hexdigest d2)); [reflexivity|].
  cbn [negb]. rewrite copy2_W, E1; [reflexivity|]. intros; congruence.
Qed.

Lemma phase1_W Rc lg :
  dircmp_phase1 source replica (W Rc lg) =
  if negb rs then (Raise (PermissionError source), W Rc lg)
  else if negb rr then (Raise (PermissionError replica), W Rc lg)
  else (Return (compare_lists (map fst S) (map fst Rc)), W Rc lg).
Proof.
  rewrite dircmp_phase1_run, W_source, W_replica.
  destruct rs, rr; reflexivity.
Qed.

Lemma ensure_replica_W Rc lg :
  ensure_replica replica (W Rc lg) = (Return tt, W Rc lg).
Proof. apply ensure_replica_existing. rewrite W_replica. discriminate. Qed.

Lemma classify_W Rc lg x :
  classify (fs (W Rc lg)) source replica x =
  classify_entries (entry S x) (entry Rc x).
Proof.
  unfold classify. rewrite W_source_entry, W_replica_entry. reflexivity.
Qed.

Lemma touches_here x l e :
  target e = join replica x -> touches replica (x :: l) e.
Proof.
  intros H. exists x. split; [left; reflexivity|]. rewrite H.
  apply prefixb_refl.
Qed.

Lemma touches_tail x l evs :
  Forall (touches replica l) evs -> Forall (touches replica (x :: l)) evs.
Proof. apply touches_incl. intros y Hy. right. exact Hy. Qed.

(** The copy loop over names that the replica directory does not have. *)
Lemma copy_loop_W l : NoDup l -> forall Rc lg,
  (forall x, In x l -> entry Rc x = None) ->
  exists o Rc' evs,
    for_each l (copy_entry source replica) (W Rc lg) =
      (o, W Rc' (lg ++ evs)) /\
    (forall y, ~ In y l -> entry Rc' y = entry Rc y) /\
    Forall (touches replica l) evs /\
    (o = Return tt -> forall x, In x l ->
       exists s, entry S x = Some s /\ all_readable s = true /\
                 entry Rc' x = Some s) /\
    ((forall x, In x l ->
        exists s, entry S x = Some s /\ all_readable s = true) ->
     o = Return tt).
Proof.
  induction 1 as [|x l Hx Hnd IH]; intros Rc lg Hnone.
  - exists (Return tt), Rc, []. rewrite app_nil_r. simpl.
    repeat split; auto. intros _ y [].
  - assert (Hstop : forall e Rc1,
              (forall y, y <> x -> entry Rc1 y = entry Rc y) ->
              ~ (exists s, entry S x = Some s /\ all_readable s = true) ->
              exists o Rc' evs,
                (Raise e, W Rc1 lg) = (o, W Rc' (lg ++ evs)) /\
                (forall y, ~ In y (x :: l) -> entry Rc' y = entry Rc y) /\
                Forall (touches replica (x :: l)) evs /\
                (o = Return tt -> forall z, In z (x :: l) ->
                   exists s, entry S z = Some s /\ all_readable s = true /\
                             entry Rc' z = Some s) /\
                ((forall z, In z (x :: l) ->
                    exists s, entry S z = Some s /\ all_readable s = true) ->
                 o = Return tt)).
    { intros e Rc1 H1 Hbad. exists (Raise e), Rc1, []. rewrite app_nil_r.
      split; [reflexivity|]. split.
      { intros y Hy. apply H1. intros ->. apply Hy. left. reflexivity. }
      split; [constructor|]. split; [discriminate|].
      intros H. exfalso. apply Hbad, H. left. reflexivity. }
    assert (Hnext : forall v ev,
              entry S x = Some v -> all_readable v = true ->
              target ev = join replica x ->
              exists o Rc' evs,
                for_each l (copy_entry source replica)
                  (W (set_entry x v Rc) (lg ++ [ev])) =
                  (o, W Rc' (lg ++ evs)) /\
                (forall y, ~ In y (x :: l) -> entry Rc' y = entry Rc y) /\
                Forall (touches replica (x :: l)) evs /\
                (o = Return tt -> forall z, In z (x :: l) ->
                   exists s, entry S z = Some s /\ all_readable s = true /\
                             entry Rc' z = Some s) /\
                ((forall z, In z (x :: l) ->
                    exists s, entry S z = Some s /\ all_readable s = true) ->
                 o = Return tt)).
    { intros v ev Ev Hv Hev.
      destruct (IH (set_entry x v Rc) (lg ++ [ev]))
        as (o & Rc' & evs & Hrun & Hun & Hevs & Hret & Htot).
      { intros y Hy. rewrite entry_set_entry_ne.
        - apply Hnone. right. exact Hy.
        - intros ->. contradiction. }
      exists o, Rc', (ev :: evs). rewrite Hrun, <- app_assoc.
      split; [reflexivity|]. split.
      { intros y Hy. rewrite Hun.
        - apply entry_set_entry_ne. intros ->. apply Hy. left. reflexivity.
        - intros Hy'. apply Hy. right. exact Hy'. }
      split.
      { constructor; [apply touches_here, Hev | apply touches_tail, Hevs]. }
      split.
      { intros Ho z [<-|Hz].
        - exists v. rewrite Hun by exact Hx. rewrite entry_set_entry_eq. auto.
        - apply Hret; assumption. }
      intros H. apply Htot. intros z Hz. apply H. right. exact Hz. }
    simpl for_each. unfold bind.
    rewrite copy_entry_W by (apply Hnone; left; reflexivity).
    destruct (entry S x) as [[[] d|[] es]|] eqn:E.
    + apply Hnext; reflexivity.
    + apply Hstop; [reflexivity|]. intros (s & Es & Hs).
      injection Es as <-. discriminate.
    + destruct (copy_entries es) as [es' ok] eqn:Ec. cbn [fst snd].
      destruct ok.
      * apply copy_entries_ok in Ec as [-> Hr].
        apply Hnext; [reflexivity | | reflexivity].
        rewrite all_readable_Dir. exact Hr.
      * apply Hstop.
        { intros y Hy. apply entry_set_entry_ne, Hy. }
        intros (s & Es & Hs). injection Es as <-.
        rewrite all_readable_Dir in Hs. simpl in Hs.
        rewrite (copy_entries_readable _ Hs) in Ec. discriminate.
    + apply Hstop; [reflexivity|]. intros (s & Es & Hs).
      injection Es as <-. discriminate.
    + apply Hstop; [reflexivity|]. intros (s & Es & Hs). discriminate.
Qed.

(** The removal loop. *)
Lemma remove_loop_W l : NoDup l -> forall Rc lg,
  exists o Rc' evs,
    for_each l (remove_entry replica) (W Rc lg) = (o, W Rc' (lg ++ evs)) /\
    (forall y, ~ In y l -> entry Rc' y = entry Rc y) /\
    Forall (touches replica l) evs /\
    (o = Return tt -> forall x, In x l -> entry Rc' x = None) /\
    ((forall x, In x l ->
        exists r, entry Rc x = Some r /\ all_readable r = true) ->
     o = Return tt).
Proof.
  induction 1 as [|x l Hx Hnd IH]; intros Rc lg.
  - exists (Return tt), Rc, []. rewrite app_nil_r. simpl.
    repeat split; auto. intros _ y [].
  - assert (Hstop : forall e Rc1,
              (forall y, y <> x -> entry Rc1 y = entry Rc y) ->
              ~ (exists r, entry Rc x = Some r /\ all_readable r = true) ->
              exists o Rc' evs,
                (Raise e, W Rc1 lg) = (o, W Rc' (lg ++ evs)) /\
                (forall y, ~ In y (x :: l) -> entry Rc' y = entry Rc y) /\
                Forall (touches replica (x :: l)) evs /\
                (o = Return tt -> forall z, In z (x :: l) ->
                   entry Rc' z = None) /\
                ((forall z, In z (x :: l) ->
                    exists r, entry Rc z = Some r /\ all_readable r = true) ->
                 o = Return tt)).
    { intros e Rc1 H1 Hbad. exists (Raise e), Rc1, []. rewrite app_nil_r.
      split; [reflexivity|]. split.
      { intros y Hy. apply H1. intros ->. apply Hy. left. reflexivity. }
      split; [constructor|]. split; [discriminate|].
      intros H. exfalso. apply Hbad, H. left. reflexivity. }
    assert (Hnext : forall ev,
              target ev = join replica x ->
              exists o Rc' evs,
                for_each l (remove_entry replica)
                  (W (del_entry x Rc) (lg ++ [ev])) =
                  (o, W Rc' (lg ++ evs)) /\
                (forall y, ~ In y (x :: l) -> entry Rc' y = entry Rc y) /\
                Forall (touches replica (x :: l)) evs /\
                (o = Return tt -> forall z, In z (x :: l) ->
                   entry Rc' z = None) /\
                ((forall z, In z (x :: l) ->
                    exists r, entry Rc z = Some r /\ all_readable r = true) ->
                 o = Return tt)).
    { intros ev Hev.
      destruct (IH (del_entry x Rc) (lg ++ [ev]))
        as (o & Rc' & evs & Hrun & Hun & Hevs & Hret & Htot).
      exists o, Rc', (ev :: evs). rewrite Hrun, <- app_assoc.
      split; [reflexivity|]. split.
      { intros y Hy. rewrite Hun.
        - apply entry_del_entry_ne. intros ->. apply Hy. left. reflexivity.
        - intros Hy'. apply Hy. right. exact Hy'. }
      split.
      { constructor; [apply touches_here, Hev | apply touches_tail, Hevs]. }
      split.
      { intros Ho z [<-|Hz].
        - rewrite Hun by exact Hx. apply entry_del_entry_eq.
        - apply Hret; assumption. }
      intros H. apply Htot. intros z Hz.
      rewrite entry_del_entry_ne by (intros ->; contradiction).
      apply H. right. exact Hz. }
    simpl for_each. unfold bind. rewrite remove_entry_W.
    destruct (entry Rc x) as [[r d|r es]|] eqn:E.
    + apply Hnext. reflexivity.
    + destruct (rmtree_node (join replica x) (Dir r es)) as [[n'|] [e|]] eqn:Er.
      * apply Hstop.
        { intros y Hy. apply entry_set_entry_ne, Hy. }
        intros (r0 & Er0 & Hr0). injection Er0 as <-.
        rewrite (rmtree_node_readable _ _ Hr0) in Er. discriminate.
      * apply Hnext. reflexivity.
      * apply Hnext. reflexivity.
      * apply Hnext. reflexivity.
    + apply Hstop; [reflexivity|]. intros (r0 & Er0 & _). discriminate.
Qed.

Lemma classify_entries_file a b :
  classify_entries a b = CommonFile ->
  exists r1 d1 r2 d2, a = Some (File r1 d1) /\ b = Some (File r2 d2).
Proof.
  destruct a as [[r1 d1|r1 e1]|], b as [[r2 d2|r2 e2]|]; simpl;
    try discriminate.
  intros _. exists r1, d1, r2, d2. auto.
Qed.

Lemma classify_entries_dir a b :
  classify_entries a b = CommonDir ->
  exists r1 e1 r2 e2, a = Some (Dir r1 e1) /\ b = Some (Dir r2 e2).
Proof.
  destruct a as [[r1 d1|r1 e1]|], b as [[r2 d2|r2 e2]|]; simpl;
    try discriminate.
  intros _. exists r1, e1, r2, e2. auto.
Qed.

Lemma same_digest_files d1 d2 :
  same_digest (Some (File true d1)) (Some (File true d2)) <->
  String.eqb (MD5.hexdigest d1) (MD5.hexdigest d2) = true.
Proof.
  rewrite String.eqb_eq. split.
  - intros (a & c & Ea & Ec & H). injection Ea as <-. injection Ec as <-.
    exact H.
  - intros H. exists d1, d2. auto.
Qed.

(** The update loop over names that are files on both sides. *)
Lemma update_loop_W l : NoDup l -> forall Rc lg,
  (forall x, In x l ->
     classify_entries (entry S x) (entry Rc x) = CommonFile) ->
  exists o Rc' evs,
    for_each l (update_entry source replica) (W Rc lg) =
      (o, W Rc' (lg ++ evs)) /\
    (forall y, ~ In y l \/ same_digest (entry S y) (entry Rc y) ->
       entry Rc' y = entry Rc y) /\
    Forall (updated_in replica S l Rc) evs /\
    (o = Return tt -> forall x r1 d1 r2 d2, In x l ->
       entry S x = Some (File r1 d1) -> entry Rc x = Some (File r2 d2) ->
       r1 = true /\ r2 = true /\
       entry Rc' x =
       Some (if String.eqb (MD5.hexdigest d1) (MD5.hexdigest d2)
             then File true d2 else File true d1)) /\
    ((forall x n, In x l -> entry S x = Some n \/ entry Rc x = Some n ->
        all_readable n = true) ->
     o = Return tt).
Proof.
  induction 1 as [|x l Hx Hnd IH]; intros Rc lg Hfile.
  - exists (Return tt), Rc, []. rewrite app_nil_r. cbn [for_each].
    split; [reflexivity|]. split; [reflexivity|]. split; [constructor|].
    split; [|reflexivity]. intros _ y r1 d1 r2 d2 [].
  - destruct (classify_entries_file _ _ (Hfile x (or_introl eq_refl)))
      as (r1 & d1 & r2 & d2 & E1 & E2).
    cbn [for_each]. unfold bind. rewrite (update_entry_W Rc lg x _ _ _ _ E1 E2).
    assert (Hstop : forall e,
              r1 = false \/ r2 = false ->
              exists o Rc' evs,
                (Raise e, W Rc lg) = (o, W Rc' (lg ++ evs)) /\
                (forall y, ~ In y (x :: l) \/
                           same_digest (entry S y) (entry Rc y) ->
                   entry Rc' y = entry Rc y) /\
                Forall (updated_in replica S (x :: l) Rc) evs /\
                (o = Return tt -> forall z r1 d1 r2 d2, In z (x :: l) ->
                   entry S z = Some (File r1 d1) ->
                   entry Rc z = Some (File r2 d2) ->
                   r1 = true /\ r2 = true /\
                   entry Rc' z =
                   Some (if String.eqb (MD5.hexdigest d1) (MD5.hexdigest d2)
                         then File true d2 else File true d1)) /\
                ((forall z n, In z (x :: l) ->
                    entry S z = Some n \/ entry Rc z = Some n ->
                    all_readable n = true) ->
                 o = Return tt)).
    { intros e Hbad. exists (Raise e), Rc, []. rewrite app_nil_r.
      split; [reflexivity|]. split; [reflexivity|].
      split; [constructor|]. split; [discriminate|].
      intros H. exfalso. destruct Hbad as [-> | ->].
      - specialize (H x _ (or_introl eq_refl) (or_introl E1)). discriminate.
      - specialize (H x _ (or_introl eq_refl) (or_intror E2)). discriminate. }
    destruct r1; [|apply Hstop; auto]. destruct r2; [|apply Hstop; auto].
    clear Hstop. cbn [negb].
    destruct (String.eqb (MD5.hexdigest d1) (MD5.hexdigest d2)) eqn:Eq.
    + destruct (IH Rc lg) as (o & Rc' & evs & Hrun & Hun & Hevs & Hret & Htot).
      { intros y Hy. apply Hfile. right. exact Hy. }
      exists o, Rc', evs. split; [exact Hrun|]. split.
      { intros y [Hy|Hy]; apply Hun; auto.
        left. intros Hy'. apply Hy. right. exact Hy'. }
      split.
      { eapply Forall_impl; [|exact Hevs]. intros e (z & Hz & Hd & Hp).
        exists z. auto with datatypes. }
      split.
      { intros Ho z r1' d1' r2' d2' [<-|Hz] Ez1 Ez2.
        - rewrite E1 in Ez1. rewrite E2 in Ez2.
          injection Ez1 as <- <-. injection Ez2 as <- <-.
          rewrite Eq, Hun, E2 by auto. auto.
        - eapply Hret; eassumption. }
      intros H. apply Htot. intros z n Hz. apply H. right. exact Hz.
    + assert (Hne : forall y, In y l -> y <> x).
      { intros y Hy ->. contradiction. }
      destruct (IH (set_entry x (File true d1) Rc)
                   (lg ++ [UpdatedFile (join source x) (join replica x)]))
        as (o & Rc' & evs & Hrun & Hun & Hevs & Hret & Htot).
      { intros y Hy. rewrite entry_set_entry_ne by (apply Hne, Hy).
        apply Hfile. right. exact Hy. }
      exists o, Rc', (UpdatedFile (join source x) (join replica x) :: evs).
      rewrite Hrun, <- app_assoc. split; [reflexivity|].
      assert (Hnot : ~ same_digest (entry S x) (entry Rc x)).
      { rewrite E1, E2, same_digest_files, Eq. discriminate. }
      split.
      { intros y Hy. destruct (String.eqb_spec y x) as [->|Hyx].
        - destruct Hy as [Hy|Hy]; [|contradiction].
          exfalso. apply Hy. left. reflexivity.
        - rewrite Hun; [apply entry_set_entry_ne, Hyx|].
          rewrite entry_set_entry_ne by exact Hyx.
          destruct Hy as [Hy|Hy]; [left|right; exact Hy].
          intros Hy'. apply Hy. right. exact Hy'. }
      split.
      { constructor.
        - exists x. split; [left; reflexivity|]. split; [exact Hnot|].
          apply prefixb_refl.
        - eapply Forall_impl; [|exact Hevs]. intros e (z & Hz & Hd & Hp).
          exists z. split; [right; exact Hz|]. split; [|exact Hp].
          rewrite entry_set_entry_ne in Hd by (apply Hne, Hz). exact Hd. }
      split.
      { intros Ho z r1' d1' r2' d2' [<-|Hz] Ez1 Ez2.
        - rewrite E1 in Ez1. rewrite E2 in Ez2.
          injection Ez1 as <- <-. injection Ez2 as <- <-.
          rewrite Eq, Hun, entry_set_entry_eq by auto. auto.
        - rewrite <- (entry_set_entry_ne x (File true d1) Rc z) in Ez2
            by (apply Hne, Hz).
          eapply Hret; eassumption. }
      intros H. apply Htot. intros z n Hz Hn. apply (H z n).
      * right. exact Hz.
      * rewrite entry_set_entry_ne in Hn by (apply Hne, Hz). exact Hn.
Qed.

Lemma phase2_W Rc lg cm :
  dircmp_phase2 source replica cm (W Rc lg) =
  (Return
     (Phase2
        (filter (fun x => is_common_dir
                            (classify_entries (entry S x) (entry Rc x))) cm)
        (filter (fun x => is_common_file
                            (classify_entries (entry S x) (entry Rc x))) cm)
        (filter (fun x => is_common_funny
                            (classify_entries (entry S x) (entry Rc x))) cm)),
   W Rc lg).
Proof.
  unfold dircmp_phase2, bind, get_fs, ret.
  f_equal. f_equal. f_equal; apply filter_ext; intros x; rewrite classify_W;
    reflexivity.
Qed.

(** *** The recursion loop

    [recurse] is the recursive call; [total s r] is a condition under
    which it returns normally on the pair [s], [r]. *)

Variable recurse : path -> path -> M unit.
Variable total : node -> node -> Prop.

Hypothesis Hrec : forall x Rc lg r1 S1 r2 R1,
  entry S x = Some (Dir r1 S1) -> entry Rc x = Some (Dir r2 R1) ->
  exists o R1' evs,
    recurse (join source x) (join replica x) (W Rc lg) =
      (o, W (set_entry x (Dir r2 R1') Rc) (lg ++ evs)) /\
    Forall (at_or_below (join replica x)) evs /\
    (o = Return tt -> sync_result (Dir r1 S1) (Dir r2 R1) (Dir r2 R1')) /\
    (total (Dir r1 S1) (Dir r2 R1) -> o = Return tt).

Lemma at_or_below_touches x l evs :
  Forall (at_or_below (join replica x)) evs ->
  Forall (touches replica (x :: l)) evs.
Proof.
  apply Forall_impl. intros e (y & rest & H). exists x.
  split; [left; reflexivity|]. rewrite H. apply prefixb_app.
Qed.

Lemma recurse_loop_W l : NoDup l -> forall Rc lg,
  (forall x, In x l ->
     classify_entries (entry S x) (entry Rc x) = CommonDir) ->
  exists o Rc' evs,
    for_each l (fun d => recurse (join source d) (join replica d)) (W Rc lg) =
      (o, W Rc' (lg ++ evs)) /\
    (forall y, ~ In y l -> entry Rc' y = entry Rc y) /\
    Forall (touches replica l) evs /\
    (o = Return tt -> forall x r1 S1 r2 R1, In x l ->
       entry S x = Some (Dir r1 S1) -> entry Rc x = Some (Dir r2 R1) ->
       exists R1', entry Rc' x = Some (Dir r2 R1') /\
                   sync_result (Dir r1 S1) (Dir r2 R1) (Dir r2 R1')) /\
    ((forall x s r, In x l -> entry S x = Some s -> entry Rc x = Some r ->
        total s r) ->
     o = Return tt).
Proof.
  induction 1 as [|x l Hx Hnd IH]; intros Rc lg Hdir.
  - exists (Return tt), Rc, []. rewrite app_nil_r. cbn [for_each].
    split; [reflexivity|]. split; [reflexivity|]. split; [constructor|].
    split; [|reflexivity]. intros _ y r1 S1 r2 R1 [].
  - destruct (classify_entries_dir _ _ (Hdir x (or_introl eq_refl)))
      as (r1 & S1 & r2 & R1 & E1 & E2).
    destruct (Hrec x Rc lg _ _ _ _ E1 E2)
      as (o1 & R1' & evs1 & Hrun1 & Hev1 & Hret1 & Htot1).
    cbn [for_each]. unfold bind. rewrite Hrun1.
    assert (Hne : forall y, In y l -> y <> x).
    { intros y Hy ->. contradiction. }
    destruct o1 as [[]|e1].
    + destruct (IH (set_entry x (Dir r2 R1') Rc) (lg ++ evs1))
        as (o & Rc' & evs & Hrun & Hun & Hevs & Hret & Htot).
      { intros y Hy. rewrite entry_set_entry_ne by (apply Hne, Hy).
        apply Hdir. right. exact Hy. }
      exists o, Rc', (evs1 ++ evs). rewrite Hrun, <- app_assoc.
      split; [reflexivity|]. split.
      { intros y Hy. rewrite Hun.
        - apply entry_set_entry_ne. intros ->. apply Hy. left. reflexivity.
        - intros Hy'. apply Hy. right. exact Hy'. }
      split.
      { apply Forall_app. split.
        - apply at_or_below_touches, Hev1.
        - apply touches_tail, Hevs. }
      split.
      { intros Ho z r1' S1' r2' R1'' [<-|Hz] Ez1 Ez2.
        - rewrite E1 in Ez1. rewrite E2 in Ez2.
          injection Ez1 as <- <-. injection Ez2 as <- <-.
          exists R1'. rewrite Hun, entry_set_entry_eq by exact Hx. auto.
        - rewrite <- (entry_set_entry_ne x (Dir r2 R1') Rc z) in Ez2
            by (apply Hne, Hz).
          eapply Hret; eassumption. }
      intros H. apply Htot. intros z s r Hz Es Er.
      rewrite entry_set_entry_ne in Er by (apply Hne, Hz).
      apply (H z); auto. right. exact Hz.
    + exists (Raise e1), (set_entry x (Dir r2 R1') Rc), evs1.
      split; [reflexivity|]. split.
      { intros y Hy. apply entry_set_entry_ne. intros ->. apply Hy.
        left. reflexivity. }
      split; [apply at_or_below_touches, Hev1|].
      split; [discriminate|].
      intros H. apply Htot1. apply (H x); auto. left. reflexivity.
Qed.

Lemma is_common_file_true k : is_common_file k = true <-> k = CommonFile.
Proof. destruct k; simpl; split; congruence. Qed.

Lemma is_common_dir_true k : is_common_dir k = true <-> k = CommonDir.
Proof. destruct k; simpl; split; congruence. Qed.

Lemma classify_entries_mismatch a b :
  type_mismatch a b -> classify_entries a b = CommonFunny.
Proof.
  intros (s & r & -> & -> & H). simpl.
  destruct (is_dir s), (is_dir r); simpl; congruence.
Qed.

Lemma classify_entries_same_digest a b :
  same_digest a b -> classify_entries a b = CommonFile.
Proof. intros (d1 & d2 & -> & -> & _). reflexivity. Qed.

(** One pass on the directory pair. *)
Lemma sync_pass_W R lg :
  exists o R' evs,
    sync_pass recurse source replica (W R lg) = (o, W R' (lg ++ evs)) /\
    kept replica S R R' evs /\
    (o = Return tt -> sync_result (Dir rs S) (Dir rr R) (Dir rr R')) /\
    (all_readable (Dir rs S) = true -> all_readable (Dir rr R) = true ->
     (forall x s r, entry S x = Some s -> entry R x = Some r ->
        is_dir s = true -> is_dir r = true -> total s r) ->
     o = Return tt).
Proof.
  set (c1 := compare_lists (map fst S) (map fst R)).
  assert (Hl1 : forall n, In n (left_only c1) <->
            entry S n <> None /\ mem n skip = false /\ entry R n = None).
  { intros n. unfold c1.
    rewrite In_left_only, <- entry_In_names, <- entry_None_names.
    reflexivity. }
  assert (Hl2 : forall n, In n (right_only c1) <->
            entry R n <> None /\ mem n skip = false /\ entry S n = None).
  { intros n. unfold c1.
    rewrite In_right_only, <- entry_In_names, <- entry_None_names.
    reflexivity. }
  assert (Hc : forall n, In n (common c1) <->
            entry S n <> None /\ entry R n <> None /\ mem n skip = false).
  { intros n. unfold c1. rewrite In_common, <- !entry_In_names. reflexivity. }
  destruct (NoDup_compare_lists (map fst S) (map fst R)) as (Hndc & Hnd1 & Hnd2).
  fold c1 in Hndc, Hnd1, Hnd2.
  assert (Hu1 : forall n, untouched S R n -> ~ In n (left_only c1)).
  { intros n Hu Hn. apply Hl1 in Hn as (Hs & Hk & Hr).
    destruct Hu as [Hu|[(s & r & _ & Er & _)|(d1 & d2 & _ & Er & _)]];
      congruence. }
  assert (Hu2 : forall n, untouched S R n -> ~ In n (right_only c1)).
  { intros n Hu Hn. apply Hl2 in Hn as (Hr & Hk & Hs).
    destruct Hu as [Hu|[(s & r & Es & _ & _)|(d1 & d2 & Es & _ & _)]];
      congruence. }
  unfold sync_pass, bind at 1. rewrite phase1_W.
  destruct (negb rs) eqn:Ers.
  { exists (Raise (PermissionError source)), R, []. rewrite app_nil_r.
    split; [reflexivity|]. split.
    { intros n _. split; [reflexivity | constructor]. }
    split; [discriminate|]. intros H. rewrite all_readable_Dir in H.
    apply negb_true_iff in Ers. rewrite Ers in H. discriminate. }
  destruct (negb rr) eqn:Err.
  { exists (Raise (PermissionError replica)), R, []. rewrite app_nil_r.
    split; [reflexivity|]. split.
    { intros n _. split; [reflexivity | constructor]. }
    split; [discriminate|]. intros _ H. rewrite all_readable_Dir in H.
    apply negb_true_iff in Err. rewrite Err in H. discriminate. }
  apply negb_false_iff in Ers, Err. fold c1.
  (* the copy loop *)
  destruct (copy_loop_W _ Hnd1 R lg)
    as (o1 & R1 & evs1 & Hrun1 & Hun1 & Hev1 & Hret1 & Htot1).
  { intros x Hx. apply Hl1 in Hx. tauto. }
  unfold bind at 1. rewrite Hrun1.
  assert (Hk1 : kept replica S R R1 evs1).
  { intros n Hu. split; [apply Hun1, Hu1, Hu|].
    eapply touches_other; [apply Hu1, Hu | exact Hev1]. }
  assert (HT1 : all_readable (Dir rs S) = true -> o1 = Return tt).
  { intros Hr. rewrite all_readable_Dir in Hr.
    apply andb_true_iff in Hr as [_ Hr]. apply Htot1. intros x Hx.
    apply Hl1 in Hx as (Hs & _).
    destruct (entry S x) as [s|] eqn:Es; [|congruence].
    exists s. split; [reflexivity|]. eapply all_readable_entry; eauto. }
  destruct o1 as [[]|e1].
  2:{ exists (Raise e1), R1, evs1. split; [reflexivity|].
      split; [exact Hk1|]. split; [discriminate|].
      intros Hr _ _. apply HT1, Hr. }
  specialize (Hret1 eq_refl). clear HT1 Htot1.
  (* the removal loop *)
  destruct (remove_loop_W _ Hnd2 R1 (lg ++ evs1))
    as (o2 & R2 & evs2 & Hrun2 & Hun2 & Hev2 & Hret2 & Htot2).
  unfold bind at 1. rewrite Hrun2, <- app_assoc.
  assert (Hk2 : kept replica S R R2 (evs1 ++ evs2)).
  { intros n Hu. destruct (Hk1 n Hu) as [E1 F1]. split.
    - rewrite Hun2 by (apply Hu2, Hu). exact E1.
    - apply Forall_app. split; [exact F1|].
      eapply touches_other; [apply Hu2, Hu | exact Hev2]. }
  assert (HT2 : all_readable (Dir rr R) = true -> o2 = Return tt).
  { intros Hr. rewrite all_readable_Dir in Hr.
    apply andb_true_iff in Hr as [_ Hr]. apply Htot2. intros x Hx.
    apply Hl2 in Hx as (HRx & _ & _).
    destruct (entry R x) as [r|] eqn:Er; [|congruence].
    exists r. split; [|eapply all_readable_entry; eauto].
    rewrite Hun1; [exact Er|]. intros Hx1.
    apply Hl1 in Hx1 as (_ & _ & Hx1). congruence. }
  destruct o2 as [[]|e2].
  2:{ exists (Raise e2), R2, (evs1 ++ evs2). split; [reflexivity|].
      split; [exact Hk2|]. split; [discriminate|].
      intros _ Hr _. apply HT2, Hr. }
  specialize (Hret2 eq_refl). clear HT2 Htot2.
  assert (HR2 : forall n, entry S n <> None -> entry R n <> None ->
            entry R2 n = entry R n).
  { intros n Hs Hr. rewrite Hun2, Hun1; [reflexivity| |].
    - intros H. apply Hl1 in H as (_ & _ & H). contradiction.
    - intros H. apply Hl2 in H as (_ & _ & H). contradiction. }
  (* phase 2 *)
  unfold bind at 1. rewrite phase2_W. cbn [common_files common_dirs].
  set (l3 := filter (fun x => is_common_file
                       (classify_entries (entry S x) (entry R2 x)))
                    (common c1)).
  set (l4 := filter (fun x => is_common_dir
                       (classify_entries (entry S x) (entry R2 x)))
                    (common c1)).
  assert (Hl3 : forall n, In n l3 <->
            In n (common c1) /\
            classify_entries (entry S n) (entry R n) = CommonFile).
  { intros n. unfold l3. rewrite filter_In, is_common_file_true.
    split; intros [Hn Hcl]; (split; [exact Hn|]);
      pose proof Hn as Hn'; apply Hc in Hn' as (Hs & Hr & _);
      rewrite HR2 in * by assumption; exact Hcl. }
  assert (Hl4 : forall n, In n l4 <->
            In n (common c1) /\
            classify_entries (entry S n) (entry R n) = CommonDir).
  { intros n. unfold l4. rewrite filter_In, is_common_dir_true.
    split; intros [Hn Hcl]; (split; [exact Hn|]);
      pose proof Hn as Hn'; apply Hc in Hn' as (Hs & Hr & _);
      rewrite HR2 in * by assumption; exact Hcl. }
  assert (Hu3 : forall n, untouched S R n ->
            ~ In n l3 \/ same_digest (entry S n) (entry R2 n)).
  { intros n [Hu|[Hu|Hu]].
    - left. intros H. apply Hl3 in H as [H _]. apply Hc in H.
      destruct H as (_ & _ & H). congruence.
    - left. intros H. apply Hl3 in H as [_ H].
      rewrite (classify_entries_mismatch _ _ Hu) in H. discriminate.
    - right. destruct Hu as (d1 & d2 & Es & Er & Hd).
      rewrite HR2 by congruence. exists d1, d2. auto. }
  assert (Hu4 : forall n, untouched S R n -> ~ In n l4).
  { intros n Hu H. apply Hl4 in H as [H Hcl].
    destruct Hu as [Hu|[Hu|Hu]].
    - apply Hc in H. destruct H as (_ & _ & H). congruence.
    - rewrite (classify_entries_mismatch _ _ Hu) in Hcl. discriminate.
    - rewrite (classify_entries_same_digest _ _ Hu) in Hcl. discriminate. }
  (* the update loop *)
  destruct (update_loop_W l3 (NoDup_filter _ Hndc : NoDup l3) R2 (lg ++ evs1 ++ evs2))
    as (o3 & R3 & evs3 & Hrun3 & Hun3 & Hev3 & Hret3 & Htot3).
  { intros x Hx. apply filter_In in Hx as [_ Hx].
    apply is_common_file_true, Hx. }
  fold l3 in Hrun3, Hun3, Hev3, Hret3, Htot3.
  unfold bind at 1. rewrite Hrun3, <- !app_assoc.
  assert (Hk3 : kept replica S R R3 (evs1 ++ evs2 ++ evs3)).
  { intros n Hu. destruct (Hk2 n Hu) as [E2 F2]. split.
    - rewrite Hun3 by (apply Hu3, Hu). exact E2.
    - rewrite app_assoc. apply Forall_app. split; [exact F2|].
      eapply Forall_impl; [|exact Hev3]. intros e (x & Hx & Hnot & Hp).
      eapply prefixb_other; [exact Hp|]. intros ->.
      destruct (Hu3 x Hu); contradiction. }
  assert (HT3 : all_readable (Dir rs S) = true ->
                all_readable (Dir rr R) = true -> o3 = Return tt).
  { intros HrS HrR. rewrite all_readable_Dir in HrS, HrR.
    apply andb_true_iff in HrS as [_ HrS].
    apply andb_true_iff in HrR as [_ HrR].
    apply Htot3. intros x n Hx Hn. apply Hl3 in Hx as [Hx _].
    apply Hc in Hx as (Hs & Hr & _). rewrite HR2 in Hn by assumption.
    destruct Hn as [Hn|Hn];
      (eapply all_readable_entry; [|exact Hn]; assumption). }
  destruct o3 as [[]|e3].
  2:{ exists (Raise e3), R3, (evs1 ++ evs2 ++ evs3). split; [reflexivity|].
      split; [exact Hk3|]. split; [discriminate|].
      intros HrS HrR _. apply HT3; assumption. }
  specialize (Hret3 eq_refl). clear HT3 Htot3.
  assert (HR3 : forall n, In n l4 -> entry R3 n = entry R n).
  { intros n Hn. pose proof Hn as Hn'. apply Hl4 in Hn' as [Hcm Hcl].
    apply Hc in Hcm as (Hs & Hr & _).
    rewrite Hun3; [apply HR2; assumption|].
    left. intros H. apply Hl3 in H as [_ H]. congruence. }
  (* the recursion loop *)
  destruct (recurse_loop_W l4 (NoDup_filter _ Hndc : NoDup l4) R3
              (lg ++ evs1 ++ evs2 ++ evs3))
    as (o4 & R4 & evs4 & Hrun4 & Hun4 & Hev4 & Hret4 & Htot4).
  { intros x Hx. fold l4 in Hx. rewrite (HR3 x Hx).
    apply Hl4 in Hx as [_ Hx]. exact Hx. }
  fold l4 in Hrun4, Hun4, Hev4, Hret4, Htot4.
  rewrite Hrun4, <- !app_assoc.
  exists o4, R4, (evs1 ++ evs2 ++ evs3 ++ evs4).
  split; [reflexivity|]. split.
  { intros n Hu. destruct (Hk3 n Hu) as [E3 F3]. split.
    - rewrite Hun4 by (apply Hu4, Hu). exact E3.
    - rewrite !app_assoc. apply Forall_app. split.
      + rewrite <- app_assoc. exact F3.
      + eapply touches_other; [apply Hu4, Hu | exact Hev4]. }
  split.
  - intros ->. specialize (Hret4 eq_refl). rewrite Ers, Err.
    assert (Hdis : forall n, In n l3 -> In n l4 -> False).
    { intros n H3 H4. apply Hl3 in H3 as [_ H3]. apply Hl4 in H4 as [_ H4].
      congruence. }
    assert (Hout : forall n, ~ In n (common c1) ->
              entry R4 n = entry R2 n).
    { intros n Hn. rewrite Hun4, Hun3; [reflexivity| |].
      - left. intros H. apply Hl3 in H as [H _]. contradiction.
      - intros H. apply Hl4 in H as [H _]. contradiction. }
    constructor.
    + intros n Hk. rewrite Hout, Hun2, Hun1; [reflexivity| | |].
      * intros H. apply Hl1 in H. destruct H as (_ & H & _). congruence.
      * intros H. apply Hl2 in H. destruct H as (_ & H & _). congruence.
      * intros H. apply Hc in H. destruct H as (_ & _ & H). congruence.
    + intros n Hk Hs. rewrite Hout.
      2:{ intros H. apply Hc in H. destruct H as (H & _). contradiction. }
      destruct (entry R n) as [r|] eqn:Er.
      * apply Hret2, Hl2. repeat split; congruence.
      * rewrite Hun2, Hun1; [exact Er| |].
        -- intros H. apply Hl1 in H. destruct H as (H & _). contradiction.
        -- intros H. apply Hl2 in H. destruct H as (H & _). congruence.
    + intros n s Hk Hs Hr.
      destruct (Hret1 n) as (s' & Es' & Hrd & E1).
      { apply Hl1. repeat split; congruence. }
      rewrite Hs in Es'. injection Es' as <-.
      rewrite Hout, Hun2; [auto| |].
      * intros H. apply Hl2 in H. destruct H as (_ & _ & H). congruence.
      * intros H. apply Hc in H. destruct H as (_ & H & _). contradiction.
    + intros n Hk Hm.
      assert (Hu : untouched S R n) by (right; left; exact Hm).
      rewrite Hun4 by (apply Hu4, Hu). apply Hk3, Hu.
    + intros n r1 d1 r2 d2 Hk Hs Hr.
      assert (Hn3 : In n l3).
      { apply Hl3. split; [apply Hc; repeat split; congruence|].
        rewrite Hs, Hr. reflexivity. }
      assert (Hr2 : entry R2 n = Some (File r2 d2)).
      { rewrite HR2; congruence. }
      destruct (Hret3 n r1 d1 r2 d2 Hn3 Hs Hr2) as (-> & -> & E3).
      rewrite Hun4; [auto|]. intros H. exact (Hdis n Hn3 H).
    + intros n r1 S1 r2 Rn Hk Hs Hr.
      assert (Hn4 : In n l4).
      { apply Hl4. split; [apply Hc; repeat split; congruence|].
        rewrite Hs, Hr. reflexivity. }
      apply (Hret4 n r1 S1 r2 Rn Hn4 Hs). rewrite HR3; assumption.
  - intros HrS HrR Htotal. apply Htot4. intros x s r Hx Es Er.
    rewrite (HR3 x Hx) in Er. apply Hl4 in Hx as [_ Hx].
    rewrite Es, Er in Hx.
    destruct (classify_entries_dir _ _ Hx) as (r1 & e1 & r2 & e2 & E1 & E2).
    injection E1 as ->. injection E2 as ->.
    apply (Htotal x _ _ Es Er); reflexivity.
Qed.

(** *** A pair that is already in sync *)




(** *** A pair in sync but for one entry *)






End Pass.

(** ** A whole call on a pair of directories *)

Lemma height_Dir r es : height (Dir r es) = Datatypes.S (max_height es).
Proof.
  simpl. f_equal. induction es as [|[x c] es IH]; simpl; [reflexivity|].
  rewrite IH. reflexivity.
Qed.

Lemma height_entry es x n :
  entry es x = Some n -> height n <= max_height es.
Proof.
  induction es as [|[y c] es IH]; simpl; [discriminate|].
  destruct (String.eqb x y).
  - intros E. injection E as <-. apply Nat.le_max_l.
  - intros E. etransitivity; [apply IH, E | apply Nat.le_max_r].
Qed.

Lemma world_replica_world fs0 replica rr R lg :
  lookup fs0 replica = Some (Dir rr R) ->
  World fs0 lg = replica_world fs0 replica rr R lg.
Proof.
  intros H. unfold replica_world. rewrite modify_id by exact H. reflexivity.
Qed.

Lemma emitted_events A (c : M A) w (P : event -> Prop) o w' lg evs :
  emits c w (Forall P) -> c w = (o, w') -> log w = lg ->
  log w' = lg ++ evs -> Forall P evs.
Proof.
  intros (evs' & Hlog & Hall) Hrun <- Hlog'. rewrite Hrun in Hlog.
  simpl in Hlog. rewrite Hlog' in Hlog. apply app_inv_head in Hlog.
  subst evs'. exact Hall.
Qed.

(** What a call of [sync_folders] does on a pair of disjoint directories:
    the file system afterwards is the one before with new contents [R'] of
    the replica directory, whatever the outcome; entries with nothing to
    do are kept; a normal return leaves a [sync_result]; and the call
    returns normally under [call_total]. *)
Lemma sync_folders_W fuel : forall fs0 source replica rs S rr R lg,
  disjoint source replica ->
  lookup fs0 source = Some (Dir rs S) ->
  lookup fs0 replica = Some (Dir rr R) ->
  exists o R' evs,
    sync_folders fuel source replica (World fs0 lg) =
      (o, replica_world fs0 replica rr R' (lg ++ evs)) /\
    kept replica S R R' evs /\
    Forall (at_or_below replica) evs /\
    (o = Return tt -> sync_result (Dir rs S) (Dir rr R) (Dir rr R')) /\
    (call_total fuel (Dir rs S) (Dir rr R) -> o = Return tt).
Proof.
  induction fuel as [|fuel IH]; intros fs0 source replica rs S rr R lg Hd Hs Hr.
  - exists (Raise RecursionError), R, []. rewrite app_nil_r.
    rewrite <- (world_replica_world _ _ _ _ _ Hr).
    split; [reflexivity|]. split.
    { intros n _. split; [reflexivity | constructor]. }
    split; [constructor|]. split; [discriminate|].
    intros (_ & _ & H). rewrite height_Dir in H. lia.
  - assert (Hrep : lookup fs0 replica <> None) by congruence.
    assert (Hrec : forall x Rc lg r1 S1 r2 R1,
              entry S x = Some (Dir r1 S1) -> entry Rc x = Some (Dir r2 R1) ->
              exists o R1' evs,
                sync_folders fuel (join source x) (join replica x)
                  (replica_world fs0 replica rr Rc lg) =
                  (o, replica_world fs0 replica rr
                        (set_entry x (Dir r2 R1') Rc) (lg ++ evs)) /\
                Forall (at_or_below (join replica x)) evs /\
                (o = Return tt ->
                 sync_result (Dir r1 S1) (Dir r2 R1) (Dir r2 R1')) /\
                (call_total fuel (Dir r1 S1) (Dir r2 R1) -> o = Return tt)).
    { intros x Rc lg' r1 S1 r2 R1 E1 E2.
      destruct (IH (fs (replica_world fs0 replica rr Rc lg'))
                   (join source x) (join replica x) r1 S1 r2 R1 lg')
        as (o & R1' & evs & Hrun & _ & Hev & Hret & Htot).
      - apply disjoint_app_l, disjoint_app_r, Hd.
      - rewrite (W_source_entry fs0 source replica rs S rr Hd Hs). exact E1.
      - rewrite (W_replica_entry fs0 replica rr Hrep). exact E2.
      - exists o, R1', evs. split; [|auto].
        change (replica_world fs0 replica rr Rc lg')
          with (World (fs (replica_world fs0 replica rr Rc lg')) lg').
        rewrite Hrun. unfold replica_world at 1. f_equal.
        rewrite (W_child fs0 replica rr Rc lg' x _ _ E2).
        reflexivity. }
    destruct (sync_pass_W fs0 source replica rs S rr Hd Hs Hrep
                (sync_folders fuel) (call_total fuel) Hrec R lg)
      as (o & R' & evs & Hrun & Hk & Hret & Htot).
    assert (Hrun' : sync_folders (Datatypes.S fuel) source replica (World fs0 lg) =
                    (o, replica_world fs0 replica rr R' (lg ++ evs))).
    { cbn [sync_folders]. unfold bind.
      rewrite (world_replica_world _ _ _ _ _ Hr).
      rewrite (ensure_replica_W fs0 replica rr Hrep). exact Hrun. }
    exists o, R', evs. split; [exact Hrun'|]. split; [exact Hk|]. split.
    { eapply emitted_events;
        [apply sync_folders_events | exact Hrun' | reflexivity | reflexivity].
      simpl. congruence. }
    split; [exact Hret|].
    intros (HrS & HrR & Hh). apply Htot; try assumption.
    intros x s r Es Er _ _.
    rewrite all_readable_Dir in HrS, HrR.
    apply andb_true_iff in HrS as [_ HrS].
    apply andb_true_iff in HrR as [_ HrR].
    rewrite height_Dir in Hh.
    repeat split.
    + exact (all_readable_entry _ _ _ HrS Es).
    + exact (all_readable_entry _ _ _ HrR Er).
    + apply height_entry in Es. lia.
Qed.

(** ** Entries a call leaves alone *)

Lemma sync_folders_keeps fuel fs0 source replica rs S rr R lg n :
  disjoint source replica ->
  lookup fs0 source = Some (Dir rs S) ->
  lookup fs0 replica = Some (Dir rr R) ->
  untouched S R n ->
  exists o w' evs,
    sync_folders fuel source replica (World fs0 lg) = (o, w') /\
    lookup (fs w') (join replica n) = entry R n /\
    lookup (fs w') (join source n) = entry S n /\
    log w' = lg ++ evs /\
    Forall (fun e => prefixb (join replica n) (target e) = false) evs.
Proof.
  intros Hd Hs Hr Hu.
  destruct (sync_folders_W fuel fs0 source replica rs S rr R lg Hd Hs Hr)
    as (o & R' & evs & Hrun & Hk & _).
  assert (Hrep : lookup fs0 replica <> None) by congruence.
  exists o, (replica_world fs0 replica rr R' (lg ++ evs)), evs.
  destruct (Hk n Hu) as [E F].
  split; [exact Hrun|]. split.
  { rewrite (W_replica_entry fs0 replica rr Hrep). exact E. }
  split.
  { apply (W_source_entry fs0 source replica rs S rr Hd Hs). }
  split; [reflexivity | exact F].
Qed.

(** C3 (as amended).  A name that is a file in one directory of the pair
    and a directory in the other is left alone by [sync_folders]: [dircmp]
    puts it in [common_funny], which the program never reads.  Whatever
    the outcome of the call, the replica entry keeps its own type and
    contents, the source entry is unchanged, and no action is logged for
    the entry or for anything below it. *)
Theorem type_mismatch_left_alone fuel fs0 source replica rs S rr R lg n s r :
  disjoint source replica ->
  lookup fs0 source = Some (Dir rs S) ->
  lookup fs0 replica = Some (Dir rr R) ->
  entry S n = Some s -> entry R n = Some r -> is_dir s <> is_dir r ->
  exists o w' evs,
    sync_folders fuel source replica (World fs0 lg) = (o, w') /\
    lookup (fs w') (join replica n) = Some r /\
    lookup (fs w') (join source n) = Some s /\
    log w' = lg ++ evs /\
    Forall (fun e => prefixb (join replica n) (target e) = false) evs.
Proof.
  intros Hd Hs Hr Es Er Hne.
  destruct (sync_folders_keeps fuel fs0 source replica rs S rr R lg n Hd Hs Hr)
    as (o & w' & evs & H).
  { right. left. exists s, r. auto. }
  exists o, w', evs. rewrite <- Es, <- Er. exact H.
Qed.

(** C5.  On two readable files, [files_are_different] returns [true]
    exactly when the MD5 digests of their whole contents differ, and it
    changes nothing.  In a call of [sync_folders], a common file whose
    digest equals the source's is left untouched: whatever the outcome of
    the call, the replica file is as before and no action (in particular
    no update) is logged for it. *)
Theorem files_are_different_digests :
  (forall src_path dest_path w d1 d2,
     lookup (fs w) src_path = Some (File true d1) ->
     lookup (fs w) dest_path = Some (File true d2) ->
     exists diff,
       files_are_different src_path dest_path w = (Return diff, w) /\
       (diff = true <-> MD5.hexdigest d1 <> MD5.hexdigest d2)) /\
  (forall fuel fs0 source replica rs S rr R lg n d1 d2,
     disjoint source replica ->
     lookup fs0 source = Some (Dir rs S) ->
     lookup fs0 replica = Some (Dir rr R) ->
     entry S n = Some (File true d1) ->
     entry R n = Some (File true d2) ->
     MD5.hexdigest d1 = MD5.hexdigest d2 ->
     exists o w' evs,
       sync_folders fuel source replica (World fs0 lg) = (o, w') /\
       lookup (fs w') (join replica n) = Some (File true d2) /\
       log w' = lg ++ evs /\
       Forall (fun e => target e <> join replica n) evs).
Proof.
  split.
  - intros src_path dest_path w d1 d2 H1 H2.
    exists (negb (String.eqb (MD5.hexdigest d1) (MD5.hexdigest d2))).
    split; [apply files_are_different_readable; assumption|].
    rewrite negb_true_iff, String.eqb_neq. reflexivity.
  - intros fuel fs0 source replica rs S rr R lg n d1 d2 Hd Hs Hr Es Er Hmd5.
    destruct (sync_folders_keeps fuel fs0 source replica rs S rr R lg n
                Hd Hs Hr)
      as (o & w' & evs & Hrun & Hrep & _ & Hlog & Hev).
    { right. right. exists d1, d2. auto. }
    exists o, w', evs. rewrite <- Er. repeat split; try assumption.
    eapply Forall_impl; [|exact Hev]. intros e He Ht.
    cbv beta in He. rewrite Ht, prefixb_refl in He. discriminate.
Qed.


(** ** Convergence *)






(** ** Idempotence *)







(** ** Concrete trees *)



(** C3, counterexample.  [x] is a file in the source and a directory in
    the replica; the call returns normally and leaves the replica's [x] a
    directory with its old contents, reporting nothing. *)
Lemma type_mismatch_counterexample :
  sync_folders 10 ["src"] ["rep"] (World stale_dir_fs []) =
    (Return tt, World stale_dir_fs []) /\
  lookup stale_dir_fs ["src"; "x"] = Some (file "fresh") /\
  lookup stale_dir_fs ["rep"; "x"] =
    Some (Dir true [("old.txt", file "old")]).
Proof. vm_compute. repeat split; reflexivity. Qed.

(** C7, failing input.  The pair is converged but for the new source file
    [tags], a name of [dircmp]'s default ignore list: the call returns
    normally, copies nothing and reports nothing. *)
Theorem added_file_tags_not_created :
  lookup tags_fs ["src"; "tags"] = Some (file "index") /\
  lookup tags_fs ["rep"; "tags"] = None /\
  sync_folders 10 ["src"] ["rep"] (World tags_fs []) =
    (Return tt, World tags_fs []).
Proof. vm_compute. repeat split; reflexivity. Qed.

(** ** The theorems at concrete trees *)



Lemma type_mismatch_left_alone_witness :
  (disjoint ["src"] ["rep"] /\
   is_dir (file "fresh") <> is_dir (Dir true [("old.txt", file "old")])) /\
  exists o w' evs,
    sync_folders 10 ["src"] ["rep"] (World stale_dir_fs []) = (o, w') /\
    lookup (fs w') (join ["rep"] "x") =
      Some (Dir true [("old.txt", file "old")]) /\
    lookup (fs w') (join ["src"] "x") = Some (file "fresh") /\
    log w' = [] ++ evs /\
    Forall (fun e => prefixb (join ["rep"] "x") (target e) = false) evs.
Proof.
  split.
  - split; [split; reflexivity | discriminate].
  - eapply (type_mismatch_left_alone 10 stale_dir_fs ["src"] ["rep"]
             true _ true _ [] "x").
    + split; reflexivity.
    + reflexivity.
    + reflexivity.
    + reflexivity.
    + reflexivity.
    + discriminate.
Defined.


Lemma files_are_different_digests_witness :
  (exists diff,
     files_are_different ["src"; "docs"; "a.txt"] ["rep"; "docs"; "a.txt"]
       (World demo_fs []) = (Return diff, World demo_fs []) /\
     (diff = true <-> MD5.hexdigest (b "alpha") <> MD5.hexdigest (b "stale")))
  /\
  (MD5.hexdigest (b "hello") = MD5.hexdigest (b "hello") /\
   exists o w' evs,
     sync_folders 10 ["src"] ["rep"] (World demo_fs []) = (o, w') /\
     lookup (fs w') (join ["rep"] "f1.txt") = Some (File true (b "hello")) /\
     log w' = [] ++ evs /\
     Forall (fun e => target e <> join ["rep"] "f1.txt") evs).
Proof.
  split.
  - apply (proj1 files_are_different_digests); reflexivity.
  - split; [reflexivity|].
    eapply (proj2 files_are_different_digests 10 demo_fs ["src"] ["rep"]
             true _ true _ [] "f1.txt" (b "hello") (b "hello")).
    + split; reflexivity.
    + reflexivity.
    + reflexivity.
    + reflexivity.
    + reflexivity.
    + reflexivity.
Defined.

Lemma sync_folders_creates_replica_first_witness :
  lookup fresh_fs ["out"; "rep"] = None /\
  lookup (fs (snd (ensure_replica ["out"; "rep"] (World fresh_fs []))))
         ["out"; "rep"] = Some (Dir true []) /\
  log (snd (ensure_replica ["out"; "rep"] (World fresh_fs []))) =
    [CreatedDirectory ["out"; "rep"]] /\
  sync_folders 3 ["src"] ["out"; "rep"] (World fresh_fs []) =
    sync_pass (sync_folders 2) ["src"] ["out"; "rep"]
      (snd (ensure_replica ["out"; "rep"] (World fresh_fs []))).
Proof.
  split; [reflexivity|].
  pose proof (sync_folders_creates_replica_first 2 ["src"] ["out"; "rep"]
                (World fresh_fs []) eq_refl) as H.
  destruct (ensure_replica ["out"; "rep"] (World fresh_fs []))
    as [[[]|e] w1] eqn:E.
  - destruct H as (H1 & _ & H3 & H4). cbn [snd].
    split; [exact H1|]. split; [exact H3 | exact H4].
  - vm_compute in E. discriminate E.
Defined.


Lemma calculate_md5_chunk_independent_witness :
  0 < 3 /\
  calculate_md5 ["src"; "f1.txt"] (World demo_fs []) =
    md5_in_one_piece ["src"; "f1.txt"] (World demo_fs []) /\
  calculate_md5_chunked 3 ["src"; "f1.txt"] (World demo_fs []) =
    calculate_md5 ["src"; "f1.txt"] (World demo_fs []) /\
  forall src_path dest_path,
    files_are_different_chunked 3 src_path dest_path (World demo_fs []) =
    files_are_different src_path dest_path (World demo_fs []).
Proof.
  split; [lia|]. apply calculate_md5_chunk_independent. lia.
Defined.

(* ===================================================================== *)
(** * Further properties of the program *)
(* ===================================================================== *)

(** ** The content test *)

Lemma calculate_md5_outcome file_path w :
  calculate_md5 file_path w =
  (match lookup (fs w) file_path with
   | Some (File true d) => Return (MD5.hexdigest d)
   | Some (File false _) => Raise (PermissionError file_path)
   | Some (Dir _ _) => Raise (IsADirectoryError file_path)
   | None => Raise (FileNotFoundError file_path)
   end, w).
Proof.
  rewrite calculate_md5_whole. unfold md5_in_one_piece, open_rb, bind, get_fs.
  destruct (lookup (fs w) file_path) as [[[] d|r es]|]; reflexivity.
Qed.

(** [files_are_different] only reads: whatever its outcome, the file
    system and the log are as before.  It hashes the source file first:
    when the source cannot be opened the call ends with the source's
    exception, whatever the replica path holds; when the source can be
    opened and the replica file cannot, it ends with the replica's. *)
Theorem files_are_different_failure src_path dest_path w :
  snd (files_are_different src_path dest_path w) = w /\
  (forall e,
     open_error src_path (lookup (fs w) src_path) = Some e ->
     fst (files_are_different src_path dest_path w) = Raise e) /\
  (forall e,
     open_error src_path (lookup (fs w) src_path) = None ->
     open_error dest_path (lookup (fs w) dest_path) = Some e ->
     fst (files_are_different src_path dest_path w) = Raise e).
Proof.
  unfold files_are_different, bind. rewrite calculate_md5_outcome.
  destruct (lookup (fs w) src_path) as [[[] d1|r1 e1]|];
    try (split; [reflexivity|]; split; intros e H; cbn in H;
         [injection H as <-; reflexivity | discriminate]).
  rewrite calculate_md5_outcome.
  destruct (lookup (fs w) dest_path) as [[[] d2|r2 e2]|];
    (split; [reflexivity|]); (split; [discriminate|]); intros e _ H;
    cbn in H; try discriminate; injection H as <-; reflexivity.
Qed.

(** The content test is symmetric in its two files whenever it returns,
    and it never reports a file as different from itself. *)
Theorem files_are_different_symmetric p q w :
  (forall diff,
     fst (files_are_different p q w) = Return diff <->
     fst (files_are_different q p w) = Return diff) /\
  fst (files_are_different p p w) <> Return true.
Proof.
  unfold files_are_different, bind. rewrite !calculate_md5_outcome.
  destruct (lookup (fs w) p) as [[[] d1|r1 e1]|] eqn:Ep;
    destruct (lookup (fs w) q) as [[[] d2|r2 e2]|] eqn:Eq;
    rewrite ?calculate_md5_outcome, ?Ep, ?Eq; cbn [fst ret];
    (split; [intros diff; split; intros H; try discriminate H|]);
    try discriminate.
  - rewrite String.eqb_sym. exact H.
  - rewrite String.eqb_sym. exact H.
  - rewrite String.eqb_refl. discriminate.
  - rewrite String.eqb_refl. discriminate.
  - rewrite String.eqb_refl. discriminate.
  - rewrite String.eqb_refl. discriminate.
Qed.

(** ** The comparison *)

Lemma NoDup_app_disjoint A (l1 l2 : list A) :
  NoDup l1 -> NoDup l2 -> (forall x, In x l1 -> ~ In x l2) -> NoDup (l1 ++ l2).
Proof.
  induction l1 as [|a l1 IH]; intros H1 H2 Hd; simpl; [exact H2|].
  inversion H1; subst. constructor.
  - rewrite in_app_iff. intros [H|H]; [contradiction|].
    apply (Hd a); [left; reflexivity | exact H].
  - apply IH; [assumption | assumption |].
    intros x Hx. apply Hd. right. exact Hx.
Qed.

(** The lists [dircmp] computes for two directory listings: a name is in
    [left_only], [right_only] or [common] exactly when it is not one of
    the ignored or hidden names and is listed on the left only, on the
    right only, or on both sides; no name occurs twice in the three lists
    taken together.  An ignored name is in none of them. *)
Theorem dircmp_lists_partition ll rl :
  (forall x, In x (left_only (compare_lists ll rl)) <->
             In x ll /\ mem x skip = false /\ ~ In x rl) /\
  (forall x, In x (right_only (compare_lists ll rl)) <->
             In x rl /\ mem x skip = false /\ ~ In x ll) /\
  (forall x, In x (common (compare_lists ll rl)) <->
             In x ll /\ In x rl /\ mem x skip = false) /\
  NoDup (left_only (compare_lists ll rl) ++
         right_only (compare_lists ll rl) ++
         common (compare_lists ll rl)).
Proof.
  split; [intros x; apply In_left_only|].
  split; [intros x; apply In_right_only|].
  split; [intros x; apply In_common|].
  destruct (NoDup_compare_lists ll rl) as (Hc & Hl & Hr).
  apply NoDup_app_disjoint; [exact Hl | |].
  - apply NoDup_app_disjoint; [exact Hr | exact Hc |].
    intros x Hx Hx'. apply In_right_only in Hx. apply In_common in Hx'.
    tauto.
  - intros x Hx Hx'. apply In_left_only in Hx.
    apply in_app_iff in Hx' as [Hx'|Hx'].
    + apply In_right_only in Hx'. tauto.
    + apply In_common in Hx'. tauto.
Qed.

(** ** The first lines of a call *)

Lemma ensure_replica_run replica w :
  ensure_replica replica w =
  match lookup (fs w) replica with
  | Some _ => (Return tt, w)
  | None =>
      match mkdirs (fs w) replica with
      | Some t' => (Return tt, World t' (log w ++ [CreatedDirectory replica]))
      | None => (Raise (NotADirectoryError replica), w)
      end
  end.
Proof.
  unfold ensure_replica, os_path_exists, os_makedirs, bind, get_fs, ret,
    set_fs, log_and_print, raise.
  destruct (lookup (fs w) replica) eqn:E; cbn [negb]; [reflexivity|].
  rewrite E. destruct (mkdirs (fs w) replica); reflexivity.
Qed.

Lemma sync_folders_unfold fuel source replica w :
  sync_folders (S fuel) source replica w =
  match ensure_replica replica w with
  | (Return _, w1) => sync_pass (sync_folders fuel) source replica w1
  | (Raise e, w1) => (Raise e, w1)
  end.
Proof. reflexivity. Qed.

Lemma ensure_replica_frame replica q w :
  disjoint replica q ->
  lookup (fs (snd (ensure_replica replica w))) q = lookup (fs w) q.
Proof.
  intros Hd. rewrite ensure_replica_run.
  destruct (lookup (fs w) replica); [reflexivity|].
  destruct (mkdirs (fs w) replica) as [t'|] eqn:Em; [|reflexivity].
  cbn [snd fs]. exact (lookup_mkdirs_frame _ _ _ _ Hd Em).
Qed.

(** When the source cannot be listed (it is missing, a file, or an
    unreadable directory), a call ends with the exception of the listing,
    and all it has done before is to create the replica directory when
    that was missing.  The comparison is made after the replica has been
    ensured, so a failing source still leaves a new, empty replica. *)
Theorem sync_folders_unlistable_source fuel source replica w e :
  disjoint source replica ->
  listdir_error source (lookup (fs w) source) = Some e ->
  sync_folders (S fuel) source replica w =
  match ensure_replica replica w with
  | (Return _, w1) => (Raise e, w1)
  | (Raise e', w1) => (Raise e', w1)
  end.
Proof.
  intros Hd He. rewrite sync_folders_unfold.
  pose proof (ensure_replica_frame replica source w (disjoint_sym _ _ Hd)) as Hf.
  destruct (ensure_replica replica w) as [[[]|e'] w1]; [|reflexivity].
  cbn [snd] in Hf. unfold sync_pass, bind at 1.
  rewrite dircmp_phase1_run, Hf.
  destruct (lookup (fs w) source) as [[r d|[] es]|]; cbn in He;
    try discriminate; injection He as <-;
    destruct (lookup (fs w1) replica) as [[r' d'|[] es']|]; reflexivity.
Qed.



(** ** One change in a converged pair *)










(** ** The further properties at concrete trees *)

Lemma sync_folders_unlistable_source_witness :
  (disjoint ["nowhere"] ["out"; "rep"] /\
   listdir_error ["nowhere"] (lookup fresh_fs ["nowhere"]) =
     Some (FileNotFoundError ["nowhere"])) /\
  sync_folders 3 ["nowhere"] ["out"; "rep"] (World fresh_fs []) =
  match ensure_replica ["out"; "rep"] (World fresh_fs []) with
  | (Return _, w1) => (Raise (FileNotFoundError ["nowhere"]), w1)
  | (Raise e', w1) => (Raise e', w1)
  end.
Proof.
  split.
  - split; [split; reflexivity | reflexivity].
  - apply (sync_folders_unlistable_source 2 ["nowhere"] ["out"; "rep"]
             (World fresh_fs []) (FileNotFoundError ["nowhere"])).
    + split; reflexivity.
    + reflexivity.
Defined.





(* ===================================================================== *)
(** * The log file *)
(* ===================================================================== *)

(** ** Names made of time stamps *)

Lemma ascii_compare_refl c : Ascii.compare c c = Eq.
Proof. unfold Ascii.compare. apply N.compare_refl. Qed.

Lemma string_compare_refl s : String.compare s s = Eq.
Proof.
  induction s as [|c s IH]; cbn [String.compare]; [reflexivity|].
  rewrite ascii_compare_refl. exact IH.
Qed.

Lemma digit_compare x y :
  x < 10 -> y < 10 -> Ascii.compare (digit x) (digit y) = Nat.compare x y.
Proof.
  intros Hx Hy.
  do 10 (destruct x as [|x];
         [do 10 (destruct y as [|y]; [reflexivity|]); lia|]).
  lia.
Qed.

Lemma compare_tens a c :
  Nat.compare a c =
  match Nat.compare (a / 10) (c / 10) with
  | Eq => Nat.compare (a mod 10) (c mod 10)
  | o => o
  end.
Proof.
  pose proof (Nat.div_mod_eq a 10) as Ea.
  pose proof (Nat.div_mod_eq c 10) as Ec.
  assert (Ha : a mod 10 < 10) by (apply Nat.mod_upper_bound; lia).
  assert (Hc : c mod 10 < 10) by (apply Nat.mod_upper_bound; lia).
  destruct (Nat.compare_spec (a / 10) (c / 10)) as [H|H|H].
  - destruct (Nat.compare_spec (a mod 10) (c mod 10)) as [H'|H'|H'].
    + apply Nat.compare_eq_iff. lia.
    + apply Nat.compare_lt_iff. lia.
    + apply Nat.compare_gt_iff. lia.
  - apply Nat.compare_lt_iff. lia.
  - apply Nat.compare_gt_iff. lia.
Qed.

Lemma compare_two_digits a c s t :
  a < 100 -> c < 100 ->
  String.compare (two_digits a ++ s) (two_digits c ++ t) =
  match Nat.compare a c with
  | Eq => String.compare s t
  | o => o
  end.
Proof.
  intros Ha Hc. unfold two_digits. cbn [append String.compare].
  assert (a / 10 < 10) by (apply Nat.Div0.div_lt_upper_bound; lia).
  assert (c / 10 < 10) by (apply Nat.Div0.div_lt_upper_bound; lia).
  assert (a mod 10 < 10) by (apply Nat.mod_upper_bound; lia).
  assert (c mod 10 < 10) by (apply Nat.mod_upper_bound; lia).
  rewrite !digit_compare by assumption. rewrite (compare_tens a c).
  destruct (Nat.compare (a / 10) (c / 10)); [|reflexivity..].
  destruct (Nat.compare (a mod 10) (c mod 10)); reflexivity.
Qed.

Lemma compare_same_prefix p s t :
  String.compare (p ++ s) (p ++ t) = String.compare s t.
Proof.
  induction p as [|c p IH]; cbn [append String.compare]; [reflexivity|].
  replace (Ascii.compare c c) with Eq; [exact IH|].
  symmetry. unfold Ascii.compare. apply N.compare_refl.
Qed.

Lemma string_app_assoc (s t u : string) : ((s ++ t) ++ u = s ++ (t ++ u))%string.
Proof.
  induction s as [|c s IH]; cbn [append]; [reflexivity|].
  rewrite IH. reflexivity.
Qed.

Lemma compare_strftime t1 t2 :
  valid_datetime t1 = true -> valid_datetime t2 = true ->
  String.compare (generate_logfile_name t1) (generate_logfile_name t2) =
  lexicographic
    [year t1 mod 100; month t1; day t1; hour t1; minute t1; second t1]
    [year t2 mod 100; month t2; day t2; hour t2; minute t2; second t2].
Proof.
  unfold valid_datetime. intros H1 H2.
  repeat (apply andb_true_iff in H1 as [H1 ?]).
  repeat (apply andb_true_iff in H2 as [H2 ?]).
  repeat match goal with
         | H : Nat.leb _ _ = true |- _ => apply Nat.leb_le in H
         | H : Nat.ltb _ _ = true |- _ => apply Nat.ltb_lt in H
         end.
  unfold generate_logfile_name. rewrite compare_same_prefix.
  unfold strftime. rewrite !string_app_assoc.
  cbn [lexicographic].
  rewrite compare_two_digits by (try apply Nat.mod_upper_bound; lia).
  destruct (Nat.compare (year t1 mod 100) (year t2 mod 100)); [|reflexivity..].
  rewrite compare_two_digits by lia.
  destruct (Nat.compare (month t1) (month t2)); [|reflexivity..].
  rewrite compare_two_digits by lia.
  destruct (Nat.compare (day t1) (day t2)); [|reflexivity..].
  rewrite (compare_same_prefix "_").
  rewrite compare_two_digits by lia.
  destruct (Nat.compare (hour t1) (hour t2)); [|reflexivity..].
  rewrite compare_two_digits by lia.
  destruct (Nat.compare (minute t1) (minute t2)); [|reflexivity..].
  rewrite compare_two_digits by lia.
  destruct (Nat.compare (second t1) (second t2)); reflexivity.
Qed.

Lemma year_century_compare t1 t2 :
  valid_datetime t1 = true -> valid_datetime t2 = true ->
  year t1 / 100 = year t2 / 100 ->
  String.compare (generate_logfile_name t1) (generate_logfile_name t2) =
  chronological t1 t2.
Proof.
  intros H1 H2 Hc. rewrite (compare_strftime t1 t2 H1 H2).
  unfold chronological. cbn [lexicographic].
  replace (Nat.compare (year t1 mod 100) (year t2 mod 100))
    with (Nat.compare (year t1) (year t2)); [reflexivity|].
  pose proof (Nat.div_mod_eq (year t1) 100) as E1.
  pose proof (Nat.div_mod_eq (year t2) 100) as E2.
  destruct (Nat.compare_spec (year t1 mod 100) (year t2 mod 100)) as [H|H|H].
  - apply Nat.compare_eq_iff. lia.
  - apply Nat.compare_lt_iff. lia.
  - apply Nat.compare_gt_iff. lia.
Qed.

Lemma lexicographic_Eq l1 : forall l2, lexicographic l1 l2 = Eq -> l1 = l2.
Proof.
  induction l1 as [|x l1 IH]; intros [|y l2]; cbn [lexicographic];
    try discriminate; [reflexivity|].
  destruct (Nat.compare x y) eqn:E; try discriminate.
  apply Nat.compare_eq_iff in E. intros H. rewrite (IH _ H), E. reflexivity.
Qed.

(** Within a century, the order of the names that [generate_logfile_name]
    makes is the order of the times they were made at: the comparison of
    two names as strings is the comparison of the two times.  In
    particular two names are equal exactly when the times agree to the
    second. *)
Theorem logfile_names_chronological t1 t2 :
  valid_datetime t1 = true -> valid_datetime t2 = true ->
  year t1 / 100 = year t2 / 100 ->
  String.compare (generate_logfile_name t1) (generate_logfile_name t2) =
    chronological t1 t2 /\
  (generate_logfile_name t1 = generate_logfile_name t2 <-> t1 = t2).
Proof.
  intros H1 H2 Hc.
  pose proof (year_century_compare t1 t2 H1 H2 Hc) as E.
  split; [exact E|]. split; [|intros ->; reflexivity].
  intros Hn. rewrite Hn, string_compare_refl in E. symmetry in E.
  apply lexicographic_Eq in E. destruct t1, t2. cbn in E.
  injection E as -> -> -> -> -> ->. reflexivity.
Qed.

(** The year is written without its century: a name made in a year whose
    last two digits are smaller sorts first, whichever time is the later
    one. *)
Theorem logfile_names_without_century t1 t2 :
  valid_datetime t1 = true -> valid_datetime t2 = true ->
  year t1 mod 100 < year t2 mod 100 ->
  String.compare (generate_logfile_name t1) (generate_logfile_name t2) = Lt.
Proof.
  intros H1 H2 Hy. rewrite (compare_strftime t1 t2 H1 H2).
  cbn [lexicographic]. apply Nat.compare_lt_iff in Hy. rewrite Hy.
  reflexivity.
Qed.

Lemma logfile_names_chronological_witness :
  (valid_datetime (Datetime 2024 12 31 23 59 59) = true /\
   valid_datetime (Datetime 2025 1 1 0 0 0) = true /\
   2024 / 100 = 2025 / 100) /\
  String.compare (generate_logfile_name (Datetime 2024 12 31 23 59 59))
                 (generate_logfile_name (Datetime 2025 1 1 0 0 0)) =
  chronological (Datetime 2024 12 31 23 59 59) (Datetime 2025 1 1 0 0 0).
Proof.
  split.
  - repeat split; reflexivity.
  - apply (proj1 (logfile_names_chronological
                    (Datetime 2024 12 31 23 59 59) (Datetime 2025 1 1 0 0 0)
                    eq_refl eq_refl eq_refl)).
Defined.

Lemma logfile_names_without_century_witness :
  (valid_datetime (Datetime 2100 1 1 0 0 0) = true /\
   valid_datetime (Datetime 2099 12 31 23 59 59) = true /\
   chronological (Datetime 2100 1 1 0 0 0) (Datetime 2099 12 31 23 59 59) = Gt) /\
  String.compare (generate_logfile_name (Datetime 2100 1 1 0 0 0))
                 (generate_logfile_name (Datetime 2099 12 31 23 59 59)) = Lt.
Proof.
  split.
  - repeat split; reflexivity.
  - apply logfile_names_without_century; [reflexivity | reflexivity |].
    cbn [year]. apply Nat.ltb_lt. reflexivity.
Defined.

(** ** The order of names *)

Lemma string_compare_Lt_trans s : forall t u,
  String.compare s t = Lt -> String.compare t u = Lt ->
  String.compare s u = Lt.
Proof.
  induction s as [|a s IH]; intros [|c t] [|e u]; cbn [String.compare];
    try discriminate; try reflexivity.
  destruct (Ascii.compare a c) eqn:Eac; destruct (Ascii.compare c e) eqn:Ece;
    try discriminate; intros H1 H2.
  - apply Ascii.compare_eq_iff in Eac, Ece. subst.
    rewrite ascii_compare_refl. exact (IH _ _ H1 H2).
  - apply Ascii.compare_eq_iff in Eac. subst. rewrite Ece. reflexivity.
  - apply Ascii.compare_eq_iff in Ece. subst. rewrite Eac. reflexivity.
  - unfold Ascii.compare in *. rewrite N.compare_lt_iff in *.
    replace (N_of_ascii a ?= N_of_ascii e)%N with Lt; [reflexivity|].
    symmetry. apply N.compare_lt_iff. lia.
Qed.

Lemma string_leb_refl s : String.leb s s = true.
Proof. unfold String.leb. rewrite string_compare_refl. reflexivity. Qed.

Lemma string_leb_trans s t u :
  String.leb s t = true -> String.leb t u = true -> String.leb s u = true.
Proof.
  unfold String.leb.
  destruct (String.compare s t) eqn:Est; try discriminate;
    destruct (String.compare t u) eqn:Etu; try discriminate; intros _ _.
  - apply String.compare_eq_iff in Est, Etu. subst.
    rewrite string_compare_refl. reflexivity.
  - apply String.compare_eq_iff in Est. subst. rewrite Etu. reflexivity.
  - apply String.compare_eq_iff in Etu. subst. rewrite Est. reflexivity.
  - rewrite (string_compare_Lt_trans _ _ _ Est Etu). reflexivity.
Qed.

Lemma insert_reverse_not_nil x l : insert_reverse x l <> [].
Proof. destruct l as [|y l]; simpl; [|destruct (String.leb y x)]; discriminate. Qed.

(** The first name of the list sorted in reverse is a greatest name of
    the list. *)
Lemma sort_reverse_hd l :
  l <> [] ->
  In (hd "" (sort_reverse l)) l /\
  forall f, In f l -> String.leb f (hd "" (sort_reverse l)) = true.
Proof.
  induction l as [|x l IH]; intros Hne; [contradiction|].
  cbn [sort_reverse fold_right]. fold (sort_reverse l).
  destruct l as [|y l].
  - cbn. split; [auto|]. intros f [<-|[]]. apply string_leb_refl.
  - destruct IH as [Hin Hmax]; [discriminate|].
    destruct (sort_reverse (y :: l)) as [|m rest] eqn:E.
    { exfalso. cbn [sort_reverse fold_right] in E.
      exact (insert_reverse_not_nil _ _ E). }
    cbn [hd] in Hin, Hmax. cbn [insert_reverse].
    destruct (String.leb m x) eqn:Hmx; cbn [hd].
    + split; [left; reflexivity|].
      intros f [<-|Hf]; [apply string_leb_refl|].
      exact (string_leb_trans _ _ _ (Hmax f Hf) Hmx).
    + split; [right; exact Hin|].
      intros f [<-|Hf]; [|exact (Hmax f Hf)].
      destruct (String.leb_total m x) as [H|H]; [congruence | exact H].
Qed.

(** ** The most recent log file *)

Lemma get_last_logfile_run cwd now w :
  get_last_logfile cwd now w =
  match lookup (fs w) (join cwd "logs") with
  | None =>
      match mkdirs (fs w) (join cwd "logs") with
      | Some t' => (Return (generate_logfile_name now), World t' (log w))
      | None => (Raise (NotADirectoryError (join cwd "logs")), w)
      end
  | Some (File _ _) => (Raise (NotADirectoryError (join cwd "logs")), w)
  | Some (Dir false _) => (Raise (PermissionError (join cwd "logs")), w)
  | Some (Dir true es) =>
      (Return
         (match filter is_log_file (map fst es) with
          | [] => generate_logfile_name now
          | _ :: _ =>
              os_path_join "logs"
                (hd "" (sort_reverse (filter is_log_file (map fst es))))
          end), w)
  end.
Proof.
  unfold get_last_logfile, os_path_exists, os_makedirs, os_listdir, bind,
    get_fs, set_fs, ret, raise.
  destruct (lookup (fs w) (join cwd "logs")) as [[r d|[] es]|] eqn:E;
    cbn [negb]; rewrite ?E; try reflexivity.
  - destruct (filter is_log_file (map fst es)); reflexivity.
  - destruct (mkdirs (fs w) (join cwd "logs")); reflexivity.
Qed.

Lemma os_path_join_logs f :
  startswith f "sync_log-" = true -> os_path_join "logs" f = ("logs/" ++ f)%string.
Proof.
  intros H. unfold os_path_join.
  destruct f as [|c f]; [discriminate|].
  unfold startswith in *. cbn [prefix] in H |- *.
  destruct (ascii_dec "s" c) as [<-|]; [|discriminate].
  destruct (ascii_dec "/" "s"); [discriminate | reflexivity].
Qed.

Lemma get_last_logfile_some cwd now w es f0 :
  lookup (fs w) (join cwd "logs") = Some (Dir true es) ->
  In f0 (map fst es) -> is_log_file f0 = true ->
  exists m, get_last_logfile cwd now w = (Return ("logs/" ++ m)%string, w) /\
            In m (map fst es) /\ is_log_file m = true /\
            forall f, In f (map fst es) -> is_log_file f = true ->
                      String.leb f m = true.
Proof.
  intros Hl Hf0 Ht0. rewrite get_last_logfile_run, Hl.
  assert (Hne : filter is_log_file (map fst es) <> []).
  { intros E. assert (H : In f0 (filter is_log_file (map fst es)))
      by (apply filter_In; auto).
    rewrite E in H. destruct H. }
  destruct (sort_reverse_hd _ Hne) as [Hin Hmax].
  set (m := hd "" (sort_reverse (filter is_log_file (map fst es)))) in *.
  apply filter_In in Hin as [Hin Hm].
  exists m. split.
  - destruct (filter is_log_file (map fst es)); [contradiction|].
    rewrite os_path_join_logs; [reflexivity|].
    unfold is_log_file in Hm. apply andb_true_iff in Hm. tauto.
  - split; [exact Hin|]. split; [exact Hm|].
    intros f Hf Ht. apply Hmax, filter_In. auto.
Qed.

(** [get_last_logfile] on a readable [logs] directory changes nothing and
    returns: a new time-stamped name when no entry of the directory is
    called [sync_log-....log]; otherwise [logs/m] for an entry [m] of the
    directory that passes the test and is a greatest such name in the
    order of strings.  The test looks at names only: the entry may be a
    directory. *)
Theorem get_last_logfile_greatest cwd now w es :
  lookup (fs w) (join cwd "logs") = Some (Dir true es) ->
  exists logfile,
    get_last_logfile cwd now w = (Return logfile, w) /\
    ((forall f, In f (map fst es) -> is_log_file f = false) ->
     logfile = generate_logfile_name now) /\
    ((exists f, In f (map fst es) /\ is_log_file f = true) ->
     exists m, logfile = ("logs/" ++ m)%string /\
               In m (map fst es) /\ is_log_file m = true /\
               forall f, In f (map fst es) -> is_log_file f = true ->
                         String.leb f m = true).
Proof.
  intros Hl.
  destruct (filter is_log_file (map fst es)) as [|f l] eqn:E.
  - exists (generate_logfile_name now).
    split; [rewrite get_last_logfile_run, Hl, E; reflexivity|].
    split; [reflexivity|]. intros (f & Hf & Ht).
    assert (H : In f (filter is_log_file (map fst es)))
      by (apply filter_In; auto).
    rewrite E in H. destruct H.
  - assert (Hf : In f (filter is_log_file (map fst es)))
      by (rewrite E; left; reflexivity).
    apply filter_In in Hf as [Hf Ht].
    destruct (get_last_logfile_some cwd now w es f Hl Hf Ht)
      as (m & Hrun & Hm).
    exists ("logs/" ++ m)%string. split; [exact Hrun|]. split.
    + intros Hnone. rewrite (Hnone f Hf) in Ht. discriminate.
    + intros _. exists m. split; [reflexivity | exact Hm].
Qed.


Lemma is_log_file_generated t :
  is_log_file ("sync_log-" ++ strftime t ++ ".log")%string = true.
Proof. destruct t. reflexivity. Qed.

(** The two functions together: when the entries of [logs] that pass the
    test are names made by [generate_logfile_name] within one century,
    [get_last_logfile] returns the name of the one made last. *)
Theorem get_last_logfile_latest cwd now w es t :
  lookup (fs w) (join cwd "logs") = Some (Dir true es) ->
  valid_datetime t = true ->
  In ("sync_log-" ++ strftime t ++ ".log")%string (map fst es) ->
  (forall f, In f (map fst es) -> is_log_file f = true ->
     exists t', valid_datetime t' = true /\ year t' / 100 = year t / 100 /\
                f = ("sync_log-" ++ strftime t' ++ ".log")%string /\
                chronological t' t <> Gt) ->
  get_last_logfile cwd now w = (Return (generate_logfile_name t), w).
Proof.
  intros Hl Hv Hin Hall.
  destruct (get_last_logfile_some cwd now w es _ Hl Hin
              (is_log_file_generated t)) as (m & Hrun & Hm & Htm & Hmax).
  rewrite Hrun. f_equal. f_equal.
  destruct (Hall m Hm Htm) as (t' & Hv' & Hc & -> & Hle).
  change (generate_logfile_name t' = generate_logfile_name t).
  apply String.leb_antisym.
  - unfold String.leb.
    pose proof (compare_same_prefix "logs/"
                  ("sync_log-" ++ strftime t' ++ ".log")
                  ("sync_log-" ++ strftime t ++ ".log")) as E.
    change (String.compare (generate_logfile_name t')
              (generate_logfile_name t) =
            String.compare ("sync_log-" ++ strftime t' ++ ".log")
              ("sync_log-" ++ strftime t ++ ".log")) in E.
    destruct (String.compare (generate_logfile_name t')
                (generate_logfile_name t)) eqn:Ec; try reflexivity.
    exfalso. apply Hle.
    rewrite <- (year_century_compare t' t Hv' Hv Hc). exact Ec.
  - specialize (Hmax _ Hin (is_log_file_generated t)).
    unfold String.leb in *.
    pose proof (compare_same_prefix "logs/"
                  ("sync_log-" ++ strftime t ++ ".log")
                  ("sync_log-" ++ strftime t' ++ ".log")) as E.
    change (String.compare (generate_logfile_name t)
              (generate_logfile_name t') =
            String.compare ("sync_log-" ++ strftime t ++ ".log")
              ("sync_log-" ++ strftime t' ++ ".log")) in E.
    rewrite E. exact Hmax.
Qed.

Lemma get_last_logfile_greatest_witness :
  lookup logs_fs (join [] "logs") = Some (Dir true logs_entries) /\
  exists logfile,
    get_last_logfile [] (Datetime 2025 6 1 12 0 0) (World logs_fs []) =
      (Return logfile, World logs_fs []) /\
    ((forall f, In f (map fst logs_entries) -> is_log_file f = false) ->
     logfile = generate_logfile_name (Datetime 2025 6 1 12 0 0)) /\
    ((exists f, In f (map fst logs_entries) /\ is_log_file f = true) ->
     exists m, logfile = ("logs/" ++ m)%string /\
               In m (map fst logs_entries) /\ is_log_file m = true /\
               forall f, In f (map fst logs_entries) ->
                         is_log_file f = true -> String.leb f m = true).
Proof.
  split; [reflexivity|].
  apply (get_last_logfile_greatest [] (Datetime 2025 6 1 12 0 0)
           (World logs_fs []) logs_entries).
  reflexivity.
Defined.


Lemma get_last_logfile_latest_witness :
  (lookup logs_fs (join [] "logs") = Some (Dir true logs_entries) /\
   valid_datetime (Datetime 2025 1 1 0 0 0) = true) /\
  get_last_logfile [] (Datetime 2025 6 1 12 0 0) (World logs_fs []) =
  (Return (generate_logfile_name (Datetime 2025 1 1 0 0 0)), World logs_fs []).
Proof.
  split; [split; reflexivity|].
  apply (get_last_logfile_latest [] (Datetime 2025 6 1 12 0 0)
           (World logs_fs []) logs_entries (Datetime 2025 1 1 0 0 0)).
  - reflexivity.
  - reflexivity.
  - right. right. left. reflexivity.
  - intros f Hf Ht.
    destruct Hf as [<-|[<-|[<-|[<-|[<-|[]]]]]].
    + exists (Datetime 2024 12 31 23 59 59).
      repeat split; [discriminate].
    + discriminate Ht.
    + exists (Datetime 2025 1 1 0 0 0).
      repeat split; [discriminate].
    + discriminate Ht.
    + exists (Datetime 2024 6 15 12 0 0).
      repeat split; [discriminate].
Defined.

(* ===================================================================== *)
(** * The main program *)
(* ===================================================================== *)

Lemma skipn_length_app A (l evs : list A) :
  skipn (List.length l) (l ++ evs) = evs.
Proof. induction l as [|a l IH]; simpl; [destruct evs; reflexivity | exact IH]. Qed.

Lemma new_actions_app t lg t' evs :
  new_actions (World t lg) (World t' (lg ++ evs)) = map Action evs.
Proof. unfold new_actions. cbn [log]. rewrite skipn_length_app. reflexivity. Qed.

Lemma new_actions_none w : new_actions w w = [].
Proof.
  destruct w as [t lg]. rewrite <- (app_nil_r lg) at 2.
  apply new_actions_app.
Qed.





Lemma common_unreadable_raises fuel fs0 source replica rs S rr R lg n s r :
  disjoint source replica ->
  lookup fs0 source = Some (Dir rs S) ->
  lookup fs0 replica = Some (Dir rr R) ->
  mem n skip = false ->
  entry S n = Some s -> entry R n = Some r -> is_dir s = is_dir r ->
  readable_flag s = false \/ readable_flag r = false ->
  exists e t1 evs,
    sync_folders fuel source replica (World fs0 lg) =
      (Raise e, World t1 (lg ++ evs)).
Proof.
  intros Hd Hs Hr Hk Es Er Hty Hbad.
  destruct (sync_folders_W fuel fs0 source replica rs S rr R lg Hd Hs Hr)
    as (o & R' & evs & Hrun & _ & _ & Hret & _).
  destruct o as [[]|e]; [|unfold replica_world in Hrun; eauto].
  exfalso. specialize (Hret eq_refl).
  inversion Hret as [S0 R0 R0' _ _ _ _ Hfiles Hdirs]; subst.
  destruct s as [r1 d1|r1 S1], r as [r2 d2|r2 R1]; cbn [is_dir] in Hty;
    try discriminate.
  - destruct (Hfiles n r1 d1 r2 d2 Hk Es Er) as (-> & -> & _).
    destruct Hbad; discriminate.
  - destruct (Hdirs n r1 S1 r2 R1 Hk Es Er) as (R1' & _ & Hsub).
    inversion Hsub; subst. destruct Hbad; discriminate.
Qed.

(** A failure ends the program.  When an entry that the comparison finds
    on both sides with the same type cannot be read, the exception leaves
    [sync_folders], the loop and the program in the first cycle: the log
    has the start line of the cycle and the actions done before the
    failure, but no end line and no termination line, and no later cycle
    runs, however long the program would have run otherwise. *)
Theorem main_ends_on_failure
    fuel fs0 source replica rs S rr R lg ls seconds sleeps n s r :
  disjoint source replica ->
  lookup fs0 source = Some (Dir rs S) ->
  lookup fs0 replica = Some (Dir rr R) ->
  mem n skip = false ->
  entry S n = Some s -> entry R n = Some r -> is_dir s = is_dir r ->
  readable_flag s = false \/ readable_flag r = false ->
  exists e t1 evs,
    main fuel source replica seconds sleeps (Process (World fs0 lg) ls) =
    (Uncaught e,
     Process (World t1 (lg ++ evs))
       (ls ++ [PeriodicStart source replica; IntervalLine seconds] ++
        [CycleStart] ++ map Action evs)).
Proof.
  intros Hd Hs Hr Hk Es Er Hty Hbad.
  destruct (common_unreadable_raises fuel fs0 source replica rs S rr R lg
              n s r Hd Hs Hr Hk Es Er Hty Hbad) as (e & t1 & evs & Hrun).
  exists e, t1, evs.
  unfold main, say. cbn [disk lines fs]. rewrite Hs. cbn [negb].
  destruct sleeps as [|k]; cbn [loop]; unfold cycle, say; cbn [disk lines];
    rewrite Hrun, new_actions_app, <- !app_assoc; reflexivity.
Qed.


(** The test of the source folder.  A missing source ends the program at
    once with status 1 and one line, and nothing is done.  The test only
    asks whether the path exists: a source that is a file passes it, and
    the program (with an existing replica) dies in its first cycle with
    [NotADirectoryError], having written the opening lines and the start
    line of the cycle. *)
Theorem main_source_test fuel source replica seconds sleeps w ls :
  (lookup (fs w) source = None ->
   main fuel source replica seconds sleeps (Process w ls) =
   (Exit 1, Process w (ls ++ [SourceMissing source]))) /\
  (forall r d,
     lookup (fs w) source = Some (File r d) ->
     lookup (fs w) replica <> None ->
     main (Datatypes.S fuel) source replica seconds sleeps (Process w ls) =
     (Uncaught (NotADirectoryError source),
      Process w (ls ++ [PeriodicStart source replica; IntervalLine seconds] ++
                 [CycleStart]))).
Proof.
  split.
  - intros Hs. unfold main, say. cbn [disk lines]. rewrite Hs. reflexivity.
  - intros r d Hs Hrep.
    assert (Hrun : sync_folders (Datatypes.S fuel) source replica w =
                   (Raise (NotADirectoryError source), w)).
    { rewrite sync_folders_unfold, (ensure_replica_existing _ _ Hrep).
      unfold sync_pass, bind at 1. rewrite dircmp_phase1_run, Hs.
      reflexivity. }
    unfold main, say. cbn [disk lines]. rewrite Hs. cbn [negb].
    destruct sleeps as [|k]; cbn [loop]; unfold cycle, say; cbn [disk lines];
      rewrite Hrun, new_actions_none, app_nil_r, <- !app_assoc; reflexivity.
Qed.

(** ** The main program at concrete trees *)



Lemma main_ends_on_failure_witness :
  (disjoint ["src"] ["rep"] /\ mem "a" skip = false /\
   readable_flag (Dir false [("x.txt", file "x")]) = false) /\
  exists e t1 evs,
    main 5 ["src"] ["rep"] 60 7 (Process (World unreadable_fs []) []) =
    (Uncaught e,
     Process (World t1 ([] ++ evs))
       ([] ++ [PeriodicStart ["src"] ["rep"]; IntervalLine 60] ++
        [CycleStart] ++ map Action evs)).
Proof.
  split.
  - split; [split; reflexivity | split; reflexivity].
  - eapply (main_ends_on_failure 5 unreadable_fs ["src"] ["rep"]
              true _ true _ [] [] 60 7 "a"
              (Dir false [("x.txt", file "x")]) (Dir true [])).
    + split; reflexivity.
    + reflexivity.
    + reflexivity.
    + reflexivity.
    + reflexivity.
    + reflexivity.
    + reflexivity.
    + left. reflexivity.
Defined.


Lemma main_source_test_witness :
  (lookup tags_fs ["nowhere"] = None /\
   main 5 ["nowhere"] ["rep"] 60 2 (Process (World tags_fs []) []) =
   (Exit 1, Process (World tags_fs []) ([] ++ [SourceMissing ["nowhere"]]))) /\
  (lookup tags_fs ["src"; "f1.txt"] = Some (File true (b "hello")) /\
   main 5 ["src"; "f1.txt"] ["rep"] 60 2 (Process (World tags_fs []) []) =
   (Uncaught (NotADirectoryError ["src"; "f1.txt"]),
    Process (World tags_fs [])
      ([] ++ [PeriodicStart ["src"; "f1.txt"] ["rep"]; IntervalLine 60] ++
       [CycleStart]))).
Proof.
  split.
  - split; [reflexivity|].
    apply (proj1 (main_source_test 5 ["nowhere"] ["rep"] 60 2
                    (World tags_fs []) [])).
    reflexivity.
  - split; [reflexivity|].
    apply (proj2 (main_source_test 4 ["src"; "f1.txt"] ["rep"] 60 2
                    (World tags_fs []) []) true (b "hello")).
    + reflexivity.
    + discriminate.
Defined.

(* ===================================================================== *)
(** * A folder synchronized with itself *)
(* ===================================================================== *)

Lemma for_each_noop A (body : A -> M unit) l w :
  (forall x, In x l -> body x w = (Return tt, w)) ->
  for_each l body w = (Return tt, w).
Proof.
  induction l as [|a l IH]; intros H; cbn [for_each]; [reflexivity|].
  unfold bind. rewrite (H a (or_introl eq_refl)). apply IH.
  intros x Hx. apply H. right. exact Hx.
Qed.

(** When both arguments are the same readable directory, not deeper than
    the recursion limit, a call of [sync_folders] compares every file with
    itself and does nothing: no file is written, nothing is removed and
    nothing is reported. *)
Theorem sync_folders_same_folder fuel : forall p w r es,
  lookup (fs w) p = Some (Dir r es) ->
  all_readable (Dir r es) = true ->
  height (Dir r es) <= fuel ->
  sync_folders fuel p p w = (Return tt, w).
Proof.
  induction fuel as [|fuel IH]; intros p w r es Hl Hr Hh.
  - rewrite height_Dir in Hh. lia.
  - rewrite all_readable_Dir in Hr. apply andb_true_iff in Hr as [-> Hes].
    rewrite sync_folders_unfold, ensure_replica_existing by congruence.
    unfold sync_pass, bind at 1. rewrite dircmp_phase1_run, Hl.
    set (c1 := compare_lists (map fst es) (map fst es)).
    assert (Hl1 : left_only c1 = []).
    { apply no_elements. intros x Hx. apply In_left_only in Hx. tauto. }
    assert (Hl2 : right_only c1 = []).
    { apply no_elements. intros x Hx. apply In_right_only in Hx. tauto. }
    rewrite Hl1, Hl2. cbn [for_each].
    unfold bind at 1, ret at 1. cbv beta iota.
    unfold bind at 1, ret at 1. cbv beta iota.
    unfold bind at 1, dircmp_phase2, bind at 1, get_fs, ret at 1.
    cbv beta iota.
    cbn [common_files common_dirs]. unfold bind at 1.
    rewrite for_each_noop.
    + apply for_each_noop. intros x Hx.
      apply in_common_dirs in Hx as [_ Hx].
      apply classify_dir in Hx as (r1 & e1 & _ & _ & Hx & _).
      assert (Ex : entry es x = Some (Dir r1 e1)).
      { rewrite lookup_join, Hl in Hx. exact Hx. }
      apply (IH _ _ r1 e1 Hx).
      * exact (all_readable_entry _ _ _ Hes Ex).
      * rewrite height_Dir in Hh. pose proof (height_entry _ _ _ Ex). lia.
    + intros x Hx. apply in_common_files in Hx as [_ Hx].
      apply classify_file in Hx as (r1 & d1 & _ & _ & Hx & _).
      assert (Ex : entry es x = Some (File r1 d1)).
      { rewrite lookup_join, Hl in Hx. exact Hx. }
      pose proof (all_readable_entry _ _ _ Hes Ex) as Hr1. cbn in Hr1.
      subst r1. unfold update_entry, bind.
      rewrite (files_are_different_readable _ _ _ _ _ Hx Hx).
      rewrite String.eqb_refl. reflexivity.
Qed.

Lemma sync_folders_same_folder_witness :
  (all_readable (Dir true [("docs", Dir true [("a.txt", file "alpha")]);
                           ("f1.txt", file "hello");
                           ("new.txt", file "abc")]) = true /\
   height (Dir true [("docs", Dir true [("a.txt", file "alpha")]);
                     ("f1.txt", file "hello");
                     ("new.txt", file "abc")]) <= 5) /\
  sync_folders 5 ["src"] ["src"] (World demo_fs []) =
  (Return tt, World demo_fs []).
Proof.
  split.
  - split; [reflexivity | cbn; lia].
  - apply (sync_folders_same_folder 5 ["src"] (World demo_fs []) true
             [("docs", Dir true [("a.txt", file "alpha")]);
              ("f1.txt", file "hello");
              ("new.txt", file "abc")]).
    + reflexivity.
    + reflexivity.
    + cbn. lia.
Defined.
